(** * DoMedia front-end scripts: a shallow embedding and its properties

  The repository is a handful of browser scripts (Helpers, ViewportUtils,
  Navigation, Animations, LaptopEnhancer).  Each script is embedded as a
  Rocq module over an explicit model of the part of the browser it
  touches: the window metrics, the element store, the timer queue, the
  event-listener table and the console.

  Conventions
  - pixel quantities (widths, heights, scroll offsets) are integers [Z];
  - the result of a JavaScript division is a [JsNumber.number], which keeps
    NaN and the two infinities apart from finite values (finite values are
    exact rationals: rounding of doubles is not modelled);
  - an element reference is an index into the document's element list,
    [None] is JavaScript's [null];
  - strings are byte strings, text being held in UTF-8;
  - closures handed to [setTimeout], [requestAnimationFrame] or
    [addEventListener] are defunctionalised into small task types. *)

From Stdlib Require Import ZArith QArith Lia Lqa Bool Ascii String.
From stdpp Require Import gmap strings list pretty.

Local Open Scope Z_scope.

(** ** JavaScript values the scripts compute with *)

Module JsNumber.

Inductive number :=
| NaN
| PosInf
| NegInf
| Fin (q : Q).

Definition of_Z (z : Z) : number := Fin (inject_Z z).

(** [a / b] for two integer-valued operands. *)
Definition div (a b : Z) : number :=
  if b =? 0 then
    if a =? 0 then NaN else if 0 <? a then PosInf else NegInf
  else Fin (inject_Z a / inject_Z b)%Q.

(** [Math.max(x, y)] *)
Definition Math_max (x y : number) : number :=
  match x, y with
  | NaN, _ | _, NaN => NaN
  | PosInf, _ | _, PosInf => PosInf
  | NegInf, z | z, NegInf => z
  | Fin a, Fin b => if Qle_bool a b then Fin b else Fin a
  end.

(** [Math.min(x, y)] *)
Definition Math_min (x y : number) : number :=
  match x, y with
  | NaN, _ | _, NaN => NaN
  | NegInf, _ | _, NegInf => NegInf
  | PosInf, z | z, PosInf => z
  | Fin a, Fin b => if Qle_bool a b then Fin a else Fin b
  end.

(** A finite value inside the closed unit interval. *)
Definition in_unit_interval (x : number) : Prop :=
  match x with
  | Fin q => (0 <= q /\ q <= 1)%Q
  | _ => False
  end.

(** [a || b] on numbers: [0] (like NaN and undefined) is falsy. *)
Definition or_else (a b : Z) : Z := if a =? 0 then b else a.

End JsNumber.

Module JsString.

Definition is_space (c : ascii) : bool :=
  let n := nat_of_ascii c in
  (n =? 32)%nat || (n =? 9)%nat || (n =? 10)%nat || (n =? 11)%nat
  || (n =? 12)%nat || (n =? 13)%nat.

Definition digit_of (c : ascii) : option Z :=
  let n := nat_of_ascii c in
  if (48 <=? n)%nat && (n <=? 57)%nat then Some (Z.of_nat (n - 48)) else None.

Fixpoint skip_space (s : string) : string :=
  match s with
  | String c r => if is_space c then skip_space r else s
  | EmptyString => EmptyString
  end.

(** Longest prefix of decimal digits, accumulated left to right. *)
Fixpoint digits (acc : option Z) (s : string) : option Z :=
  match s with
  | String c r =>
      match digit_of c with
      | Some d => digits (Some (10 * default 0 acc + d)) r
      | None => acc
      end
  | EmptyString => acc
  end.

(** [parseInt(s, 10)]; [None] stands for NaN. *)
Definition parseInt10 (s : string) : option Z :=
  match skip_space s with
  | String "-" r => Z.opp <$> digits None r
  | String "+" r => digits None r
  | r => digits None r
  end.

(** [n.toString()] for an integer-valued number. *)
Definition toString (n : Z) : string := pretty n.

(** Truthiness of a possibly-undefined string. *)
Definition truthy (s : option string) : bool :=
  match s with
  | Some (String _ _) => true
  | _ => false
  end.

(** [s.substring(1)] *)
Definition substring1 (s : string) : string :=
  match s with
  | String _ r => r
  | EmptyString => EmptyString
  end.


(** *** [num.toString().replace(/\B(?=(\d{3})+(?!\d))/g, ",")]

    The pattern matches the empty string at a position that is not a word
    boundary and is followed by a run of digits whose length is a positive
    multiple of three. *)
Definition is_digit (c : ascii) : bool :=
  match digit_of c with Some _ => true | None => false end.

(** [\w]: letters, digits and the underscore *)
Definition is_word (c : ascii) : bool :=
  let n := nat_of_ascii c in
  is_digit c || ((65 <=? n)%nat && (n <=? 90)%nat)
  || ((97 <=? n)%nat && (n <=? 122)%nat) || (n =? 95)%nat.

(** Length of the run of digits a string starts with. *)
Fixpoint digitRun (s : string) : nat :=
  match s with
  | String c r => if is_digit c then S (digitRun r) else O
  | EmptyString => O
  end.

(** [(?=(\d{3})+(?!\d))] at the head of [s] *)
Definition groupsAhead (s : string) : bool :=
  let n := digitRun s in
  negb (n =? 0)%nat && (n mod 3 =? 0)%nat.

(** [\B] between the character before (none at the start) and the
    character after (none at the end) *)
Definition nonBoundary (prev next : option ascii) : bool :=
  Bool.eqb (from_option is_word false prev) (from_option is_word false next).

(** The replacement, scanning from a position whose previous character is
    [prev]. *)
Fixpoint insertCommas (prev : option ascii) (s : string) : string :=
  match s with
  | EmptyString => EmptyString
  | String c r =>
      let rest := String c (insertCommas (Some c) r) in
      if nonBoundary prev (Some c) && groupsAhead s
      then String "," rest else rest
  end.

(** [Helpers.formatNumber(num)] for an integer [num] *)
Definition formatNumber (num : Z) : string :=
  insertCommas None (toString num).

Definition stripCommas (s : string) : string :=
  string_of_list_ascii
    (filter (fun c => c ≠ ","%char) (list_ascii_of_string s)).

(** A string of decimal digits only. *)
Definition digitsOnly (s : string) : bool :=
  forallb is_digit (list_ascii_of_string s).

End JsString.

(** ** Completions: a script either returns or throws, and what it did to
  the state before throwing stays done *)

Module Eff.

Inductive Error :=
| TypeError (what : string)
| SyntaxError (what : string).

Inductive Completion (A : Type) :=
| Normal (a : A)
| Throw (e : Error).
Arguments Normal {A} a.
Arguments Throw {A} e.

Definition M (S A : Type) : Type := S -> Completion A * S.

Definition ret {S A} (a : A) : M S A := fun s => (Normal a, s).

Definition bind {S A B} (m : M S A) (k : A -> M S B) : M S B :=
  fun s =>
    match m s with
    | (Normal a, s') => k a s'
    | (Throw e, s') => (Throw e, s')
    end.

Definition throw {S A} (e : Error) : M S A := fun s => (Throw e, s).
Definition get {S} : M S S := fun s => (Normal s, s).
Definition modify {S} (f : S -> S) : M S unit := fun s => (Normal tt, f s).

(** Dereference: reading or writing a property of [null] is a TypeError. *)
Definition deref {S A} (what : string) (r : option A) : M S A :=
  match r with
  | Some a => ret a
  | None => throw (TypeError what)
  end.

Fixpoint forEach {S A} (l : list A) (f : A -> M S unit) : M S unit :=
  match l with
  | [] => ret tt
  | a :: r => bind (f a) (fun _ => forEach r f)
  end.

End Eff.

Notation "'let*' x := c 'in' k" := (Eff.bind c (fun x => k))
(at level 10, x name, c at level 100, k at level 200).
Notation "'do*' c 'in' k" := (Eff.bind c (fun _ => k))
(at level 10, c at level 100, k at level 200).

(** ** The document: elements in document order, selectors, inline styles *)

Module Dom.

(** An inline style declaration is either literal text or the
    [all <n>ms <easing>] transition the animation code assembles. *)
Inductive StyleValue :=
| Text (s : string)
| TransitionAll (ms : Q) (easing : string).

Record Element := {
  tagName : string;
  parent : option nat;
  classList : list string;
  attributes : gmap string string;
  textContent : string;
  style : gmap string StyleValue;
  offsetTop : Z;
  offsetHeight : Z
}.

Abbreviation Document := (list Element).

Definition set_classList (f : list string -> list string) (e : Element) :=
  {| tagName := tagName e; parent := parent e; classList := f (classList e);
     attributes := attributes e; textContent := textContent e;
     style := style e; offsetTop := offsetTop e;
     offsetHeight := offsetHeight e |}.

Definition set_attributes (f : gmap string string -> gmap string string)
    (e : Element) :=
  {| tagName := tagName e; parent := parent e; classList := classList e;
     attributes := f (attributes e); textContent := textContent e;
     style := style e; offsetTop := offsetTop e;
     offsetHeight := offsetHeight e |}.

Definition set_textContent (t : string) (e : Element) :=
  {| tagName := tagName e; parent := parent e; classList := classList e;
     attributes := attributes e; textContent := t;
     style := style e; offsetTop := offsetTop e;
     offsetHeight := offsetHeight e |}.

Definition set_style (f : gmap string StyleValue -> gmap string StyleValue)
    (e : Element) :=
  {| tagName := tagName e; parent := parent e; classList := classList e;
     attributes := attributes e; textContent := textContent e;
     style := f (style e); offsetTop := offsetTop e;
     offsetHeight := offsetHeight e |}.

(** [classList.contains], [classList.add], [classList.remove] *)
Definition contains (c : string) (e : Element) : bool :=
  bool_decide (c ∈ classList e).

Definition classAdd (c : string) (e : Element) : Element :=
  set_classList (fun l => if bool_decide (c ∈ l) then l else l ++ [c]) e.

Definition classRemove (c : string) (e : Element) : Element :=
  set_classList (filter (fun c' => c' ≠ c)) e.

(** A class name that [classList] accepts: not empty and free of white
    space; on any other, [add], [remove] and [toggle] throw. *)
Definition classToken (c : string) : bool :=
  negb (bool_decide (c = ""%string))
  && forallb (fun ch => negb (JsString.is_space ch)) (list_ascii_of_string c).

(** [setAttribute], [getAttribute] *)
Definition setAttribute (a v : string) (e : Element) : Element :=
  set_attributes <[a := v]> e.

Definition getAttribute (a : string) (e : Element) : option string :=
  attributes e !! a.

Definition removeAttribute (a : string) (e : Element) : Element :=
  set_attributes (delete a) e.

(** [element.style.prop = value]: the empty string removes the
    declaration.  The value is taken to be one the style engine accepts
    and keeps as written; text it would drop or rewrite is outside the
    model. *)
Definition assignStyle (prop : string) (v : StyleValue) (e : Element) :=
  match v with
  | Text EmptyString => set_style (delete prop) e
  | _ => set_style <[prop := v]> e
  end.

(** Apply [f] to the element a reference points to. *)
Definition update (i : nat) (f : Element -> Element) (d : Document) :=
  alter f i d.

(** *** Selectors *)

Inductive Simple :=
| Universal
| Tag (t : string)
| Class (c : string)
| Id (i : string)
| AttrEq (a v : string)
| AttrPrefix (a v : string).

Definition Compound := list Simple.

Inductive Selector :=
| Sel (c : Compound)
| Desc (anc : Selector) (c : Compound)
| Child (par : Selector) (c : Compound).

Definition matchSimple (e : Element) (s : Simple) : bool :=
  match s with
  | Universal => true
  | Tag t => bool_decide (tagName e = t)
  | Class c => contains c e
  | Id i => bool_decide (attributes e !! "id"%string = Some i)
  | AttrEq a v => bool_decide (attributes e !! a = Some v)
  | AttrPrefix a v =>
      match attributes e !! a with
      | Some x => String.prefix v x
      | None => false
      end
  end.

Definition matchCompound (d : Document) (c : Compound) (i : nat) : bool :=
  match d !! i with
  | Some e => forallb (matchSimple e) c
  | None => false
  end.

(** Ancestors of an element, nearest first. *)
Fixpoint ancestorsFrom (fuel : nat) (d : Document) (i : nat) : list nat :=
  match fuel with
  | O => []
  | S fuel' =>
      match d !! i ≫= parent with
      | Some p => p :: ancestorsFrom fuel' d p
      | None => []
      end
  end.

Definition ancestors (d : Document) (i : nat) : list nat :=
  ancestorsFrom (length d) d i.

Fixpoint matches (d : Document) (s : Selector) (i : nat) : bool :=
  match s with
  | Sel c => matchCompound d c i
  | Desc anc c =>
      matchCompound d c i && existsb (matches d anc) (ancestors d i)
  | Child par c =>
      matchCompound d c i &&
      match d !! i ≫= parent with
      | Some p => matches d par p
      | None => false
      end
  end.

Definition matchesAny (d : Document) (ss : list Selector) (i : nat) : bool :=
  existsb (fun s => matches d s i) ss.

(** [document.querySelectorAll], for a selector list *)
Definition querySelectorAll (d : Document) (ss : list Selector) : list nat :=
  filter (fun i => matchesAny d ss i = true) (seq 0 (length d)).

Definition querySelector (d : Document) (ss : list Selector) : option nat :=
  head (querySelectorAll d ss).

(** [root.querySelectorAll]: matches among the descendants of [root] *)
Definition querySelectorAllIn (d : Document) (root : nat)
    (ss : list Selector) : list nat :=
  filter (fun i => root ∈ ancestors d i) (querySelectorAll d ss).

Definition querySelectorIn (d : Document) (root : nat)
    (ss : list Selector) : option nat :=
  head (querySelectorAllIn d root ss).

(** [document.getElementById]; the empty string names no element. *)
Definition getElementById (d : Document) (id : string) : option nat :=
  match id with
  | EmptyString => None
  | _ => querySelector d [Sel [Id id]]
  end.

(** A string that can be spliced between double quotes in selector text
    without ending the quoted string: no quote, backslash or line break. *)
Definition quotable (v : string) : bool :=
  forallb (fun c => negb (bool_decide
             (nat_of_ascii c ∈ [34; 92; 10; 12; 13]%nat)))
          (list_ascii_of_string v).

(** *** Quoted strings in selector text

    What the engine reads between two double quotes of selector text: a
    backslash escapes the character after it, or up to six hexadecimal
    digits (and one white space after them) that give a code point; a
    backslash before a line break continues the line.  [None] when the
    text holds a raw line break, which the engine rejects, and when it
    holds a double quote that is not escaped or ends in a backslash: the
    quoted string then ends elsewhere than the writer of the text meant,
    and what the engine makes of the rest is outside the model. *)

(** The value of a hexadecimal digit. *)
Definition hexValue (c : ascii) : option N :=
  let n := N_of_ascii c in
  if (48 <=? n)%N && (n <=? 57)%N then Some (n - 48)%N
  else if (65 <=? n)%N && (n <=? 70)%N then Some (n - 55)%N
  else if (97 <=? n)%N && (n <=? 102)%N then Some (n - 87)%N
  else None.

Definition is_newline (c : ascii) : bool :=
  bool_decide (nat_of_ascii c ∈ [10; 12; 13]%nat).

(** The UTF-8 bytes of a code point. *)
Definition utf8 (n : N) : string :=
  let byte (k : N) := ascii_of_N k in
  if (n <? 128)%N then String (byte n) ""
  else if (n <? 2048)%N then
    String (byte (192 + n / 64)%N) (String (byte (128 + n mod 64)%N) "")
  else if (n <? 65536)%N then
    String (byte (224 + n / 4096)%N)
      (String (byte (128 + (n / 64) mod 64)%N)
         (String (byte (128 + n mod 64)%N) ""))
  else
    String (byte (240 + n / 262144)%N)
      (String (byte (128 + (n / 4096) mod 64)%N)
         (String (byte (128 + (n / 64) mod 64)%N)
            (String (byte (128 + n mod 64)%N) ""))).

(** What a hexadecimal escape of value [n] stands for: zero, the
    surrogates and values past U+10FFFF give U+FFFD. *)
Definition escaped (n : N) : string :=
  utf8 (if (n =? 0)%N || ((55296 <=? n)%N && (n <=? 57343)%N)
           || (1114111 <? n)%N
        then 65533%N else n).

(** Where the reader is: in the string proper, just after a backslash,
    after a carriage return that ended an escape (a line feed after it
    belongs to the same line break), or in a hexadecimal escape. *)
Inductive Lexer :=
| InString
| AfterBackslash
| AfterCR
| InHex (value : N) (digits : nat).

Fixpoint stringFrom (mode : Lexer) (s : string) : option string :=
  match s with
  | EmptyString =>
      match mode with
      | InString | AfterCR => Some EmptyString
      | AfterBackslash => None
      | InHex v _ => Some (escaped v)
      end
  | String c r =>
      let plain (_ : unit) :=
        if bool_decide (nat_of_ascii c = 34%nat) then None
        else if is_newline c then None
        else if bool_decide (nat_of_ascii c = 92%nat)
        then stringFrom AfterBackslash r
        else String c <$> stringFrom InString r in
      match mode with
      | InString => plain tt
      | AfterCR =>
          if bool_decide (nat_of_ascii c = 10%nat) then stringFrom InString r
          else plain tt
      | AfterBackslash =>
          if bool_decide (nat_of_ascii c = 13%nat) then stringFrom AfterCR r
          else if is_newline c then stringFrom InString r
          else match hexValue c with
               | Some h => stringFrom (InHex h 1) r
               | None => String c <$> stringFrom InString r
               end
      | InHex v k =>
          match (if (k <? 6)%nat then hexValue c else None) with
          | Some h => stringFrom (InHex (16 * v + h)%N (S k)) r
          | None =>
              (fun rest => escaped v +:+ rest) <$>
                (if bool_decide (nat_of_ascii c = 13%nat)
                 then stringFrom AfterCR r
                 else if is_newline c
                         || bool_decide (nat_of_ascii c ∈ [9; 32]%nat)
                 then stringFrom InString r
                 else plain tt)
          end
      end
  end.

Definition cssString (v : string) : option string := stringFrom InString v.

(** The selector written [[a="v"]] by splicing [v] into the text: an
    attribute selector for the string the engine reads between the
    quotes, which is [v] itself when [v] is [quotable]. *)
Definition attrEqQuoted (a v : string) : option Selector :=
  (fun value => Sel [AttrEq a value]) <$> cssString v.

End Dom.

(** ** Helpers: class toggling, timers, debounce, throttle, scroll tween *)

Module Helpers.
Import Dom.

Definition addClass (element : option nat) (className : string)
    (d : Document) : Document :=
  match element with
  | Some i =>
      update i (fun e => if contains className e then e
                         else classAdd className e) d
  | None => d
  end.

Definition removeClass (element : option nat) (className : string)
    (d : Document) : Document :=
  match element with
  | Some i =>
      update i (fun e => if contains className e
                         then classRemove className e else e) d
  | None => d
  end.

(** *** The timer queue behind [setTimeout] / [clearTimeout]

    [D] is the type of delays, [T] the type of (defunctionalised)
    callbacks.  Timer ids start at 1, so an id is always truthy. *)
Record Timers (D T : Type) := {
  pending : gmap nat (D * T);
  lastTimer : nat
}.
Arguments pending {D T} _.
Arguments lastTimer {D T} _.

Definition noTimers {D T} : Timers D T :=
  {| pending := ∅; lastTimer := 0 |}.

Definition setTimeout {D T} (task : T) (delay : D) (q : Timers D T)
    : nat * Timers D T :=
  let id := S (lastTimer q) in
  (id, {| pending := <[id := (delay, task)]> (pending q); lastTimer := id |}).

Definition clearTimeout {D T} (id : option nat) (q : Timers D T)
    : Timers D T :=
  match id with
  | Some i => {| pending := delete i (pending q); lastTimer := lastTimer q |}
  | None => q
  end.

(** Take a pending timer off the queue because it is about to run. *)
Definition expire {D T} (id : nat) (q : Timers D T) : Timers D T :=
  {| pending := delete id (pending q); lastTimer := lastTimer q |}.

(** *** debounce

    The closure returned by [debounce(func, wait, immediate)]: its three
    captured arguments and its private [timeout] variable. *)
Record Debounced (F : Type) := {
  func : F;
  wait : Z;
  immediate : bool;
  timeout : option nat
}.
Arguments func {F} _.
Arguments wait {F} _.
Arguments immediate {F} _.
Arguments timeout {F} _.

Definition debounce {F} (f : F) (w : Z) (imm : bool) : Debounced F :=
  {| func := f; wait := w; immediate := imm; timeout := None |}.

(** One call of the debounced function.  [laterTask] is the task that
    stands for this closure's [later]; the third component is [func] when
    it has to be applied right away. *)
Definition executedFunction {F T} (laterTask : T) (c : Debounced F)
    (q : Timers Z T) : Debounced F * Timers Z T * option F :=
  let callNow := immediate c && negb (bool_decide (is_Some (timeout c))) in
  let q1 := clearTimeout (timeout c) q in
  let '(id, q2) := setTimeout laterTask (wait c) q1 in
  ({| func := func c; wait := wait c; immediate := immediate c;
      timeout := Some id |},
   q2,
   if callNow then Some (func c) else None).

(** The [later] callback of a debounced closure. *)
Definition later {F} (c : Debounced F) : Debounced F * option F :=
  ({| func := func c; wait := wait c; immediate := immediate c;
      timeout := None |},
   if immediate c then None else Some (func c)).

(** *** throttle *)
Record Throttled (F : Type) := {
  tfunc : F;
  limit : Z;
  inThrottle : bool
}.
Arguments tfunc {F} _.
Arguments limit {F} _.
Arguments inThrottle {F} _.

Definition throttle {F} (f : F) (l : Z) : Throttled F :=
  {| tfunc := f; limit := l; inThrottle := false |}.

Definition throttledCall {F T} (releaseTask : T) (c : Throttled F)
    (q : Timers Z T) : Throttled F * Timers Z T * option F :=
  if inThrottle c then (c, q, None)
  else
    let '(_, q') := setTimeout releaseTask (limit c) q in
    ({| tfunc := tfunc c; limit := limit c; inThrottle := true |},
     q', Some (tfunc c)).

Definition release {F} (c : Throttled F) : Throttled F :=
  {| tfunc := tfunc c; limit := limit c; inThrottle := false |}.

(** *** smoothScrollTo

    The local function [easeInOutQuad(t, b, c, d)], in exact arithmetic
    (meaningful for [d <> 0]). *)
Definition easeInOutQuad (t b c d : Q) : Q :=
  let t := (t / (d / 2))%Q in
  if Qlt_le_dec t 1 then (c / 2 * t * t + b)%Q
  else
    let t := (t - 1)%Q in
    (- c / 2 * (t * (t - 2) - 1) + b)%Q.

(** The closure [animation] that [smoothScrollTo] hands to
    [requestAnimationFrame], with the variables it captures. *)
Record ScrollAnimation := {
  startPosition : Z;
  distance : Z;
  duration : Z;
  startTime : option Z
}.

(** [smoothScrollTo(target, offset, duration)] for an element target:
    nothing for [null], otherwise the animation to request a frame for. *)
Definition smoothScrollTo (pageYOffset : Z) (target : option Element)
    (offset dur : Z) : option ScrollAnimation :=
  match target with
  | None => None
  | Some element =>
      let startPosition := pageYOffset in
      let targetPosition := offsetTop element - offset in
      Some {| startPosition := startPosition;
              distance := targetPosition - startPosition;
              duration := dur;
              startTime := None |}
  end.

(** What one run of [animation(currentTime)] does. *)
Record FrameOutcome := {
  closure : ScrollAnimation;      (* the closure, [startTime] updated *)
  scrolledTo : option Q;          (* the [window.scrollTo(0, run)], if reached *)
  again : bool;                   (* whether another frame was requested *)
  raised : option Eff.Error
}.

(** A property of the global object, as far as calling it goes. *)
Inductive GlobalValue :=
| Object
| Function (f : Q -> Q -> Q -> Q -> Q).

(** [animation] is called by the browser as a plain function, so its [this]
    is the global object and [this.easeInOutQuad] is a property lookup on
    it.  The [easeInOutQuad] declared inside [smoothScrollTo] is a local
    binding, not a property of that object. *)
Definition animation (globals : gmap string GlobalValue)
    (a : ScrollAnimation) (currentTime : Z) : FrameOutcome :=
  let start := default currentTime (startTime a) in
  let a' := {| startPosition := startPosition a; distance := distance a;
               duration := duration a; startTime := Some start |} in
  let timeElapsed := currentTime - start in
  match globals !! "easeInOutQuad"%string with
  | Some (Function ease) =>
      let run := ease (inject_Z timeElapsed) (inject_Z (startPosition a))
                      (inject_Z (distance a)) (inject_Z (duration a)) in
      {| closure := a'; scrolledTo := Some run;
         again := timeElapsed <? duration a; raised := None |}
  | _ =>
      {| closure := a'; scrolledTo := None; again := false;
         raised := Some (Eff.TypeError "this.easeInOutQuad is not a function") |}
  end.

(** The properties the repository's scripts put on [window]. *)
Definition scriptGlobals : gmap string GlobalValue :=
  list_to_map
    [("Helpers", Object); ("ViewportUtils", Object); ("Navigation", Object);
     ("Animations", Object); ("buttonEnhancer", Object);
     ("laptopEnhancer", Object); ("DOMediaApp", Object)]%string.



(** [toggleClass(element, className)] *)
Definition toggleClass (element : option nat) (className : string)
    (d : Document) : Document :=
  match element with
  | Some i =>
      update i (fun e => if contains className e
                         then classRemove className e
                         else classAdd className e) d
  | None => d
  end.

(** *** isInViewport

    What [getBoundingClientRect()] reports for an element. *)
Record Rect := {
  top : Q;
  left : Q;
  bottom : Q;
  right : Q;
  rwidth : Q;
  rheight : Q
}.

(** [isInViewport(element, threshold)]; [None] is a null element, and
    [innerHeight], [clientHeight], [innerWidth], [clientWidth] are the
    window's metrics. *)
Definition isInViewport (element : option Rect) (threshold : Q)
    (innerHeight clientHeight innerWidth clientWidth : Z) : bool :=
  match element with
  | None => false
  | Some rect =>
      let elementHeight := rheight rect in
      let elementWidth := rwidth rect in
      Qle_bool (0 - elementHeight * threshold) (top rect)
      && Qle_bool (0 - elementWidth * threshold) (left rect)
      && Qle_bool (bottom rect)
           (inject_Z (JsNumber.or_else innerHeight clientHeight)
            + elementHeight * threshold)
      && Qle_bool (right rect)
           (inject_Z (JsNumber.or_else innerWidth clientWidth)
            + elementWidth * threshold)
  end.

(** *** Bursts of calls, used in the statements

    Timer ids are handed out in increasing order: nothing beyond the last
    one is pending. *)
Definition timersFresh {D T} (q : Timers D T) : Prop :=
  forall id, (lastTimer q < id)%nat -> pending q !! id = None.

(** [k] calls of a debounced function in a row, no timer coming due in
    between; the list collects the applications of [func]. *)
Fixpoint debounceBurst {F T} (laterTask : T) (k : nat) (c : Debounced F)
    (q : Timers Z T) : Debounced F * Timers Z T * list F :=
  match k with
  | O => (c, q, [])
  | S k' =>
      let '(c1, q1, now) := executedFunction laterTask c q in
      let '(c2, q2, called) := debounceBurst laterTask k' c1 q1 in
      (c2, q2, option_list now ++ called)
  end.

(** [k] calls of a throttled function in a row. *)
Fixpoint throttleBurst {F T} (releaseTask : T) (k : nat) (c : Throttled F)
    (q : Timers Z T) : Throttled F * Timers Z T * list F :=
  match k with
  | O => (c, q, [])
  | S k' =>
      let '(c1, q1, now) := throttledCall releaseTask c q in
      let '(c2, q2, called) := throttleBurst releaseTask k' c1 q1 in
      (c2, q2, option_list now ++ called)
  end.

End Helpers.

(** ** ViewportUtils: measurements and breakpoints *)

Module ViewportUtils.
Import JsNumber.

(** The metrics of [window], [document.documentElement] and
    [document.body] that the script reads. *)
Record Window := {
  innerWidth : Z;
  innerHeight : Z;
  clientWidth : Z;
  clientHeight : Z;
  pageXOffset : Z;
  pageYOffset : Z;
  docScrollLeft : Z;
  docScrollTop : Z;
  bodyScrollLeft : Z;
  bodyScrollTop : Z;
  bodyScrollHeight : Z
}.

Record Size := { width : Z; height : Z }.
Record Point := { x : Z; y : Z }.

Definition getViewportSize (w : Window) : Size :=
  {| width := Z.max (or_else (clientWidth w) 0) (or_else (innerWidth w) 0);
     height := Z.max (or_else (clientHeight w) 0) (or_else (innerHeight w) 0) |}.

Inductive Breakpoint := xl | lg | md | sm | xs.

(** The five-way ladder of [getCurrentBreakpoint], on the width alone. *)
Definition breakpointOf (width : Z) : Breakpoint :=
  if 1400 <=? width then xl
  else if 1024 <=? width then lg
  else if 768 <=? width then md
  else if 480 <=? width then sm
  else xs.

Definition getCurrentBreakpoint (w : Window) : Breakpoint :=
  breakpointOf (width (getViewportSize w)).

Definition isMobile (w : Window) : bool :=
  width (getViewportSize w) <=? 768.

Definition isTablet (w : Window) : bool :=
  let width := width (getViewportSize w) in
  (768 <? width) && (width <=? 1024).

Definition isDesktop (w : Window) : bool :=
  1024 <? width (getViewportSize w).

Definition getScrollPosition (w : Window) : Point :=
  {| x := or_else (pageXOffset w)
            (or_else (docScrollLeft w) (or_else (bodyScrollLeft w) 0));
     y := or_else (pageYOffset w)
            (or_else (docScrollTop w) (or_else (bodyScrollTop w) 0)) |}.

(** The argument handed to an [onScroll] callback. *)
Record ScrollInfo := {
  si_position : Point;
  si_viewport : Size;
  si_progress : number
}.

(** Body of the throttled arrow function of [onScroll]. *)
Definition scrollInfo (w : Window) : ScrollInfo :=
  let position := getScrollPosition w in
  let viewport := getViewportSize w in
  let progress := div (y position) (bodyScrollHeight w - height viewport) in
  {| si_position := position;
     si_viewport := viewport;
     si_progress := Math_min (of_Z 1) (Math_max (of_Z 0) progress) |}.

(** The argument handed to an [onViewportChange] callback. *)
Record ViewportInfo := {
  vi_viewport : Size;
  vi_breakpoint : Breakpoint
}.

Definition viewportInfo (w : Window) : ViewportInfo :=
  {| vi_viewport := getViewportSize w;
     vi_breakpoint := getCurrentBreakpoint w |}.

(** *** Listener registration: [onViewportChange], [onScroll]

    A user callback is known by a number; each invocation is logged with
    the argument it received. *)
Inductive Handler :=
| DebouncedViewport (d : Helpers.Debounced nat)
| ThrottledScroll (t : Helpers.Throttled nat).

Inductive Task :=
| Later (h : nat)      (* the [later] of debounced closure [h] *)
| Release (h : nat).   (* [() => inThrottle = false] of closure [h] *)

Record Loop := {
  window : Window;
  closures : gmap nat Handler;
  lastClosure : nat;
  listeners : gmap string (list nat);
  timers : Helpers.Timers Z Task;
  viewportCalls : list (nat * ViewportInfo);
  scrollCalls : list (nat * ScrollInfo)
}.

Definition set_window (w : Window) (l : Loop) : Loop :=
  {| window := w; closures := closures l; lastClosure := lastClosure l;
     listeners := listeners l; timers := timers l;
     viewportCalls := viewportCalls l; scrollCalls := scrollCalls l |}.

Definition set_closure (h : nat) (c : Handler) (l : Loop) : Loop :=
  {| window := window l; closures := <[h := c]> (closures l);
     lastClosure := lastClosure l;
     listeners := listeners l; timers := timers l;
     viewportCalls := viewportCalls l; scrollCalls := scrollCalls l |}.

Definition newClosure (c : Handler) (l : Loop) : nat * Loop :=
  let h := S (lastClosure l) in
  (h, {| window := window l; closures := <[h := c]> (closures l);
         lastClosure := h;
         listeners := listeners l; timers := timers l;
         viewportCalls := viewportCalls l; scrollCalls := scrollCalls l |}).

Definition set_listeners (f : gmap string (list nat) -> gmap string (list nat))
    (l : Loop) : Loop :=
  {| window := window l; closures := closures l; lastClosure := lastClosure l;
     listeners := f (listeners l); timers := timers l;
     viewportCalls := viewportCalls l; scrollCalls := scrollCalls l |}.

Definition set_timers (q : Helpers.Timers Z Task) (l : Loop) : Loop :=
  {| window := window l; closures := closures l; lastClosure := lastClosure l;
     listeners := listeners l; timers := q;
     viewportCalls := viewportCalls l; scrollCalls := scrollCalls l |}.

Definition listenersOf (type : string) (l : Loop) : list nat :=
  default [] (listeners l !! type).

(** [window.addEventListener(type, h)]: a listener already on the list is
    not added again. *)
Definition addEventListener (type : string) (h : nat) (l : Loop) : Loop :=
  if bool_decide (h ∈ listenersOf type l) then l
  else set_listeners <[type := listenersOf type l ++ [h]]> l.

Definition removeEventListener (type : string) (h : nat) (l : Loop) : Loop :=
  set_listeners <[type := filter (fun h' => h' ≠ h) (listenersOf type l)]> l.

(** The arrow function wrapped by [onViewportChange]. *)
Definition viewportCallback (callback : nat) (l : Loop) : Loop :=
  {| window := window l; closures := closures l; lastClosure := lastClosure l;
     listeners := listeners l; timers := timers l;
     viewportCalls := viewportCalls l ++ [(callback, viewportInfo (window l))];
     scrollCalls := scrollCalls l |}.

(** The arrow function wrapped by [onScroll]. *)
Definition scrollCallback (callback : nat) (l : Loop) : Loop :=
  {| window := window l; closures := closures l; lastClosure := lastClosure l;
     listeners := listeners l; timers := timers l;
     viewportCalls := viewportCalls l;
     scrollCalls := scrollCalls l ++ [(callback, scrollInfo (window l))] |}.

(** Calling the closure [h] (as a listener, or directly). *)
Definition call (h : nat) (l : Loop) : Loop :=
  match closures l !! h with
  | Some (DebouncedViewport d) =>
      let '(d', q, now) := Helpers.executedFunction (Later h) d (timers l) in
      let l' := set_timers q (set_closure h (DebouncedViewport d') l) in
      match now with
      | Some callback => viewportCallback callback l'
      | None => l'
      end
  | Some (ThrottledScroll t) =>
      let '(t', q, now) := Helpers.throttledCall (Release h) t (timers l) in
      let l' := set_timers q (set_closure h (ThrottledScroll t') l) in
      match now with
      | Some callback => scrollCallback callback l'
      | None => l'
      end
  | None => l
  end.

(** The browser fires the event [type]: every listener runs, in
    registration order. *)
Definition fireEvent (type : string) (l : Loop) : Loop :=
  foldl (fun l h => call h l) l (listenersOf type l).

Definition runTask (t : Task) (l : Loop) : Loop :=
  match t with
  | Later h =>
      match closures l !! h with
      | Some (DebouncedViewport d) =>
          let '(d', now) := Helpers.later d in
          let l' := set_closure h (DebouncedViewport d') l in
          match now with
          | Some callback => viewportCallback callback l'
          | None => l'
          end
      | _ => l
      end
  | Release h =>
      match closures l !! h with
      | Some (ThrottledScroll t) =>
          set_closure h (ThrottledScroll (Helpers.release t)) l
      | _ => l
      end
  end.

(** The timer [id] comes due. *)
Definition fireTimer (id : nat) (l : Loop) : Loop :=
  match Helpers.pending (timers l) !! id with
  | Some (_, task) => runTask task (set_timers (Helpers.expire id (timers l)) l)
  | None => l
  end.

(** [onViewportChange(callback, debounceMs)].  The result is the state
    afterwards and the debounced closure; the cleanup function returned by
    the script is [offViewportChange] of that closure. *)
Definition onViewportChange (callback : nat) (debounceMs : Z) (l : Loop)
    : nat * Loop :=
  let '(debouncedCallback, l1) :=
    newClosure (DebouncedViewport (Helpers.debounce callback debounceMs false)) l in
  let l2 := addEventListener "resize" debouncedCallback l1 in
  let l3 := addEventListener "orientationchange" debouncedCallback l2 in
  (* Initial call *)
  let l4 := call debouncedCallback l3 in
  (debouncedCallback, l4).

Definition offViewportChange (debouncedCallback : nat) (l : Loop) : Loop :=
  removeEventListener "orientationchange" debouncedCallback
    (removeEventListener "resize" debouncedCallback l).

(** [onScroll(callback, throttleMs)] and its cleanup function. *)
Definition onScroll (callback : nat) (throttleMs : Z) (l : Loop)
    : nat * Loop :=
  let '(throttledCallback, l1) :=
    newClosure (ThrottledScroll (Helpers.throttle callback throttleMs)) l in
  (throttledCallback, addEventListener "scroll" throttledCallback l1).

Definition offScroll (throttledCallback : nat) (l : Loop) : Loop :=
  removeEventListener "scroll" throttledCallback l.

Definition emptyLoop (w : Window) : Loop :=
  {| window := w; closures := ∅; lastClosure := 0; listeners := ∅;
     timers := Helpers.noTimers; viewportCalls := []; scrollCalls := [] |}.

(** A run of [scroll] events with no timer coming due in between, the
    window being at [ws] in turn. *)
Definition scrollBurst (ws : list Window) (l : Loop) : Loop :=
  foldl (fun l w => fireEvent "scroll" (set_window w l)) l ws.

(** A run of [resize] events with no timer coming due in between, the
    window being at [ws] in turn. *)
Definition resizeBurst (ws : list Window) (l : Loop) : Loop :=
  foldl (fun l w => fireEvent "resize" (set_window w l)) l ws.

(** *** Scroll lock *)

Record Page := {
  win : Window;
  body : Dom.Element;
  scrollToCalls : list (Z * option Z)   (* arguments of [window.scrollTo] *)
}.

Definition set_pageYOffset (v : Z) (w : Window) : Window :=
  {| innerWidth := innerWidth w; innerHeight := innerHeight w;
     clientWidth := clientWidth w; clientHeight := clientHeight w;
     pageXOffset := pageXOffset w; pageYOffset := v;
     docScrollLeft := docScrollLeft w; docScrollTop := docScrollTop w;
     bodyScrollLeft := bodyScrollLeft w; bodyScrollTop := bodyScrollTop w;
     bodyScrollHeight := bodyScrollHeight w |}.

(** [window.scrollTo(0, y)]: the call is recorded and the window moves to
    the requested offset (NaN counts as 0).  Clamping to the scrollable
    range is the layout engine's business and is not modelled. *)
Definition scrollTo (y : option Z) (p : Page) : Page :=
  {| win := set_pageYOffset (default 0 y) (win p);
     body := body p;
     scrollToCalls := scrollToCalls p ++ [(0, y)] |}.

Definition set_body (f : Dom.Element -> Dom.Element) (p : Page) : Page :=
  {| win := win p; body := f (body p); scrollToCalls := scrollToCalls p |}.

Definition lockScroll (p : Page) : Page :=
  let scrollY := y (getScrollPosition (win p)) in
  let p := set_body (Dom.assignStyle "position" (Dom.Text "fixed")) p in
  let p := set_body (Dom.assignStyle "top"
             (Dom.Text ("-" +:+ JsString.toString scrollY +:+ "px"))) p in
  let p := set_body (Dom.assignStyle "width" (Dom.Text "100%")) p in
  set_body (Dom.setAttribute "data-scroll-y" (JsString.toString scrollY)) p.

Definition unlockScroll (p : Page) : Page :=
  let scrollY := Dom.getAttribute "data-scroll-y" (body p) in
  let p := set_body (Dom.assignStyle "position" (Dom.Text "")) p in
  let p := set_body (Dom.assignStyle "top" (Dom.Text "")) p in
  let p := set_body (Dom.assignStyle "width" (Dom.Text "")) p in
  if JsString.truthy scrollY then
    let p := scrollTo (JsString.parseInt10 (default "" scrollY)) p in
    set_body (Dom.removeAttribute "data-scroll-y") p
  else p.

(** A window whose viewport is [w] pixels wide. *)
Definition windowOfWidth (w : Z) : Window :=
  {| innerWidth := w; innerHeight := 900; clientWidth := w;
     clientHeight := 900; pageXOffset := 0; pageYOffset := 0;
     docScrollLeft := 0; docScrollTop := 0; bodyScrollLeft := 0;
     bodyScrollTop := 0; bodyScrollHeight := 4000 |}.



(** [isElementFullyVisible(element)], on the element's bounding rectangle *)
Definition isElementFullyVisible (element : option Helpers.Rect) (w : Window)
    : bool :=
  match element with
  | None => false
  | Some rect =>
      let viewport := getViewportSize w in
      Qle_bool 0 (Helpers.top rect)
      && Qle_bool 0 (Helpers.left rect)
      && Qle_bool (Helpers.bottom rect) (inject_Z (height viewport))
      && Qle_bool (Helpers.right rect) (inject_Z (width viewport))
  end.

(** The five labels from narrowest to widest. *)
Definition rank (b : Breakpoint) : nat :=
  match b with xs => 0 | sm => 1 | md => 2 | lg => 3 | xl => 4 end.

(** The string [getCurrentBreakpoint] returns for a label. *)
Definition labelOf (b : Breakpoint) : string :=
  match b with
  | xl => "xl" | lg => "lg" | md => "md" | sm => "sm" | xs => "xs"
  end.

(** [isBreakpoint(breakpoint)] *)
Definition isBreakpoint (breakpoint : string) (w : Window) : bool :=
  bool_decide (labelOf (getCurrentBreakpoint w) = breakpoint).

(** *** Windows, pages and predicates used in the statements *)

(** Closure numbers are handed out in increasing order, so every listener
    on the table is at most the last closure created. *)
Definition listenersKnown (l : Loop) : Prop :=
  map_Forall (fun _ hs => Forall (fun h => (h <= lastClosure l)%nat) hs)
             (listeners l).

(** A page exactly as tall as its viewport, not scrolled. *)
Definition unscrollablePage : Window :=
  {| innerWidth := 1280; innerHeight := 900; clientWidth := 1280;
     clientHeight := 900; pageXOffset := 0; pageYOffset := 0;
     docScrollLeft := 0; docScrollTop := 0; bodyScrollLeft := 0;
     bodyScrollTop := 0; bodyScrollHeight := 900 |}.

(** A body that was given inline geometry by someone else, never locked. *)
Definition unlockedBody : Dom.Element :=
  {| Dom.tagName := "body"; Dom.parent := None; Dom.classList := ["loaded"];
     Dom.attributes := ∅; Dom.textContent := "";
     Dom.style := {[ "position" := Dom.Text "relative"; "opacity" := Dom.Text "1" ]};
     Dom.offsetTop := 0; Dom.offsetHeight := 4000 |}.

Definition unlockedPage : Page :=
  {| win := set_pageYOffset 350 (windowOfWidth 1280);
     body := unlockedBody; scrollToCalls := [] |}.

End ViewportUtils.

(** ** Navigation: mobile menu, link clicks, smooth scrolling *)

Module Navigation.
Import Dom Eff.

(** [Navigation.config] *)
Definition mobileBreakpoint : Z := 768.
Definition smoothScrollDuration : Z := 800.
Definition smoothScrollOffset : Z := 80.

(** Callbacks given to [setTimeout]. *)
Inductive TimerTask :=
| Focus (link : nat)         (* [() => firstNavLink.focus()] *)
| CloseMobileMenu.           (* [() => this.closeMobileMenu()] *)

(** What the script does to the outside, in order. *)
Inductive Effect :=
| Dispatched (eventName : string)      (* CustomEvent on [document] *)
| ConsoleLog (message : string)
| ConsoleWarn (message : string)
| PreventDefault
| Focused (element : nat)
| ScrollTo (y : Q).

Record State := {
  document : Document;
  window : ViewportUtils.Window;
  (* Navigation.elements *)
  mobileMenuBtn : option nat;
  mainNav : option nat;
  navLinks : list nat;
  header : option nat;
  (* Navigation.state *)
  isMobileMenuOpen : bool;
  currentSection : string;
  (* the browser's queues and the trace of effects *)
  timers : Helpers.Timers Z TimerTask;
  frames : list Helpers.ScrollAnimation;
  trace : list Effect
}.

Definition set_document (f : Document -> Document) (s : State) : State :=
  {| document := f (document s); window := window s;
     mobileMenuBtn := mobileMenuBtn s; mainNav := mainNav s;
     navLinks := navLinks s; header := header s;
     isMobileMenuOpen := isMobileMenuOpen s;
     currentSection := currentSection s; timers := timers s;
     frames := frames s; trace := trace s |}.

Definition set_isMobileMenuOpen (b : bool) (s : State) : State :=
  {| document := document s; window := window s;
     mobileMenuBtn := mobileMenuBtn s; mainNav := mainNav s;
     navLinks := navLinks s; header := header s;
     isMobileMenuOpen := b;
     currentSection := currentSection s; timers := timers s;
     frames := frames s; trace := trace s |}.

Definition set_currentSection (c : string) (s : State) : State :=
  {| document := document s; window := window s;
     mobileMenuBtn := mobileMenuBtn s; mainNav := mainNav s;
     navLinks := navLinks s; header := header s;
     isMobileMenuOpen := isMobileMenuOpen s;
     currentSection := c; timers := timers s;
     frames := frames s; trace := trace s |}.

Definition set_timers (q : Helpers.Timers Z TimerTask) (s : State) : State :=
  {| document := document s; window := window s;
     mobileMenuBtn := mobileMenuBtn s; mainNav := mainNav s;
     navLinks := navLinks s; header := header s;
     isMobileMenuOpen := isMobileMenuOpen s;
     currentSection := currentSection s; timers := q;
     frames := frames s; trace := trace s |}.

Definition set_frames (f : list Helpers.ScrollAnimation) (s : State) : State :=
  {| document := document s; window := window s;
     mobileMenuBtn := mobileMenuBtn s; mainNav := mainNav s;
     navLinks := navLinks s; header := header s;
     isMobileMenuOpen := isMobileMenuOpen s;
     currentSection := currentSection s; timers := timers s;
     frames := f; trace := trace s |}.

Definition emit (e : Effect) (s : State) : State :=
  {| document := document s; window := window s;
     mobileMenuBtn := mobileMenuBtn s; mainNav := mainNav s;
     navLinks := navLinks s; header := header s;
     isMobileMenuOpen := isMobileMenuOpen s;
     currentSection := currentSection s; timers := timers s;
     frames := frames s; trace := trace s ++ [e] |}.

Definition setTimeout (task : TimerTask) (delay : Z) : M State unit :=
  modify (fun s => set_timers (snd (Helpers.setTimeout task delay (timers s))) s).

Definition requestAnimationFrame (a : Helpers.ScrollAnimation) : M State unit :=
  modify (fun s => set_frames (frames s ++ [a]) s).

(** [document.querySelector], on selector text assembled by splicing:
    [None] is text the engine rejects (or text outside the model, see
    [cssString]). *)
Definition querySelectorText (sel : option Selector) : M State (option nat) :=
  match sel with
  | Some sel => let* s := get in ret (querySelector (document s) [sel])
  | None => throw (SyntaxError "not a valid selector")
  end.

(** [document.getElementById(id) || document.querySelector(`[data-section="${id}"]`)] *)
Definition findSection (id : string) : M State (option nat) :=
  let* s := get in
  match getElementById (document s) id with
  | Some e => ret (Some e)
  | None => querySelectorText (attrEqQuoted "data-section" id)
  end.

Definition cacheElements (s : State) : State :=
  {| document := document s; window := window s;
     mobileMenuBtn := getElementById (document s) "mobileMenuBtn";
     mainNav := getElementById (document s) "mainNav";
     navLinks := querySelectorAll (document s)
                   [Desc (Sel [Tag "nav"]) [Tag "a"; AttrPrefix "href" "#"]];
     header := querySelector (document s) [Sel [Tag "header"]];
     isMobileMenuOpen := isMobileMenuOpen s;
     currentSection := currentSection s; timers := timers s;
     frames := frames s; trace := trace s |}.

Definition openMobileMenu : M State unit :=
  do* modify (set_isMobileMenuOpen true) in
  let* s := get in
  do* modify (set_document (Helpers.addClass (mainNav s) "active")) in
  do* modify (set_document (Helpers.addClass (mobileMenuBtn s) "active")) in
  (* Update button text *)
  let* btn := deref "mobileMenuBtn" (mobileMenuBtn s) in
  do* modify (set_document (update btn (set_textContent "✕"))) in
  do* modify (set_document (update btn (setAttribute "aria-expanded" "true"))) in
  (* Focus management *)
  let* nav := deref "mainNav" (mainNav s) in
  let* s' := get in
  do* match querySelectorIn (document s') nav [Sel [Tag "a"]] with
      | Some firstNavLink => setTimeout (Focus firstNavLink) 100
      | None => ret tt
      end in
  (* Dispatch event *)
  do* modify (emit (Dispatched "mobileMenuOpened")) in
  modify (emit (ConsoleLog "Mobile menu opened")).

Definition closeMobileMenu : M State unit :=
  do* modify (set_isMobileMenuOpen false) in
  let* s := get in
  do* modify (set_document (Helpers.removeClass (mainNav s) "active")) in
  do* modify (set_document (Helpers.removeClass (mobileMenuBtn s) "active")) in
  (* Update button text *)
  let* btn := deref "mobileMenuBtn" (mobileMenuBtn s) in
  do* modify (set_document (update btn (set_textContent "☰"))) in
  do* modify (set_document (update btn (setAttribute "aria-expanded" "false"))) in
  (* Dispatch event *)
  do* modify (emit (Dispatched "mobileMenuClosed")) in
  modify (emit (ConsoleLog "Mobile menu closed")).

Definition toggleMobileMenu : M State unit :=
  let* s := get in
  if isMobileMenuOpen s then closeMobileMenu else openMobileMenu.

(** [this.elements.header ? this.elements.header.offsetHeight : 0] *)
Definition headerHeight (s : State) : Z :=
  match header s with
  | Some h => default 0 (offsetHeight <$> document s !! h)
  | None => 0
  end.

(** [scrollToElement(target)] *)
Definition scrollToElement (target : option nat) : M State unit :=
  match target with
  | None => ret tt
  | Some t =>
      let* s := get in
      let offset := headerHeight s + smoothScrollOffset in
      match Helpers.smoothScrollTo (ViewportUtils.pageYOffset (window s))
              (document s !! t) offset smoothScrollDuration with
      | Some a => requestAnimationFrame a
      | None => ret tt
      end
  end.

(** Scan of [getCurrentSection], over the sections still to try, last
    first. *)
Fixpoint scanSections (sections : list string) (scrollPos : Z)
    : M State (option string) :=
  match sections with
  | [] => ret None
  | name :: rest =>
      let* section := findSection name in
      let* s := get in
      match section ≫= (fun i => document s !! i) with
      | Some e =>
          if offsetTop e <=? scrollPos then ret (Some name)
          else scanSections rest scrollPos
      | None => scanSections rest scrollPos
      end
  end.

Definition getCurrentSection : M State string :=
  let sections := ["home"; "about"; "services"; "testimonials"; "contact"]%string in
  let* s := get in
  let scrollPos := ViewportUtils.pageYOffset (window s) + 100 in
  let* found := scanSections (reverse sections) scrollPos in
  ret (default "home"%string found).

(** [updateActiveNavItem(sectionId)]; [None] is the default [null], and
    the empty string is falsy too. *)
Definition updateActiveNavItem (sectionId : option string) : M State unit :=
  let* sectionId :=
    (if JsString.truthy sectionId then ret (default ""%string sectionId)
     else getCurrentSection) in
  do* modify (set_currentSection sectionId) in
  let* s := get in
  (* Remove active class from all links *)
  do* forEach (navLinks s) (fun link =>
        do* modify (set_document (Helpers.removeClass (Some link) "active")) in
        modify (set_document (update link (setAttribute "aria-current" "false")))) in
  (* Add active class to current link *)
  let* activeLink :=
    querySelectorText
      ((fun value => Desc (Sel [Tag "nav"]) [Tag "a"; AttrEq "href" value])
         <$> cssString ("#" +:+ sectionId)) in
  match activeLink with
  | Some a =>
      do* modify (set_document (Helpers.addClass (Some a) "active")) in
      modify (set_document (update a (setAttribute "aria-current" "page")))
  | None => ret tt
  end.

Definition handleGetStarted : M State unit :=
  let* s := get in
  let contactSection :=
    match getElementById (document s) "contact" with
    | Some e => Some e
    | None =>
        match querySelector (document s) [Sel [AttrEq "data-section" "contact"]] with
        | Some e => Some e
        | None => querySelector (document s) [Sel [Class "hero-section"]]
        end
    end in
  do* scrollToElement contactSection in
  (* Dispatch custom event for tracking *)
  modify (emit (Dispatched "getStartedClicked")).

(** [handleNavClick(e, link)] *)
Definition handleNavClick (link : nat) : M State unit :=
  do* modify (emit PreventDefault) in
  let* s := get in
  let* href := deref "href" (document s !! link ≫= getAttribute "href") in
  let targetId := JsString.substring1 href in
  (* Handle special cases *)
  if bool_decide (targetId = "get-started"%string) then handleGetStarted
  else
    (* Find target element *)
    let* targetElement := findSection targetId in
    match targetElement with
    | Some _ =>
        do* scrollToElement targetElement in
        do* updateActiveNavItem (Some targetId) in
        let* s := get in
        if ViewportUtils.isMobile (window s) && isMobileMenuOpen s
        then setTimeout CloseMobileMenu 300
        else ret tt
    | None =>
        modify (emit (ConsoleWarn ("Target element not found: " +:+ targetId)))
    end.

(** The browser runs the oldest requested animation frame at time
    [currentTime]; [globals] are the properties of the global object. *)
Definition runFrame (globals : gmap string Helpers.GlobalValue)
    (currentTime : Z) : M State unit :=
  let* s := get in
  match frames s with
  | [] => ret tt
  | a :: rest =>
      do* modify (set_frames rest) in
      let o := Helpers.animation globals a currentTime in
      match Helpers.raised o with
      | Some e => throw e
      | None =>
          do* match Helpers.scrolledTo o with
              | Some run => modify (emit (ScrollTo run))
              | None => ret tt
              end in
          if Helpers.again o then requestAnimationFrame (Helpers.closure o)
          else ret tt
      end
  end.

(** A timer comes due. *)
Definition runTimer (id : nat) : M State unit :=
  let* s := get in
  match Helpers.pending (timers s) !! id with
  | Some (_, task) =>
      do* modify (set_timers (Helpers.expire id (timers s))) in
      match task with
      | Focus link => modify (emit (Focused link))
      | CloseMobileMenu => closeMobileMenu
      end
  | None => ret tt
  end.

(** Does the trace contain a scroll, a warning? *)
Definition isScroll (e : Effect) : bool :=
  match e with ScrollTo _ => true | _ => false end.
Definition isWarning (e : Effect) : bool :=
  match e with ConsoleWarn _ => true | _ => false end.

(** *** Predicates and intermediate states used in the statements *)

(** The tween as the specification words it: from the current offset to
    the target's top less (header height plus 80), over 800ms. *)
Definition tweenTo (s : State) (e : Element) : Helpers.ScrollAnimation :=
  {| Helpers.startPosition := ViewportUtils.pageYOffset (window s);
     Helpers.distance :=
       offsetTop e - (headerHeight s + 80) - ViewportUtils.pageYOffset (window s);
     Helpers.duration := 800;
     Helpers.startTime := None |}.


(** The document [openMobileMenu] leaves, button [b] and nav [n]. *)
Definition openedDocument (b n : nat) (d : Document) : Document :=
  update b (setAttribute "aria-expanded" "true")
    (update b (set_textContent "✕")
       (Helpers.addClass (Some b) "active"
          (Helpers.addClass (Some n) "active" d))).

(** The document [closeMobileMenu] leaves. *)
Definition closedDocument (b n : nat) (d : Document) : Document :=
  update b (setAttribute "aria-expanded" "false")
    (update b (set_textContent "☰")
       (Helpers.removeClass (Some b) "active"
          (Helpers.removeClass (Some n) "active" d))).

(** *** Handlers of the listeners that [bindEvents] registers *)

(** [updateNavigationLayout()]; [console.log] joins its two arguments with
    a space. *)
Definition updateNavigationLayout : M State unit :=
  let* s := get in
  modify (emit (ConsoleLog
    ("Navigation layout updated for viewport: "
     +:+ ViewportUtils.labelOf (ViewportUtils.getCurrentBreakpoint (window s))))).

Definition handleResize : M State unit :=
  let* s := get in
  (* Close mobile menu on desktop *)
  do* (if negb (ViewportUtils.isMobile (window s)) && isMobileMenuOpen s
       then closeMobileMenu else ret tt) in
  (* Update navigation layout if needed *)
  updateNavigationLayout.

Definition handleScroll : M State unit :=
  do* updateActiveNavItem None in
  (* Add/remove header background based on scroll position *)
  let* s := get in
  match header s with
  | Some h =>
      let scrolled := 50 <? ViewportUtils.pageYOffset (window s) in
      if scrolled
      then modify (set_document (Helpers.addClass (Some h) "scrolled"))
      else modify (set_document (Helpers.removeClass (Some h) "scrolled"))
  | None => ret tt
  end.

Definition handleInitialState : M State unit :=
  (* Set initial active state *)
  do* updateActiveNavItem None in
  (* Ensure mobile menu is closed on desktop *)
  let* s := get in
  if negb (ViewportUtils.isMobile (window s)) then closeMobileMenu
  else ret tt.

(** The [keydown] listener on [document]. *)
Definition onKeydown (key : string) : M State unit :=
  let* s := get in
  if bool_decide (key = "Escape"%string) && isMobileMenuOpen s
  then closeMobileMenu else ret tt.

(** [node.contains(other)]: [other] is [node] or one of its descendants. *)
Definition nodeContains (d : Document) (node other : nat) : bool :=
  bool_decide (node = other) || bool_decide (node ∈ ancestors d other).

(** The [click] listener on [document], for a click on [target]. *)
Definition onDocumentClick (target : nat) : M State unit :=
  let* s := get in
  if isMobileMenuOpen s then
    let* nav := deref "mainNav" (mainNav s) in
    if nodeContains (document s) nav target then ret tt
    else
      let* btn := deref "mobileMenuBtn" (mobileMenuBtn s) in
      if nodeContains (document s) btn target then ret tt
      else closeMobileMenu
  else ret tt.

(** [init()].  [bindEvents()] attaches [toggleMobileMenu], [handleNavClick]
    and the handlers above as listeners and runs none of them. *)
Definition init : M State unit :=
  do* modify cacheElements in
  do* handleInitialState in
  modify (emit (ConsoleLog "Navigation initialized")).

(** *** Notions used in the statements *)

(** What [findSection] looks up. *)
Definition sectionOf (d : Document) (id : string) : option nat :=
  match getElementById d id with
  | Some e => Some e
  | None => querySelector d [Sel [AttrEq "data-section" id]]
  end.

(** The section [name] exists and starts at or above [scrollPos]. *)
Definition reached (d : Document) (scrollPos : Z) (name : string) : Prop :=
  exists i e, sectionOf d name = Some i /\ d !! i = Some e /\
              offsetTop e <= scrollPos.

(** The five section names of [getCurrentSection]. *)
Definition sectionNames : list string :=
  ["home"; "about"; "services"; "testimonials"; "contact"]%string.

(** What the loop of [updateActiveNavItem] does to one link. *)
Definition deactivate (d : Document) (link : nat) : Document :=
  update link (setAttribute "aria-current" "false")
    (Helpers.removeClass (Some link) "active" d).

(** The link [updateActiveNavItem] marks for section [id]. *)
Definition activeLinkOf (d : Document) (id : string) : option nat :=
  querySelector d [Desc (Sel [Tag "nav"]) [Tag "a"; AttrEq "href" ("#" +:+ id)]].

(** What the selector [nav a[href="#..."]] reads of an element. *)
Definition linkShape (e : Element) : string * option nat * option string :=
  (tagName e, parent e, attributes e !! "href"%string).

(** The state [updateActiveNavItem] leaves once the section is [id]. *)
Definition markSection (id : string) (s : State) : State :=
  let s := set_currentSection id s in
  let s := set_document (fun d => foldl deactivate d (navLinks s)) s in
  match activeLinkOf (document s) id with
  | Some a =>
      set_document
        (fun d => update a (setAttribute "aria-current" "page")
                    (Helpers.addClass (Some a) "active" d)) s
  | None => s
  end.

(** *** The events the module listens to *)

Inductive Event :=
| ButtonClick                      (* [click] on [#mobileMenuBtn] *)
| LinkClick (link : nat)           (* [click] on a navigation link *)
| Resized                          (* the debounced [resize] handler runs *)
| Scrolled                         (* the throttled [scroll] handler runs *)
| Keydown (key : string)
| DocumentClick (target : nat)     (* the [click] listener on [document] *)
| TimerDue (id : nat)
| FrameDue (currentTime : Z).

Definition handle (e : Event) : M State unit :=
  match e with
  | ButtonClick => do* modify (emit PreventDefault) in toggleMobileMenu
  | LinkClick link => handleNavClick link
  | Resized => handleResize
  | Scrolled => handleScroll
  | Keydown key => onKeydown key
  | DocumentClick target => onDocumentClick target
  | TimerDue id => runTimer id
  | FrameDue currentTime => runFrame Helpers.scriptGlobals currentTime
  end.

(** An exception ends the handler that raised it; the page goes on from
    the state that handler left. *)
Definition dispatch (s : State) (e : Event) : State := snd (handle e s).

Definition dispatchAll (events : list Event) (s : State) : State :=
  foldl dispatch s events.

(** The flag and the page agree about the menu: button [b] and nav [n]
    are distinct elements, neither a navigation link nor an [a] element,
    and both carry [active], and the button [aria-expanded="true"], exactly
    when the flag is on. *)
Definition menuConsistent (b n : nat) (s : State) : Prop :=
  mobileMenuBtn s = Some b /\ mainNav s = Some n /\ b ≠ n /\
  (b ∉ navLinks s) /\ (n ∉ navLinks s) /\
  exists be ne,
    document s !! b = Some be /\ document s !! n = Some ne /\
    tagName be ≠ "a"%string /\ tagName ne ≠ "a"%string /\
    contains "active" be = isMobileMenuOpen s /\
    contains "active" ne = isMobileMenuOpen s /\
    attributes be !! "aria-expanded"%string
    = Some (if isMobileMenuOpen s then "true" else "false")%string.

(** A computation that leaves the menu consistent, however it ends. *)
Definition keepsMenu {A} (b n : nat) (m : M State A) : Prop :=
  forall s, menuConsistent b n s -> menuConsistent b n (snd (m s)).

(** The [href] of every element, in document order. *)
Definition hrefs (d : Document) : list (option string) :=
  getAttribute "href" <$> d.

(** Every [href] on the page, less its first character, is [quotable]:
    the selectors that [handleNavClick] and [updateActiveNavItem] assemble
    from it are the attribute selectors they are meant to be. *)
Definition plainHrefs (d : Document) : bool :=
  forallb (fun href => match href with
                       | Some href => quotable (JsString.substring1 href)
                       | None => true
                       end)
          (hrefs d).

(** A computation that changes no [href], however it ends. *)
Definition keepsHrefs {A} (m : M State A) : Prop :=
  forall s, hrefs (document (snd (m s))) = hrefs (document s).

End Navigation.

(** ** Animations: entrance animations triggered on intersection *)

Module Animations.
Import Dom.

(** [Animations.config] *)
Definition animationDuration : Q := 600.
Definition animationEasing : string := "cubic-bezier(0.4, 0, 0.2, 1)".
Definition staggerDelay : Q := 100.

(** [all ${animationDuration * factor}ms ${animationEasing}] *)
Definition transitionAll (factor : Q) : StyleValue :=
  TransitionAll (Qred (animationDuration * factor)) animationEasing.

(** Callbacks given to [setTimeout]. *)
Inductive Task :=
| Reveal (element : nat) (transition : StyleValue) (transform : string)
| RevealLaptop (element : nat)
| ScreenContent (laptopFrame : nat).

Inductive HoverKind := LogoHover | NavLinkHover | CTAHover | LaptopHover.

Record State := {
  document : Document;
  (* [window.matchMedia('(prefers-reduced-motion: reduce)').matches] *)
  mediaReduce : bool;
  (* Animations.state *)
  observers : list (gset nat);       (* targets each observer watches *)
  animatedElements : gset nat;
  isInitialized : bool;
  prefersReducedMotion : bool;
  (* listeners, timers, console *)
  hoverListeners : list (nat * HoverKind);
  eventsBound : bool;
  timers : Helpers.Timers Q Task;
  console : list string
}.

Definition set_document (f : Document -> Document) (s : State) : State :=
  {| document := f (document s); mediaReduce := mediaReduce s;
     observers := observers s; animatedElements := animatedElements s;
     isInitialized := isInitialized s;
     prefersReducedMotion := prefersReducedMotion s;
     hoverListeners := hoverListeners s; eventsBound := eventsBound s;
     timers := timers s; console := console s |}.

Definition set_mediaReduce (b : bool) (s : State) : State :=
  {| document := document s; mediaReduce := b;
     observers := observers s; animatedElements := animatedElements s;
     isInitialized := isInitialized s;
     prefersReducedMotion := prefersReducedMotion s;
     hoverListeners := hoverListeners s; eventsBound := eventsBound s;
     timers := timers s; console := console s |}.

Definition set_observers (f : list (gset nat) -> list (gset nat))
    (s : State) : State :=
  {| document := document s; mediaReduce := mediaReduce s;
     observers := f (observers s); animatedElements := animatedElements s;
     isInitialized := isInitialized s;
     prefersReducedMotion := prefersReducedMotion s;
     hoverListeners := hoverListeners s; eventsBound := eventsBound s;
     timers := timers s; console := console s |}.

Definition set_animatedElements (a : gset nat) (s : State) : State :=
  {| document := document s; mediaReduce := mediaReduce s;
     observers := observers s; animatedElements := a;
     isInitialized := isInitialized s;
     prefersReducedMotion := prefersReducedMotion s;
     hoverListeners := hoverListeners s; eventsBound := eventsBound s;
     timers := timers s; console := console s |}.

Definition set_isInitialized (b : bool) (s : State) : State :=
  {| document := document s; mediaReduce := mediaReduce s;
     observers := observers s; animatedElements := animatedElements s;
     isInitialized := b;
     prefersReducedMotion := prefersReducedMotion s;
     hoverListeners := hoverListeners s; eventsBound := eventsBound s;
     timers := timers s; console := console s |}.

Definition set_prefersReducedMotion (b : bool) (s : State) : State :=
  {| document := document s; mediaReduce := mediaReduce s;
     observers := observers s; animatedElements := animatedElements s;
     isInitialized := isInitialized s;
     prefersReducedMotion := b;
     hoverListeners := hoverListeners s; eventsBound := eventsBound s;
     timers := timers s; console := console s |}.

Definition set_hoverListeners (h : list (nat * HoverKind)) (s : State) : State :=
  {| document := document s; mediaReduce := mediaReduce s;
     observers := observers s; animatedElements := animatedElements s;
     isInitialized := isInitialized s;
     prefersReducedMotion := prefersReducedMotion s;
     hoverListeners := h; eventsBound := eventsBound s;
     timers := timers s; console := console s |}.

Definition set_eventsBound (b : bool) (s : State) : State :=
  {| document := document s; mediaReduce := mediaReduce s;
     observers := observers s; animatedElements := animatedElements s;
     isInitialized := isInitialized s;
     prefersReducedMotion := prefersReducedMotion s;
     hoverListeners := hoverListeners s; eventsBound := b;
     timers := timers s; console := console s |}.

Definition set_timers (q : Helpers.Timers Q Task) (s : State) : State :=
  {| document := document s; mediaReduce := mediaReduce s;
     observers := observers s; animatedElements := animatedElements s;
     isInitialized := isInitialized s;
     prefersReducedMotion := prefersReducedMotion s;
     hoverListeners := hoverListeners s; eventsBound := eventsBound s;
     timers := q; console := console s |}.

Definition log (line : string) (s : State) : State :=
  {| document := document s; mediaReduce := mediaReduce s;
     observers := observers s; animatedElements := animatedElements s;
     isInitialized := isInitialized s;
     prefersReducedMotion := prefersReducedMotion s;
     hoverListeners := hoverListeners s; eventsBound := eventsBound s;
     timers := timers s; console := console s ++ [line] |}.

(** [element.style.prop = value] *)
Definition setStyle (element : nat) (prop : string) (v : StyleValue)
    (s : State) : State :=
  set_document (update element (assignStyle prop v)) s.

Definition setTimeout (task : Task) (delay : Q) (s : State) : State :=
  set_timers (snd (Helpers.setTimeout task delay (timers s))) s.

(** [list.forEach((element, index) => ...)] *)
Fixpoint forEachFrom (f : nat -> nat -> State -> State) (index : nat)
    (l : list nat) (s : State) : State :=
  match l with
  | [] => s
  | element :: rest => forEachFrom f (S index) rest (f element index s)
  end.

Definition forEach (f : nat -> nat -> State -> State) (l : list nat)
    (s : State) : State :=
  forEachFrom f 0 l s.

Definition body (d : Document) : option nat :=
  querySelector d [Sel [Tag "body"]].

Definition checkMotionPreferences (s : State) : State :=
  let s := set_prefersReducedMotion (mediaReduce s) s in
  if prefersReducedMotion s then
    let s := set_document
               (Helpers.addClass (body (document s)) "reduce-motion") s in
    log "Reduced motion preference detected" s
  else s.

(** The selector list of [setupScrollAnimations]. *)
Definition scrollSelectors : list Selector :=
  [ Desc (Sel [Class "hero-content"]) [Tag "h1"];
    Desc (Sel [Class "hero-content"]) [Tag "p"];
    Sel [Class "cta-button"];
    Sel [Class "laptop-frame"];
    Sel [Class "scroll-animate"] ].

Definition setupScrollAnimations (s : State) : State :=
  if prefersReducedMotion s then s
  else
    let animateOnScroll := querySelectorAll (document s) scrollSelectors in
    let observer : gset nat :=
      list_to_set
        (filter (fun element => element ∉ animatedElements s) animateOnScroll) in
    set_observers (fun os => os ++ [observer]) s.

(** The four ways an element is brought in: made transparent and shifted
    now, revealed by a timer. *)
Definition animateHeroHeading (element : nat) (s : State) : State :=
  let s := setStyle element "opacity" (Text "0") s in
  let s := setStyle element "transform" (Text "translateY(30px)") s in
  setTimeout (Reveal element (transitionAll 1) "translateY(0)") 50 s.

Definition animateLaptopFrame (element : nat) (s : State) : State :=
  let s := setStyle element "opacity" (Text "0") s in
  let s := setStyle element "transform" (Text "translateX(50px) scale(0.9)") s in
  setTimeout (RevealLaptop element) 100 s.

Definition animateCTAButton (element : nat) (s : State) : State :=
  let s := setStyle element "opacity" (Text "0") s in
  let s := setStyle element "transform" (Text "translateY(20px)") s in
  setTimeout (Reveal element (transitionAll 1) "translateY(0)") 200 s.

Definition animateGeneric (element : nat) (s : State) : State :=
  let s := setStyle element "opacity" (Text "0") s in
  let s := setStyle element "transform" (Text "translateY(30px)") s in
  setTimeout (Reveal element (transitionAll 1) "translateY(0)") 50 s.

Definition animateScreenContent (laptopFrame : nat) (s : State) : State :=
  let screenElements :=
    querySelectorAllIn (document s) laptopFrame
      [Child (Sel [Class "screen-content"]) [Universal]] in
  forEach (fun element index s =>
             let s := setStyle element "opacity" (Text "0") s in
             let s := setStyle element "transform" (Text "translateY(20px)") s in
             setTimeout (Reveal element (transitionAll (8 # 10)) "translateY(0)")
                        (inject_Z (Z.of_nat index) * staggerDelay) s)
          screenElements s.

(** [animateElement(element)] *)
Definition animateElement (element : nat) (s : State) : State :=
  if bool_decide (element ∈ animatedElements s) || prefersReducedMotion s
  then s
  else
    let s := set_animatedElements ({[element]} ∪ animatedElements s) s in
    (* Add animation class *)
    let s := set_document (Helpers.addClass (Some element) "animate-in") s in
    (* Trigger custom animation based on element type *)
    if matches (document s) (Desc (Sel [Class "hero-content"]) [Tag "h1"]) element
    then animateHeroHeading element s
    else if matches (document s) (Sel [Class "laptop-frame"]) element
    then animateLaptopFrame element s
    else if matches (document s) (Sel [Class "cta-button"]) element
    then animateCTAButton element s
    else animateGeneric element s.

(** The callback of the intersection observer number [o], handed
    [entries] (target, isIntersecting). *)
Definition intersect (o : nat) (entries : list (nat * bool)) (s : State)
    : State :=
  foldl (fun (s : State) (entry : nat * bool) =>
           if snd entry then
             let s := animateElement (fst entry) s in
             set_observers
               (alter (fun targets : gset nat => targets ∖ {[fst entry]}) o) s
           else s)
        s entries.

Definition hoverTargets (kind : HoverKind) (l : list nat)
    : list (nat * HoverKind) :=
  map (fun e => (e, kind)) l.

Definition setupHoverEffects (s : State) : State :=
  if prefersReducedMotion s then s
  else
    let d := document s in
    set_hoverListeners
      (hoverListeners s
       ++ hoverTargets LogoHover (option_list (querySelector d [Sel [Class "logo"]]))
       ++ hoverTargets NavLinkHover (querySelectorAll d [Desc (Sel [Tag "nav"]) [Tag "a"]])
       ++ hoverTargets CTAHover (option_list (querySelector d [Sel [Class "cta-button"]]))
       ++ hoverTargets LaptopHover (option_list (querySelector d [Sel [Class "laptop-frame"]])))
      s.

(** The selector list of [setupLoadAnimations]. *)
Definition loadSelectors : list Selector :=
  [ Sel [Class "logo"];
    Desc (Desc (Sel [Tag "nav"]) [Tag "ul"]) [Tag "li"] ].

Definition setupLoadAnimations (s : State) : State :=
  let immediateElements := querySelectorAll (document s) loadSelectors in
  forEach (fun element index s =>
             if prefersReducedMotion s then
               setStyle element "opacity" (Text "1") s
             else
               let s := setStyle element "opacity" (Text "0") s in
               let s := setStyle element "transform" (Text "translateY(-10px)") s in
               setTimeout (Reveal element (transitionAll (8 # 10)) "translateY(0)")
                          (inject_Z (Z.of_nat index * 50)) s)
          immediateElements s.

Definition bindEvents (s : State) : State := set_eventsBound true s.

Definition animateMobileMenuItems (s : State) : State :=
  if prefersReducedMotion s then s
  else
    let menuItems :=
      querySelectorAll (document s)
        [Desc (Desc (Sel [Id "mainNav"; Class "active"]) [Tag "ul"]) [Tag "li"]] in
    forEach (fun item index s =>
               let s := setStyle item "opacity" (Text "0") s in
               let s := setStyle item "transform" (Text "translateX(-20px)") s in
               setTimeout (Reveal item (Text "all 300ms ease") "translateX(0)")
                          (inject_Z (Z.of_nat index * 50)) s)
            menuItems s.

Definition init (s : State) : State :=
  if isInitialized s then s
  else
    let s := checkMotionPreferences s in
    let s := setupScrollAnimations s in
    let s := setupHoverEffects s in
    let s := setupLoadAnimations s in
    let s := bindEvents s in
    let s := set_isInitialized true s in
    log "Animations initialized" s.

Definition destroy (s : State) : State :=
  let s := set_observers (fun _ => []) s in
  let s := set_animatedElements ∅ s in
  let s := set_isInitialized false s in
  log "Animations destroyed" s.

(** The media query changes to [matches]; the listener of [bindEvents],
    if bound, copies it and re-checks. *)
Definition mediaChange (matches : bool) (s : State) : State :=
  let s := set_mediaReduce matches s in
  if eventsBound s then
    checkMotionPreferences (set_prefersReducedMotion matches s)
  else s.

Definition runTask (t : Task) (s : State) : State :=
  match t with
  | Reveal element transition transform =>
      let s := setStyle element "transition" transition s in
      let s := setStyle element "opacity" (Text "1") s in
      setStyle element "transform" (Text transform) s
  | RevealLaptop element =>
      let s := setStyle element "transition" (transitionAll (12 # 10)) s in
      let s := setStyle element "opacity" (Text "1") s in
      let s := setStyle element "transform" (Text "translateX(0) scale(1)") s in
      (* Animate screen content after laptop appears *)
      setTimeout (ScreenContent element) (Qred (animationDuration * (6 # 10))) s
  | ScreenContent laptopFrame => animateScreenContent laptopFrame s
  end.

(** The timer [id] comes due. *)
Definition fireTimer (id : nat) (s : State) : State :=
  match Helpers.pending (timers s) !! id with
  | Some (_, task) => runTask task (set_timers (Helpers.expire id (timers s)) s)
  | None => s
  end.

(** The ways into the entrance-animation code. *)
Inductive EntryPoint :=
| SetupScrollAnimations
| AnimateElement (element : nat)
| Intersect (observer : nat) (entries : list (nat * bool))
| SetupLoadAnimations
| AnimateMobileMenuItems.

Definition enter (p : EntryPoint) (s : State) : State :=
  match p with
  | SetupScrollAnimations => setupScrollAnimations s
  | AnimateElement element => animateElement element s
  | Intersect o entries => intersect o entries s
  | SetupLoadAnimations => setupLoadAnimations s
  | AnimateMobileMenuItems => animateMobileMenuItems s
  end.

(** Everything that can happen to the module, teardown included. *)
Inductive Action :=
| Enter (p : EntryPoint)
| Init
| MediaChange (matches : bool)
| FireTimer (id : nat)
| Destroy.

Definition step (a : Action) (s : State) : State :=
  match a with
  | Enter p => enter p s
  | Init => init s
  | MediaChange m => mediaChange m s
  | FireTimer id => fireTimer id s
  | Destroy => destroy s
  end.

Definition run (actions : list Action) (s : State) : State :=
  foldl (fun s a => step a s) s actions.

Definition isDestroy (a : Action) : bool :=
  match a with Destroy => true | _ => false end.

(** Actions under which the system setting stays [reduce]. *)
Definition keepsReduced (a : Action) : bool :=
  match a with MediaChange false => false | _ => true end.

(** The inline declaration [prop] of element [i], if any. *)
Definition styleOf (s : State) (i : nat) (prop : string) : option StyleValue :=
  document s !! i ≫= (fun e => style e !! prop).

(** *** Relations used in the statements *)

(** [calm s s']: going from [s] to [s'] set no timer, changed no inline
    declaration other than [opacity], and changed [opacity] only by
    setting it to 1. *)
Definition calm (s s' : State) : Prop :=
  timers s' = timers s /\
  (forall i prop, prop ≠ "opacity"%string ->
     styleOf s' i prop = styleOf s i prop) /\
  (forall i, styleOf s' i "opacity" = styleOf s i "opacity" \/
             styleOf s' i "opacity" = Some (Text "1")).

(** Under the flag, the loop of [setupLoadAnimations] is the plain loop
    that shows each element. *)
Definition showAll (l : list nat) (s : State) : State :=
  foldl (fun s element => setStyle element "opacity" (Text "1") s) s l.

(** [d'] is [d] with inline styles changed and classes added, and nothing
    else: the same elements with the same tag, parent, attributes and
    text, and at least the classes they had. *)
Definition restyled (d d' : Document) : Prop :=
  length d' = length d /\
  forall i e, d !! i = Some e ->
    exists e', d' !! i = Some e' /\
      tagName e' = tagName e /\ parent e' = parent e /\
      attributes e' = attributes e /\ textContent e' = textContent e /\
      classList e ⊆ classList e'.

End Animations.

(** ** LaptopEnhancer: sizing of the laptop mockup *)

Module LaptopEnhancer.
Import Dom.

(** The closure returned by the class's own [debounce(func, wait)]; the
    only [func] the class passes is [() => this.adjustSizeForViewport()]. *)
Record Debounced := {
  wait : Z;
  timeout : option nat
}.

(** Callbacks given to [setTimeout]: the [later] of a debounced closure. *)
Inductive Task := Later (closure : nat).

Record State := {
  document : Document;
  innerWidth : Z;
  laptopContainer : option nat;
  laptopImage : option nat;
  laptopFrame : option nat;
  laptopShowcase : option nat;
  isInitialized : bool;
  resizeListeners : nat;          (* handlers this class put on [resize] *)
  closures : list Debounced;      (* closures [debounce] has created *)
  timers : Helpers.Timers Z Task;
  console : list string
}.

Definition set_document (f : Document -> Document) (s : State) : State :=
  {| document := f (document s); innerWidth := innerWidth s;
     laptopContainer := laptopContainer s; laptopImage := laptopImage s;
     laptopFrame := laptopFrame s; laptopShowcase := laptopShowcase s;
     isInitialized := isInitialized s; resizeListeners := resizeListeners s;
     closures := closures s; timers := timers s; console := console s |}.

Definition set_innerWidth (w : Z) (s : State) : State :=
  {| document := document s; innerWidth := w;
     laptopContainer := laptopContainer s; laptopImage := laptopImage s;
     laptopFrame := laptopFrame s; laptopShowcase := laptopShowcase s;
     isInitialized := isInitialized s; resizeListeners := resizeListeners s;
     closures := closures s; timers := timers s; console := console s |}.

Definition set_isInitialized (b : bool) (s : State) : State :=
  {| document := document s; innerWidth := innerWidth s;
     laptopContainer := laptopContainer s; laptopImage := laptopImage s;
     laptopFrame := laptopFrame s; laptopShowcase := laptopShowcase s;
     isInitialized := b; resizeListeners := resizeListeners s;
     closures := closures s; timers := timers s; console := console s |}.

Definition set_resizeListeners (n : nat) (s : State) : State :=
  {| document := document s; innerWidth := innerWidth s;
     laptopContainer := laptopContainer s; laptopImage := laptopImage s;
     laptopFrame := laptopFrame s; laptopShowcase := laptopShowcase s;
     isInitialized := isInitialized s; resizeListeners := n;
     closures := closures s; timers := timers s; console := console s |}.

Definition set_closures (c : list Debounced) (s : State) : State :=
  {| document := document s; innerWidth := innerWidth s;
     laptopContainer := laptopContainer s; laptopImage := laptopImage s;
     laptopFrame := laptopFrame s; laptopShowcase := laptopShowcase s;
     isInitialized := isInitialized s; resizeListeners := resizeListeners s;
     closures := c; timers := timers s; console := console s |}.

Definition set_timers (q : Helpers.Timers Z Task) (s : State) : State :=
  {| document := document s; innerWidth := innerWidth s;
     laptopContainer := laptopContainer s; laptopImage := laptopImage s;
     laptopFrame := laptopFrame s; laptopShowcase := laptopShowcase s;
     isInitialized := isInitialized s; resizeListeners := resizeListeners s;
     closures := closures s; timers := q; console := console s |}.

Definition log (line : string) (s : State) : State :=
  {| document := document s; innerWidth := innerWidth s;
     laptopContainer := laptopContainer s; laptopImage := laptopImage s;
     laptopFrame := laptopFrame s; laptopShowcase := laptopShowcase s;
     isInitialized := isInitialized s; resizeListeners := resizeListeners s;
     closures := closures s; timers := timers s;
     console := console s ++ [line] |}.

Definition findElements (s : State) : State :=
  {| document := document s; innerWidth := innerWidth s;
     laptopContainer := querySelector (document s) [Sel [Class "laptop-container"]];
     laptopImage := querySelector (document s) [Sel [Class "laptop-image"]];
     laptopFrame := querySelector (document s) [Sel [Class "laptop-frame"]];
     laptopShowcase := querySelector (document s) [Sel [Class "laptop-showcase"]];
     isInitialized := isInitialized s; resizeListeners := resizeListeners s;
     closures := closures s; timers := timers s; console := console s |}.

(** The ladder of [adjustSizeForViewport]. *)
Definition maxWidthFor (viewportWidth : Z) : string :=
  if 1400 <=? viewportWidth then "800px"
  else if 1200 <=? viewportWidth then "750px"
  else if 992 <=? viewportWidth then "650px"
  else if 768 <=? viewportWidth then "580px"
  else if 576 <=? viewportWidth then "520px"
  else "450px".

(** [parseInt(maxWidth) + 50 + 'px'] *)
Definition plusFifty (maxWidth : string) : string :=
  match JsString.parseInt10 maxWidth with
  | Some n => JsString.toString (n + 50) +:+ "px"
  | None => "NaNpx"
  end.

Definition setMaxWidth (element : option nat) (v : string) (s : State) : State :=
  match element with
  | Some e => set_document (update e (assignStyle "max-width" (Text v))) s
  | None => s
  end.

Definition adjustSizeForViewport (s : State) : State :=
  let viewportWidth := innerWidth s in
  let maxWidth := maxWidthFor viewportWidth in
  (* Apply enhanced sizes *)
  let s := setMaxWidth (laptopImage s) maxWidth s in
  let s := setMaxWidth (laptopFrame s) (plusFifty maxWidth) s in
  setMaxWidth (laptopShowcase s) (plusFifty maxWidth) s.

(** [this.debounce(func, wait)]: creates the closure and returns it. *)
Definition debounce (w : Z) (s : State) : nat * State :=
  (length (closures s),
   set_closures (closures s ++ [{| wait := w; timeout := None |}]) s).

(** A call of the debounced closure [c] (the class never makes one). *)
Definition executedFunction (c : nat) (s : State) : State :=
  match closures s !! c with
  | Some d =>
      let q := Helpers.clearTimeout (timeout d) (timers s) in
      let '(id, q) := Helpers.setTimeout (Later c) (wait d) q in
      set_timers q
        (set_closures (<[c := {| wait := wait d; timeout := Some id |}]> (closures s)) s)
  | None => s
  end.

Definition later (c : nat) (s : State) : State :=
  match closures s !! c with
  | Some d =>
      adjustSizeForViewport
        (set_timers (Helpers.clearTimeout (timeout d) (timers s)) s)
  | None => s
  end.

(** The listener [enhanceLaptopSize] puts on [resize]:
    [() => { this.debounce(() => this.adjustSizeForViewport(), 250); }] *)
Definition resizeListener (s : State) : State :=
  snd (debounce 250 s).

Definition enhanceLaptopSize (s : State) : State :=
  (* Dynamic size adjustment based on viewport *)
  let s := adjustSizeForViewport s in
  (* Monitor window resize for dynamic adjustments *)
  set_resizeListeners (S (resizeListeners s)) s.

(** [setup()], as far as sizing goes: the hover, touch, accessibility and
    pulse wiring that follows [enhanceLaptopSize] does not touch
    [max-width] and is left out. *)
Definition setup (s : State) : State :=
  let s := findElements s in
  match laptopContainer s, laptopImage s with
  | None, None => log "DoMedia: Laptop elements not found" s
  | _, _ =>
      let s := enhanceLaptopSize s in
      let s := set_isInitialized true s in
      log "DoMedia: Laptop enhancement loaded successfully" s
  end.

Definition enhanceSizeNow (s : State) : State :=
  log "DoMedia: Laptop size enhanced manually" (adjustSizeForViewport s).

(** The window is resized to [w]: every registered listener runs. *)
Definition resize (w : Z) (s : State) : State :=
  Nat.iter (resizeListeners s) resizeListener (set_innerWidth w s).

(** A timer comes due. *)
Definition fireTimer (id : nat) (s : State) : State :=
  match Helpers.pending (timers s) !! id with
  | Some (_, Later c) => later c (set_timers (Helpers.expire id (timers s)) s)
  | None => s
  end.

(** The inline [max-width] of an element. *)
Definition maxWidthOf (s : State) (element : option nat) : option StyleValue :=
  match element ≫= (fun i : nat => document s !! i) with
  | Some e => style e !! "max-width"%string
  | None => None
  end.

End LaptopEnhancer.

(** ** BackgroundParticles: the drifting dots behind the page *)

Module BackgroundParticles.
Local Open Scope Q_scope.

Record Particle := {
  x : Q;
  y : Q;
  size : Q;
  speedX : Q;
  speedY : Q;
  opacity : Q
}.

(** [canvas.width] and [canvas.height] *)
Record Canvas := { width : Z; height : Z }.

(** [resizeCanvas()] *)
Definition resizeCanvas (innerWidth innerHeight : Z) : Canvas :=
  {| width := innerWidth; height := innerHeight |}.

(** The object literal of [createParticles]; [random k] is what the
    [k]-th call of [Math.random()] returns, and [first] counts the calls
    made before. *)
Definition newParticle (random : nat -> Q) (first : nat) (canvas : Canvas)
    : Particle :=
  {| x := random first * inject_Z (width canvas);
     y := random (first + 1)%nat * inject_Z (height canvas);
     size := random (first + 2)%nat * 2 + 1;
     speedX := (random (first + 3)%nat - (1 # 2)) * (1 # 2);
     speedY := (random (first + 4)%nat - (1 # 2)) * (1 # 2);
     opacity := random (first + 5)%nat * (1 # 2) + (2 # 10) |}.

Definition particleCount : nat := 50.

(** [createParticles()]: fifty pushes onto [this.particles]. *)
Definition createParticles (random : nat -> Q) (canvas : Canvas)
    (particles : list Particle) : list Particle :=
  particles
  ++ map (fun i => newParticle random (6 * i)%nat canvas) (seq 0 particleCount).

(** One round of the loop of [animate()]: move, then wrap around the
    edges. *)
Definition moveParticle (canvas : Canvas) (p : Particle) : Particle :=
  (* Update position *)
  let x := x p + speedX p in
  let y := y p + speedY p in
  (* Wrap around edges *)
  let x := if Qlt_le_dec x 0 then inject_Z (width canvas) else x in
  let x := if Qlt_le_dec (inject_Z (width canvas)) x then 0 else x in
  let y := if Qlt_le_dec y 0 then inject_Z (height canvas) else y in
  let y := if Qlt_le_dec (inject_Z (height canvas)) y then 0 else y in
  {| x := x; y := y; size := size p; speedX := speedX p;
     speedY := speedY p; opacity := opacity p |}.

(** [animate()], as far as the particles go: every particle is moved and
    then drawn where it is; the frame requests the next one. *)
Definition animate (canvas : Canvas) (particles : list Particle)
    : list Particle :=
  map (moveParticle canvas) particles.

(** [n] animation frames. *)
Definition frames (n : nat) (canvas : Canvas) (particles : list Particle)
    : list Particle :=
  Nat.iter n (animate canvas) particles.

(** A particle lies on the canvas. *)
Definition onCanvas (canvas : Canvas) (p : Particle) : Prop :=
  (0 <= x p)%Q /\ (x p <= inject_Z (width canvas))%Q /\
  (0 <= y p)%Q /\ (y p <= inject_Z (height canvas))%Q.

End BackgroundParticles.

(** ** Small pages to run the scripts on *)

Module Example.
Import Dom.

Definition element (tag : string) (par : option nat) (classes : list string)
    (attrs : list (string * string)) (text : string) (top height : Z)
    : Element :=
  {| tagName := tag; parent := par; classList := classes;
     attributes := list_to_map attrs; textContent := text; style := ∅;
     offsetTop := top; offsetHeight := height |}.

Definition page : Document :=
  [ element "header" None [] [] "" 0 70;
    element "nav" (Some 0%nat) [] [("id", "mainNav")] "" 0 70;
    element "a" (Some 1%nat) [] [("href", "#home")] "Home" 0 20;
    element "a" (Some 1%nat) [] [("href", "#about")] "About" 0 20;
    element "a" (Some 1%nat) [] [("href", "#get-started")] "Get started" 0 20;
    element "a" (Some 1%nat) [] [("href", "#pricing")] "Pricing" 0 20;
    element "button" (Some 0%nat) []
      [("id", "mobileMenuBtn"); ("aria-expanded", "false")] "☰" 0 40;
    element "section" None [] [("id", "home")] "" 0 900;
    element "section" None [] [("id", "about")] "" 900 900;
    element "section" None [] [("id", "contact")] "" 2700 900 ]%string.

(** Navigation on that page, after [cacheElements], menu closed. *)
Definition navigation : Navigation.State :=
  Navigation.cacheElements
    {| Navigation.document := page;
       Navigation.window := ViewportUtils.windowOfWidth 600;
       Navigation.mobileMenuBtn := None; Navigation.mainNav := None;
       Navigation.navLinks := []; Navigation.header := None;
       Navigation.isMobileMenuOpen := false;
       Navigation.currentSection := "home";
       Navigation.timers := Helpers.noTimers;
       Navigation.frames := []; Navigation.trace := [] |}.

(** The same, with the last link pointing at an id that holds a
    backslash. *)
Definition navigationEscaped : Navigation.State :=
  Navigation.set_document (update 5 (setAttribute "href" "#a\b")) navigation.

End Example.

Module AnimationsExample.
Import Dom.

Definition page : Document :=
  [ Example.element "body" None [] [] "" 0 4000;
    Example.element "div" (Some 0%nat) ["logo"] [] "DO Media" 0 40;
    Example.element "nav" (Some 0%nat) [] [("id", "mainNav")] "" 0 70;
    Example.element "ul" (Some 2%nat) [] [] "" 0 70;
    Example.element "li" (Some 3%nat) [] [] "Home" 0 20;
    Example.element "li" (Some 3%nat) [] [] "About" 0 20;
    Example.element "div" (Some 0%nat) ["hero-content"] [] "" 100 600;
    Example.element "h1" (Some 6%nat) [] [] "We build brands" 120 80;
    Example.element "a" (Some 6%nat) ["cta-button"] [] "Get started" 300 50;
    Example.element "div" (Some 0%nat) ["laptop-frame"] [] "" 100 500;
    Example.element "div" (Some 9%nat) ["screen-content"] [] "" 120 400;
    Example.element "p" (Some 10%nat) [] [] "slide" 130 100 ]%string.

(** The module before [init], on a system whose reduced-motion setting is
    [reduce]. *)
Definition fresh (reduce : bool) : Animations.State :=
  {| Animations.document := page;
     Animations.mediaReduce := reduce;
     Animations.observers := [];
     Animations.animatedElements := ∅;
     Animations.isInitialized := false;
     Animations.prefersReducedMotion := false;
     Animations.hoverListeners := [];
     Animations.eventsBound := false;
     Animations.timers := Helpers.noTimers;
     Animations.console := [] |}.

Definition started (reduce : bool) : Animations.State :=
  Animations.init (fresh reduce).

End AnimationsExample.

Module LaptopExample.
Import Dom.

Definition page : Document :=
  [ Example.element "body" None [] [] "" 0 4000;
    Example.element "div" (Some 0%nat) ["laptop-showcase"] [] "" 100 600;
    Example.element "div" (Some 1%nat) ["laptop-container"] [] "" 100 600;
    Example.element "div" (Some 2%nat) ["laptop-frame"] [] "" 100 500;
    Example.element "img" (Some 3%nat) ["laptop-image"] [] "" 110 480 ]%string.

(** The enhancer before [setup], in a window [w] pixels wide. *)
Definition fresh (w : Z) : LaptopEnhancer.State :=
  {| LaptopEnhancer.document := page;
     LaptopEnhancer.innerWidth := w;
     LaptopEnhancer.laptopContainer := None;
     LaptopEnhancer.laptopImage := None;
     LaptopEnhancer.laptopFrame := None;
     LaptopEnhancer.laptopShowcase := None;
     LaptopEnhancer.isInitialized := false;
     LaptopEnhancer.resizeListeners := 0;
     LaptopEnhancer.closures := [];
     LaptopEnhancer.timers := Helpers.noTimers;
     LaptopEnhancer.console := [] |}.

End LaptopExample.

(** * Properties *)

(** Turns boolean integer comparisons in the goal into linear facts. *)
Ltac zify_cmp :=
repeat match goal with
  | |- context [ (?a <=? ?b)%Z ] => destruct (Z.leb_spec a b)
  | |- context [ (?a <? ?b)%Z ] => destruct (Z.ltb_spec a b)
  | |- context [ (?a =? ?b)%Z ] => destruct (Z.eqb_spec a b)
  end.

Section ListFacts.
Context {A : Type} `{EqDecision A}.

Lemma filter_ne_snoc (a : A) (l : list A) :
  a ∉ l -> filter (fun x => x ≠ a) (l ++ [a]) = l.
Proof.
  intros Hfresh. rewrite filter_app.
  rewrite (filter_cons_False _ a []) by (intros H; by apply H).
  rewrite filter_nil, app_nil_r.
  induction l as [|b l IH]; [done|].
  apply not_elem_of_cons in Hfresh as [Hne Hfresh].
  rewrite filter_cons_True by done. f_equal. by apply IH.
Qed.

Lemma alter_fixed {B} (f : B -> B) (i : nat) (l : list B) (x : B) :
  l !! i = Some x -> f x = x -> alter f i l = l.
Proof.
  intros Hi Hf. apply list_eq. intros j.
  destruct (decide (i = j)) as [<-|Hne].
  - rewrite list_lookup_alter_eq, Hi. simpl. by rewrite Hf.
  - by rewrite list_lookup_alter_ne.
Qed.

End ListFacts.

Section QuotedStrings.
Import Dom.

(** Text free of quotes, backslashes and line breaks is read as
    written. *)
Lemma cssString_quotable (v : string) :
  quotable v = true -> cssString v = Some v.
Proof.
  unfold cssString, quotable.
  induction v as [|c v IH]; [done|]. cbn [list_ascii_of_string forallb].
  rewrite andb_true_iff, negb_true_iff, bool_decide_eq_false.
  intros [Hc Hv]. cbn [stringFrom].
  assert (H34 : nat_of_ascii c ≠ 34%nat)
    by (intros E; apply Hc; rewrite E; by left).
  assert (H92 : nat_of_ascii c ≠ 92%nat)
    by (intros E; apply Hc; rewrite E; right; by left).
  assert (Hnl : is_newline c = false).
  { unfold is_newline. apply bool_decide_eq_false_2. intros Hin. apply Hc.
    do 2 right. exact Hin. }
  rewrite (bool_decide_eq_false_2 _ H34), Hnl, (bool_decide_eq_false_2 _ H92).
  by rewrite (IH Hv).
Qed.

Lemma attrEqQuoted_quotable (a v : string) :
  quotable v = true -> attrEqQuoted a v = Some (Sel [AttrEq a v]).
Proof. intros H. unfold attrEqQuoted. by rewrite (cssString_quotable v H). Qed.

Lemma cssString_hash (v : string) :
  quotable v = true -> cssString ("#" +:+ v) = Some ("#" +:+ v)%string.
Proof. intros H. apply cssString_quotable. exact H. Qed.

End QuotedStrings.

Section Breakpoints.
Import ViewportUtils.

Lemma breakpointOf_spec (w : Z) :
  match breakpointOf w with
  | xl => 1400 <= w
  | lg => 1024 <= w < 1400
  | md => 768 <= w < 1024
  | sm => 480 <= w < 768
  | xs => w < 480
  end.
Proof. unfold breakpointOf. zify_cmp; lia. Qed.

Lemma breakpointOf_xl w : breakpointOf w = xl <-> 1400 <= w.
Proof. unfold breakpointOf. zify_cmp; split; (congruence || lia). Qed.

Lemma breakpointOf_lg w : breakpointOf w = lg <-> 1024 <= w < 1400.
Proof. unfold breakpointOf. zify_cmp; split; (congruence || lia). Qed.

Lemma breakpointOf_md w : breakpointOf w = md <-> 768 <= w < 1024.
Proof. unfold breakpointOf. zify_cmp; split; (congruence || lia). Qed.

Lemma breakpointOf_sm w : breakpointOf w = sm <-> 480 <= w < 768.
Proof. unfold breakpointOf. zify_cmp; split; (congruence || lia). Qed.

Lemma breakpointOf_xs w : breakpointOf w = xs <-> w < 480.
Proof. unfold breakpointOf. zify_cmp; split; (congruence || lia). Qed.

Lemma viewport_width_nonneg (win : Window) :
  0 <= clientWidth win -> 0 <= width (getViewportSize win).
Proof. unfold getViewportSize, JsNumber.or_else; simpl. zify_cmp; lia. Qed.

Lemma windowOfWidth_width (w : Z) :
  width (getViewportSize (windowOfWidth w)) = w.
Proof. unfold getViewportSize, JsNumber.or_else; simpl. zify_cmp; lia. Qed.

(** C1. Whatever the window, with [w] its viewport width, the breakpoint is
    [xl] exactly on [1400,oo), [lg] on [1024,1400), [md] on [768,1024),
    [sm] on [480,768) and [xs] below 480 (so the five labels partition the
    widths); [isMobile] holds iff [w <= 768], [isTablet] iff
    [768 < w <= 1024], [isDesktop] iff [1024 < w].  At width 800 the
    viewport is a tablet, not mobile, with breakpoint [md]; at width 768
    it is both mobile and [md]. *)
Theorem breakpoint_classification :
  (forall win : Window,
     let w := width (getViewportSize win) in
     (getCurrentBreakpoint win = xl <-> 1400 <= w) /\
     (getCurrentBreakpoint win = lg <-> 1024 <= w < 1400) /\
     (getCurrentBreakpoint win = md <-> 768 <= w < 1024) /\
     (getCurrentBreakpoint win = sm <-> 480 <= w < 768) /\
     (getCurrentBreakpoint win = xs <-> w < 480) /\
     (isMobile win = true <-> w <= 768) /\
     (isTablet win = true <-> 768 < w <= 1024) /\
     (isDesktop win = true <-> 1024 < w)) /\
  (isMobile (windowOfWidth 800) = false /\
   isTablet (windowOfWidth 800) = true /\
   getCurrentBreakpoint (windowOfWidth 800) = md) /\
  (isMobile (windowOfWidth 768) = true /\
   getCurrentBreakpoint (windowOfWidth 768) = md).
Proof.
  split; [|split; repeat split; reflexivity].
  intros win w. unfold getCurrentBreakpoint. fold w.
  split; [apply breakpointOf_xl|].
  split; [apply breakpointOf_lg|].
  split; [apply breakpointOf_md|].
  split; [apply breakpointOf_sm|].
  split; [apply breakpointOf_xs|].
  unfold isMobile, isTablet, isDesktop. fold w.
  rewrite andb_true_iff, !Z.leb_le, !Z.ltb_lt. tauto.
Qed.

End Breakpoints.

Section ScrollProgress.
Import JsNumber ViewportUtils.

Lemma Math_clamp_unit (p : number) :
  p <> NaN -> in_unit_interval (Math_min (of_Z 1) (Math_max (of_Z 0) p)).
Proof.
  intros Hp. destruct p as [| | |q]; [congruence| | |]; simpl.
  - split; [discriminate | apply Qle_refl].
  - split; [apply Qle_refl | discriminate].
  - destruct (Qle_bool (inject_Z 0) q) eqn:H0; simpl.
    + apply Qle_bool_iff in H0.
      destruct (Qle_bool (inject_Z 1) q) eqn:H1; simpl.
      * split; [discriminate | apply Qle_refl].
      * split; [exact H0|].
        apply Qnot_lt_le. intros Hlt.
        apply Qlt_le_weak, Qle_bool_iff in Hlt.
        exact (eq_true_false_abs _ Hlt H1).
    + split; [apply Qle_refl | discriminate].
Qed.

Lemma div_NaN_iff (a b : Z) : div a b = NaN <-> a = 0 /\ b = 0.
Proof. unfold div. zify_cmp; split; intros; (congruence || lia). Qed.

Lemma Math_clamp_NaN (p : number) :
  Math_min (of_Z 1) (Math_max (of_Z 0) p) = NaN <-> p = NaN.
Proof.
  unfold of_Z.
  destruct p as [| | |q]; simpl; try (split; congruence).
  destruct (Qle_bool (inject_Z 0) q); simpl;
    [destruct (Qle_bool (inject_Z 1) q)|]; simpl; split; congruence.
Qed.

(** The progress handed to an [onScroll] callback is not-a-number exactly
    when the page is at offset 0 and the document is as tall as the
    viewport; in every other scroll state it is a number in [0,1]. *)
Lemma scroll_progress_defined_iff (w : Window) :
  let position := getScrollPosition w in
  let range := bodyScrollHeight w - height (getViewportSize w) in
  (si_progress (scrollInfo w) = NaN <-> y position = 0 /\ range = 0) /\
  (~ (y position = 0 /\ range = 0) ->
   in_unit_interval (si_progress (scrollInfo w))).
Proof.
  intros position range.
  change (si_progress (scrollInfo w))
    with (Math_min (of_Z 1) (Math_max (of_Z 0) (div (y position) range))).
  split.
  - rewrite Math_clamp_NaN. apply div_NaN_iff.
  - intros H. apply Math_clamp_unit. rewrite div_NaN_iff. exact H.
Qed.

(** C7. Whenever the page is at offset 0 and the document is exactly as
    tall as the viewport, a callback registered with [onScroll] receives, at
    the first scroll event, a progress that is not-a-number: the clamp to
    [0,1] does not catch the 0/0 of the division. *)
Theorem onScroll_progress_NaN (w : Window) (callback : nat) (throttleMs : Z) :
  y (getScrollPosition w) = 0 ->
  bodyScrollHeight w = height (getViewportSize w) ->
  let l := snd (onScroll callback throttleMs (emptyLoop w)) in
  scrollCalls (fireEvent "scroll" l) = [(callback, scrollInfo w)] /\
  si_progress (scrollInfo w) = NaN.
Proof.
  intros Hy Hh. split.
  - reflexivity.
  - apply (scroll_progress_defined_iff w). split; [exact Hy | lia].
Qed.

Lemma onScroll_progress_NaN_witness :
  y (getScrollPosition unscrollablePage) = 0 /\
  bodyScrollHeight unscrollablePage = height (getViewportSize unscrollablePage) /\
  map (fun c => si_progress (snd c))
      (scrollCalls
         (fireEvent "scroll" (snd (onScroll 1 16 (emptyLoop unscrollablePage)))))
  = [NaN].
Proof.
  split; [reflexivity|]. split; [reflexivity|].
  destruct (onScroll_progress_NaN unscrollablePage 1 16 eq_refl eq_refl)
    as (Hcalls & Hnan).
  rewrite Hcalls. exact (f_equal (fun p => [p]) Hnan).
Defined.

End ScrollProgress.

Section ScrollLock.
Import Dom ViewportUtils.

(** C10. When the body carries no remembered scroll offset, [unlockScroll]
    removes the inline [position], [top] and [width] declarations of the
    body and does nothing else: [window.scrollTo] is not called, the
    window metrics (scroll offset included) are the same, and the rest of
    the body is untouched. *)
Theorem unlockScroll_without_lock (p : Page) :
  getAttribute "data-scroll-y" (body p) = None ->
  let p' := unlockScroll p in
  style (body p') !! "position" = None /\
  style (body p') !! "top" = None /\
  style (body p') !! "width" = None /\
  (forall prop, prop ≠ "position" -> prop ≠ "top" -> prop ≠ "width" ->
     style (body p') !! prop = style (body p) !! prop) /\
  scrollToCalls p' = scrollToCalls p /\
  win p' = win p /\
  pageYOffset (win p') = pageYOffset (win p) /\
  attributes (body p') = attributes (body p) /\
  classList (body p') = classList (body p).
Proof.
  intros Hunset p'. subst p'. unfold unlockScroll.
  rewrite Hunset. simpl.
  repeat split; try reflexivity.
  - rewrite lookup_delete_ne by done. rewrite lookup_delete_ne by done.
    apply lookup_delete_eq.
  - rewrite lookup_delete_ne by done. apply lookup_delete_eq.
  - apply lookup_delete_eq.
  - intros prop H1 H2 H3. by rewrite !lookup_delete_ne.
Qed.

Lemma unlockScroll_without_lock_witness :
  getAttribute "data-scroll-y" (body unlockedPage) = None /\
  style (body (unlockScroll unlockedPage)) !! "position" = None /\
  scrollToCalls (unlockScroll unlockedPage) = [] /\
  pageYOffset (win (unlockScroll unlockedPage)) = 350.
Proof.
  split; [reflexivity|].
  pose proof (unlockScroll_without_lock unlockedPage eq_refl) as H.
  simpl in H. destruct H as (H1 & _ & _ & _ & H5 & _ & H7 & _).
  split; [exact H1|]. split; [exact H5 | exact H7].
Defined.

(** Locking and unlocking brings the window back to its offset. *)
Example lock_unlock_roundtrip :
  let p := unlockScroll (lockScroll unlockedPage) in
  pageYOffset (win p) = 350 /\ scrollToCalls p = [(0, Some 350)] /\
  getAttribute "data-scroll-y" (body p) = None.
Proof. vm_compute. repeat split. Qed.

End ScrollLock.

Section ViewportChange.
Import ViewportUtils.

Lemma listenersKnown_fresh (l : Loop) (type : string) :
  listenersKnown l -> S (lastClosure l) ∉ listenersOf type l.
Proof.
  intros Hk Hin. unfold listenersOf in Hin.
  destruct (listeners l !! type) as [hs|] eqn:E; simpl in Hin.
  - specialize (Hk _ _ E). simpl in Hk.
    rewrite Forall_forall in Hk. apply Hk in Hin. lia.
  - by apply not_elem_of_nil in Hin.
Qed.

Lemma listenersOf_add (type type' : string) (h : nat) (l : Loop) :
  h ∉ listenersOf type l ->
  listenersOf type' (addEventListener type h l)
  = if decide (type = type') then listenersOf type l ++ [h]
    else listenersOf type' l.
Proof.
  intros Hfresh. unfold addEventListener.
  rewrite bool_decide_eq_false_2 by exact Hfresh.
  unfold listenersOf at 1; simpl. rewrite lookup_insert.
  destruct (decide (type = type')); reflexivity.
Qed.

Lemma listenersOf_remove (type type' : string) (h : nat) (l : Loop) :
  listenersOf type' (removeEventListener type h l)
  = if decide (type = type')
    then filter (fun h' => h' ≠ h) (listenersOf type l)
    else listenersOf type' l.
Proof.
  unfold removeEventListener, listenersOf at 1; simpl. rewrite lookup_insert.
  destruct (decide (type = type')); reflexivity.
Qed.

(** Registration and removal touch the listener table only. *)
Lemma addEventListener_frame (type : string) (h : nat) (l : Loop) :
  let l' := addEventListener type h l in
  window l' = window l /\ closures l' = closures l /\
  timers l' = timers l /\ viewportCalls l' = viewportCalls l.
Proof. unfold addEventListener. case_bool_decide; repeat split. Qed.

(** Calling a debounced closure that is not [immediate]: the previous
    timer, if any, is cancelled and a new one is set; the callback does
    not run. *)
Lemma call_debounced (h : nat) (d : Helpers.Debounced nat) (l : Loop) :
  closures l !! h = Some (DebouncedViewport d) ->
  Helpers.immediate d = false ->
  let q := Helpers.clearTimeout (Helpers.timeout d) (timers l) in
  let id := S (Helpers.lastTimer q) in
  let l' := call h l in
  viewportCalls l' = viewportCalls l /\
  window l' = window l /\
  listeners l' = listeners l /\
  Helpers.pending (timers l')
    = <[id := (Helpers.wait d, Later h)]> (Helpers.pending q) /\
  closures l' !! h
    = Some (DebouncedViewport
              {| Helpers.func := Helpers.func d; Helpers.wait := Helpers.wait d;
                 Helpers.immediate := false; Helpers.timeout := Some id |}).
Proof.
  intros Hh Himm. unfold call. rewrite Hh.
  unfold Helpers.executedFunction. rewrite Himm. simpl.
  rewrite lookup_insert_eq. repeat split.
Qed.

(** A due [later] of a non-immediate debounced closure runs the callback
    once, on the window as it is then. *)
Lemma fireTimer_later (id h : nat) (delay : Z) (d : Helpers.Debounced nat)
    (l : Loop) :
  Helpers.pending (timers l) !! id = Some (delay, Later h) ->
  closures l !! h = Some (DebouncedViewport d) ->
  Helpers.immediate d = false ->
  viewportCalls (fireTimer id l)
  = viewportCalls l ++ [(Helpers.func d, viewportInfo (window l))].
Proof.
  intros Hid Hh Himm. unfold fireTimer. rewrite Hid. simpl.
  rewrite Hh. unfold Helpers.later. rewrite Himm. reflexivity.
Qed.

(** Counterexample to C8 as stated (the callback runs once during
    registration): on a fresh page the callback has not run when
    [onViewportChange] returns. *)
Lemma onViewportChange_initial_call_is_deferred :
  let l0 := emptyLoop (windowOfWidth 800) in
  let '(_, l) := onViewportChange 1 250 l0 in
  viewportCalls l = [] /\
  viewportCalls l ≠ viewportCalls l0 ++ [(1%nat, viewportInfo (window l0))].
Proof. simpl. split; [reflexivity | discriminate]. Qed.

(** C8 (amended). [onViewportChange(callback, debounceMs)] creates one
    debounced closure and appends it to the listeners of both [resize] and
    [orientationchange]; its initial call goes through the debounce, so
    the callback has not run when the function returns and one timer of
    [debounceMs] is pending for it; when that timer comes due the callback
    runs once, with the viewport and breakpoint of that moment; the
    cleanup function takes the closure off both events and leaves the
    other listeners in place. *)
Theorem onViewportChange_registers_debounced (callback : nat)
    (debounceMs : Z) (l : Loop) :
  listenersKnown l ->
  let h := fst (onViewportChange callback debounceMs l) in
  let l' := snd (onViewportChange callback debounceMs l) in
  let id := S (Helpers.lastTimer (timers l)) in
  listenersOf "resize" l' = listenersOf "resize" l ++ [h] /\
  listenersOf "orientationchange" l'
    = listenersOf "orientationchange" l ++ [h] /\
  viewportCalls l' = viewportCalls l /\
  Helpers.pending (timers l')
    = <[id := (debounceMs, Later h)]> (Helpers.pending (timers l)) /\
  viewportCalls (fireTimer id l')
    = viewportCalls l ++ [(callback, viewportInfo (window l))] /\
  listenersOf "resize" (offViewportChange h l') = listenersOf "resize" l /\
  listenersOf "orientationchange" (offViewportChange h l')
    = listenersOf "orientationchange" l.
Proof.
  intros Hk.
  pose proof (listenersKnown_fresh l "resize" Hk) as Hr.
  pose proof (listenersKnown_fresh l "orientationchange" Hk) as Ho.
  unfold onViewportChange, newClosure.
  set (h := S (lastClosure l)) in *.
  set (d := Helpers.debounce callback debounceMs false).
  set (l1 := {| window := window l;
                closures := <[h := DebouncedViewport d]> (closures l);
                lastClosure := h; listeners := listeners l;
                timers := timers l; viewportCalls := viewportCalls l;
                scrollCalls := scrollCalls l |}).
  set (l2 := addEventListener "resize" h l1).
  set (l3 := addEventListener "orientationchange" h l2).
  cbn [fst snd].
  assert (Hr2 : listenersOf "resize" l2 = listenersOf "resize" l ++ [h]).
  { unfold l2. rewrite listenersOf_add by exact Hr. by rewrite decide_True. }
  assert (Ho2 : listenersOf "orientationchange" l2
                = listenersOf "orientationchange" l).
  { unfold l2. rewrite listenersOf_add by exact Hr. by rewrite decide_False. }
  assert (Ho3 : listenersOf "orientationchange" l3
                = listenersOf "orientationchange" l ++ [h]).
  { unfold l3. rewrite listenersOf_add by (rewrite Ho2; exact Ho).
    rewrite decide_True by done. by rewrite Ho2. }
  assert (Hr3 : listenersOf "resize" l3 = listenersOf "resize" l ++ [h]).
  { unfold l3. rewrite listenersOf_add by (rewrite Ho2; exact Ho).
    by rewrite decide_False. }
  destruct (addEventListener_frame "resize" h l1) as (Hw2 & Hc2 & Ht2 & Hv2).
  destruct (addEventListener_frame "orientationchange" h l2)
    as (Hw3 & Hc3 & Ht3 & Hv3).
  fold l2 in Hw2, Hc2, Ht2, Hv2. fold l3 in Hw3, Hc3, Ht3, Hv3.
  assert (Hh : closures l3 !! h = Some (DebouncedViewport d)).
  { rewrite Hc3, Hc2. apply lookup_insert_eq. }
  destruct (call_debounced h d l3 Hh eq_refl) as (Hv & Hw & Hl & Hq & Hc).
  simpl in Hq, Hc. rewrite Ht3, Ht2 in Hq, Hc. simpl in Hq, Hc.
  assert (Hls : forall type, listenersOf type (call h l3) = listenersOf type l3)
    by (intros type; unfold listenersOf; by rewrite Hl).
  split; [by rewrite Hls|]. split; [by rewrite Hls|].
  split; [by rewrite Hv, Hv3, Hv2|].
  split; [exact Hq|].
  split.
  { erewrite fireTimer_later; [| rewrite Hq; apply lookup_insert_eq
                                | exact Hc | reflexivity].
    by rewrite Hv, Hv3, Hv2, Hw, Hw3, Hw2. }
  unfold offViewportChange. rewrite !listenersOf_remove.
  split; repeat case_decide; try done;
    rewrite !Hls, ?Hr3, ?Ho3; by rewrite filter_ne_snoc.
Qed.

Lemma onViewportChange_registers_debounced_witness :
  listenersKnown (emptyLoop (windowOfWidth 1500)) /\
  let l' := snd (onViewportChange 7 250 (emptyLoop (windowOfWidth 1500))) in
  listenersOf "resize" l' = [1%nat] /\
  viewportCalls l' = [] /\
  map (fun c => vi_breakpoint (snd c)) (viewportCalls (fireTimer 1 l')) = [xl].
Proof.
  assert (Hk : listenersKnown (emptyLoop (windowOfWidth 1500)))
    by apply map_Forall_empty.
  split; [exact Hk|].
  pose proof (onViewportChange_registers_debounced 7 250 _ Hk) as H.
  cbv zeta in H. destruct H as (H1 & _ & H3 & _ & H5 & _).
  cbv zeta. split; [exact H1|]. split; [exact H3|].
  exact (f_equal (map (fun c => vi_breakpoint (snd c))) H5).
Defined.

End ViewportChange.

(** ** A small page to run the scripts on *)


Section NavClick.
Import Dom Eff Navigation.

Example navigation_elements :
  mobileMenuBtn Example.navigation = Some 6%nat /\
  mainNav Example.navigation = Some 1%nat /\
  navLinks Example.navigation = [2; 3; 4; 5]%nat /\
  header Example.navigation = Some 0%nat.
Proof. vm_compute. repeat split. Qed.

(** Counterexample to C5 as stated (every link whose target id names no
    element): [#get-started] names none on the example page, yet clicking
    it logs no warning; it requests an animation frame (for a tween
    towards the contact section) and dispatches [getStartedClicked]. *)
Lemma handleNavClick_get_started_no_warning :
  let s := Example.navigation in
  fst (findSection "get-started" s) = Normal None /\
  let s' := snd (handleNavClick 4 s) in
  filter (fun e => isWarning e = true) (trace s') = [] /\
  length (frames s') = 1%nat /\
  trace s' = [PreventDefault; Dispatched "getStartedClicked"].
Proof. vm_compute. repeat split. Qed.

End NavClick.

Section SmoothScroll.
Import Dom Eff Navigation.

Lemma scrollToElement_requests_tween (s : State) (t : nat) (e : Element) :
  document s !! t = Some e ->
  scrollToElement (Some t) s
  = (Normal tt, set_frames (frames s ++ [tweenTo s e]) s).
Proof.
  intros Ht. unfold scrollToElement, bind, get. simpl. rewrite Ht. reflexivity.
Qed.

(** Without a callable [easeInOutQuad] on the global object, a frame of
    the tween throws before it scrolls or asks for another frame. *)
Lemma animation_throws (globals : gmap string Helpers.GlobalValue)
    (a : Helpers.ScrollAnimation) (now : Z) :
  globals !! "easeInOutQuad"%string = None ->
  let o := Helpers.animation globals a now in
  (exists msg, Helpers.raised o = Some (TypeError msg)) /\
  Helpers.scrolledTo o = None /\ Helpers.again o = false.
Proof.
  intros Hg. unfold Helpers.animation. rewrite Hg. simpl. eauto.
Qed.

Lemma scriptGlobals_no_easing :
  Helpers.scriptGlobals !! "easeInOutQuad"%string = None.
Proof. reflexivity. Qed.

(** The curve of the local [easeInOutQuad] starts at [b] and ends at
    [b + c]. *)
Lemma easeInOutQuad_endpoints (b c d : Q) :
  ~ (d == 0)%Q ->
  (Helpers.easeInOutQuad 0 b c d == b)%Q /\
  (Helpers.easeInOutQuad d b c d == b + c)%Q.
Proof.
  intros Hd. unfold Helpers.easeInOutQuad. split.
  - destruct (Qlt_le_dec (0 / (d / 2)) 1) as [_|Hle].
    + field. exact Hd.
    + exfalso. assert (H : (0 / (d / 2) == 0)%Q) by (field; exact Hd).
      rewrite H in Hle. revert Hle. apply Qlt_not_le. reflexivity.
  - assert (H : (d / (d / 2) == 2)%Q) by (field; exact Hd).
    destruct (Qlt_le_dec (d / (d / 2)) 1) as [Hlt|_].
    + exfalso. rewrite H in Hlt. revert Hlt. apply Qle_not_lt. discriminate.
    + rewrite H. field.
Qed.

(** C4. [scrollToElement] asks [smoothScrollTo] for a tween of 800ms
    towards the target's offset minus (header height, 0 without a header,
    plus 80), and requests a frame for it; but whenever that frame runs on
    the page as the scripts set it up, [this.easeInOutQuad] is not a
    function: the frame throws a TypeError, [window.scrollTo] is never
    called and no further frame is requested, so the window does not
    move. *)
Theorem scrollToElement_frame_throws (s : State) (t : nat) (e : Element)
    (now : Z) :
  document s !! t = Some e ->
  frames s = [] ->
  let s1 := snd (scrollToElement (Some t) s) in
  frames s1 = [tweenTo s e] /\
  (exists msg, fst (runFrame Helpers.scriptGlobals now s1) = Throw (TypeError msg)) /\
  let s2 := snd (runFrame Helpers.scriptGlobals now s1) in
  frames s2 = [] /\ trace s2 = trace s /\ window s2 = window s /\
  document s2 = document s.
Proof.
  intros Ht Hf. rewrite (scrollToElement_requests_tween s t e Ht).
  cbn [snd]. simpl. rewrite Hf. simpl.
  split; [reflexivity|].
  unfold runFrame, bind, get, modify. simpl. rewrite ?Hf. simpl.
  split; [eauto | repeat split].
Qed.

Lemma scrollToElement_frame_throws_witness :
  let s := Example.navigation in
  (document s !! 8%nat = Some (Example.element "section" None []
                                  [("id", "about")]%string "" 900 900)) /\
  frames s = [] /\
  let s1 := snd (scrollToElement (Some 8%nat) s) in
  map Helpers.distance (frames s1) = [750] /\
  map Helpers.duration (frames s1) = [800] /\
  filter (fun e => isScroll e = true)
         (trace (snd (runFrame Helpers.scriptGlobals 16 s1))) = [].
Proof.
  cbv zeta. split; [reflexivity|]. split; [reflexivity|].
  destruct (scrollToElement_frame_throws Example.navigation 8 _ 16
              eq_refl eq_refl) as (H1 & _ & _ & H4 & _).
  rewrite H1, H4. repeat split.
Defined.

End SmoothScroll.

Section NavClickOutcome.
Import Dom Eff Navigation.

(** C5 (amended). A click on a navigation link, by the link's target id
    (its [href] less the first character).

    The id is not [get-started] and names no element: none has it as
    [id], and none has as [data-section] the string that the selector
    [[data-section="<id>"]] asks for, which is the id itself unless the
    id holds a backslash (see [cssString]; ids with a double quote that
    is not escaped, a raw line break or a backslash at the very end are
    left out).  Then the click returns normally; it cancels the default
    action and logs the warning [Target element not found: <id>], and
    changes nothing else: no frame is requested, no timer set, no event
    dispatched, and the document, the menu flag and the current section
    are as before.

    The id is [get-started]: no element of that id is looked for and no
    warning is logged, whether or not the page has such an element.  The
    click returns normally; it cancels the default action, requests one
    animation frame for a tween towards the first of [#contact],
    [[data-section="contact"]] and [.hero-section] that exists (no frame
    when there is none), dispatches [getStartedClicked], and changes
    nothing else. *)
Theorem handleNavClick_missing_target (s : State) (link : nat)
    (href : string) :
  document s !! link ≫= getAttribute "href" = Some href ->
  let targetId := JsString.substring1 href in
  (targetId ≠ "get-started"%string ->
   forall value, cssString targetId = Some value ->
   getElementById (document s) targetId = None ->
   querySelector (document s) [Sel [AttrEq "data-section" value]] = None ->
   handleNavClick link s
   = (Normal tt,
      emit (ConsoleWarn ("Target element not found: " +:+ targetId))
           (emit PreventDefault s))) /\
  (targetId = "get-started"%string ->
   let contact :=
     match getElementById (document s) "contact" with
     | Some e => Some e
     | None =>
         match querySelector (document s)
                 [Sel [AttrEq "data-section" "contact"]] with
         | Some e => Some e
         | None => querySelector (document s) [Sel [Class "hero-section"]]
         end
     end in
   handleNavClick link s
   = (Normal tt,
      emit (Dispatched "getStartedClicked")
        (set_frames
           (frames s ++ match contact ≫= (fun t => document s !! t) with
                        | Some e => [tweenTo s e]
                        | None => []
                        end)
           (emit PreventDefault s)))).
Proof.
  intros Hhref targetId. split.
  - intros Hne value Hq Hid Hsec.
    unfold handleNavClick, bind, modify, get, deref. simpl.
    rewrite Hhref. simpl. fold targetId.
    rewrite bool_decide_eq_false_2 by exact Hne.
    unfold findSection, bind, get, querySelectorText, attrEqQuoted. simpl.
    rewrite Hid, Hq. unfold bind, get, ret. simpl. rewrite Hsec.
    reflexivity.
  - intros Hgs contact.
    unfold handleNavClick. unfold bind at 1, modify at 1.
    unfold bind at 1, get at 1. unfold bind at 1.
    change (document (emit PreventDefault s)) with (document s).
    rewrite Hhref. cbn [deref]. unfold ret at 1. fold targetId. rewrite Hgs.
    rewrite bool_decide_eq_true_2 by reflexivity.
    unfold handleGetStarted. unfold bind at 1, get at 1. unfold bind at 1.
    change (document (emit PreventDefault s)) with (document s). fold contact.
    destruct contact as [t|]; cbn [mbind option_bind].
    + destruct (document s !! t) as [e|] eqn:He.
      * rewrite (scrollToElement_requests_tween _ t e) by exact He.
        reflexivity.
      * unfold scrollToElement, bind, get.
        change (document (emit PreventDefault s)) with (document s).
        rewrite He. unfold Helpers.smoothScrollTo. cbn.
        by rewrite app_nil_r.
    + cbn. by rewrite app_nil_r.
Qed.

Lemma handleNavClick_missing_target_witness :
  let s := Example.navigation in
  let t := Example.navigationEscaped in
  (document s !! 5%nat ≫= getAttribute "href" = Some "#pricing"%string) /\
  (document s !! 4%nat ≫= getAttribute "href" = Some "#get-started"%string) /\
  (document t !! 5%nat ≫= getAttribute "href" = Some "#a\b"%string) /\
  (let s' := snd (handleNavClick 5 s) in
   fst (handleNavClick 5 s) = Normal tt /\
   trace s' = [PreventDefault; ConsoleWarn "Target element not found: pricing"] /\
   frames s' = [] /\
   document s' = document s /\
   currentSection s' = currentSection s) /\
  (let s' := snd (handleNavClick 4 s) in
   fst (handleNavClick 4 s) = Normal tt /\
   trace s' = [PreventDefault; Dispatched "getStartedClicked"] /\
   map Helpers.distance (frames s') = [2550] /\
   document s' = document s) /\
  (cssString "a\b" = Some (String "a" (String (ascii_of_nat 11) "")) /\
   fst (handleNavClick 5 t) = Normal tt /\
   trace (snd (handleNavClick 5 t))
   = [PreventDefault; ConsoleWarn "Target element not found: a\b"]).
Proof.
  intros s t.
  assert (Ht : document t !! 5%nat ≫= getAttribute "href"
               = Some "#a\b"%string) by reflexivity.
  assert (Hcss : cssString "a\b" = Some (String "a" (String (ascii_of_nat 11) "")))
    by (vm_compute; reflexivity).
  assert (H5 : document s !! 5%nat ≫= getAttribute "href"
               = Some "#pricing"%string) by reflexivity.
  assert (H4 : document s !! 4%nat ≫= getAttribute "href"
               = Some "#get-started"%string) by reflexivity.
  split; [exact H5|]. split; [exact H4|]. split; [exact Ht|].
  split; [|split].
  - destruct (handleNavClick_missing_target s 5 "#pricing" H5) as [Hwarn _].
    rewrite (Hwarn ltac:(discriminate) "pricing"%string eq_refl eq_refl
               eq_refl).
    repeat split.
  - destruct (handleNavClick_missing_target s 4 "#get-started" H4)
      as [_ Hgs].
    rewrite (Hgs eq_refl). cbn [fst snd].
    split; [reflexivity|]. split; [reflexivity|].
    split; [vm_compute; reflexivity | reflexivity].
  - destruct (handleNavClick_missing_target t 5 "#a\b" Ht) as [Hwarn _].
    split; [exact Hcss|].
    rewrite (Hwarn ltac:(discriminate) _ Hcss eq_refl eq_refl).
    split; reflexivity.
Defined.

End NavClickOutcome.

Section MobileMenu.
Import Dom Eff Navigation.



Lemma open_then_close_element (c : string) (e : Element) :
  c ∉ classList e ->
  let e1 := if contains c e then e else classAdd c e in
  (if contains c e1 then classRemove c e1 else e1) = e.
Proof.
  intros Hc. cbv zeta. destruct e as [tg pa cl at' tx st ot oh].
  unfold contains, classAdd, classRemove, set_classList; simpl in *.
  rewrite !(bool_decide_eq_false_2 (c ∈ cl)) by exact Hc. simpl.
  rewrite bool_decide_eq_true_2 by set_solver.
  f_equal. by apply filter_ne_snoc.
Qed.









End MobileMenu.

Section EntranceAnimations.
Import Dom Animations.

(** A loop over elements keeps whatever each round keeps. *)
Lemma forEachFrom_preserves (P : State -> Prop)
    (f : nat -> nat -> State -> State) (l : list nat) :
  (forall element index s, P s -> P (f element index s)) ->
  forall index s, P s -> P (forEachFrom f index l s).
Proof.
  intros Hf. induction l as [|element l IH]; intros index s Hs; simpl.
  - exact Hs.
  - apply IH, Hf, Hs.
Qed.

Lemma styleOf_setStyle_ne (s : State) (element i : nat) (prop p : string)
    (v : StyleValue) :
  p ≠ prop -> styleOf (setStyle element prop v s) i p = styleOf s i p.
Proof.
  intros Hp. unfold styleOf, setStyle, update; simpl.
  destruct (decide (element = i)) as [->|Hi].
  - rewrite list_lookup_alter_eq. destruct (document s !! i) as [e|]; [|done].
    simpl. unfold assignStyle.
    destruct v as [[|c r]|ms easing]; simpl;
      by rewrite ?lookup_delete_ne, ?lookup_insert_ne.
  - by rewrite list_lookup_alter_ne.
Qed.

Lemma styleOf_setStyle_other (s : State) (element i : nat) (prop p : string)
    (v : StyleValue) :
  i ≠ element -> styleOf (setStyle element prop v s) i p = styleOf s i p.
Proof.
  intros Hi. unfold styleOf, setStyle, update; simpl.
  by rewrite list_lookup_alter_ne.
Qed.

Lemma styleOf_setStyle_eq (s : State) (element : nat) (prop : string)
    (v : StyleValue) :
  v ≠ Text "" -> (element < length (document s))%nat ->
  styleOf (setStyle element prop v s) element prop = Some v.
Proof.
  intros Hv Hlen. unfold styleOf, setStyle, update; simpl.
  rewrite list_lookup_alter_eq.
  destruct (lookup_lt_is_Some_2 _ _ Hlen) as [e He]. rewrite He. simpl.
  unfold assignStyle. destruct v as [[|c r]|ms easing]; simpl;
    [done | apply lookup_insert_eq | apply lookup_insert_eq].
Qed.

(** *** Once animated, never again *)

Lemma animateElement_animated (s : State) (element : nat) :
  element ∈ animatedElements s -> animateElement element s = s.
Proof.
  intros H. unfold animateElement. by rewrite bool_decide_eq_true_2.
Qed.

Lemma animateElement_reduced (s : State) (element : nat) :
  prefersReducedMotion s = true -> animateElement element s = s.
Proof.
  intros H. unfold animateElement. rewrite H. by rewrite orb_true_r.
Qed.

(** The first call on an element records it and starts one animation:
    one more timer has been set. *)
Lemma animateElement_first (s : State) (element : nat) :
  prefersReducedMotion s = false -> element ∉ animatedElements s ->
  let s' := animateElement element s in
  animatedElements s' = {[element]} ∪ animatedElements s /\
  Helpers.lastTimer (timers s') = S (Helpers.lastTimer (timers s)) /\
  is_Some (Helpers.pending (timers s') !! S (Helpers.lastTimer (timers s))).
Proof.
  intros Hflag Hnew. unfold animateElement.
  rewrite Hflag, bool_decide_eq_false_2 by exact Hnew. simpl.
  repeat case_match; simpl; rewrite lookup_insert_eq; by eauto.
Qed.

Lemma animateElement_grows (s : State) (element : nat) :
  animatedElements s ⊆ animatedElements (animateElement element s).
Proof.
  unfold animateElement. case_match; [done|].
  repeat case_match; simpl; set_solver.
Qed.

Lemma intersect_grows (o : nat) (entries : list (nat * bool)) (s : State) :
  animatedElements s ⊆ animatedElements (intersect o entries s).
Proof.
  unfold intersect. revert s.
  induction entries as [|[target hit] entries IH]; intros s; simpl; [done|].
  etrans; [|apply IH]. destruct hit; simpl; [|done].
  apply animateElement_grows.
Qed.

Lemma forEach_setStyle_animated (s : State) (l : list nat)
    (f : nat -> nat -> State -> State) :
  (forall element index s, animatedElements (f element index s) = animatedElements s) ->
  animatedElements (forEach f l s) = animatedElements s.
Proof.
  intros Hf. unfold forEach.
  apply (forEachFrom_preserves
           (fun s' => animatedElements s' = animatedElements s)); [|done].
  intros element index s' Hs'. by rewrite Hf.
Qed.

Lemma setupLoadAnimations_animated (s : State) :
  animatedElements (setupLoadAnimations s) = animatedElements s.
Proof.
  unfold setupLoadAnimations. apply forEach_setStyle_animated.
  intros element index s'. by destruct (prefersReducedMotion s').
Qed.

Lemma animateMobileMenuItems_animated (s : State) :
  animatedElements (animateMobileMenuItems s) = animatedElements s.
Proof.
  unfold animateMobileMenuItems. case_match; [done|].
  by apply forEach_setStyle_animated.
Qed.

Lemma checkMotionPreferences_animated (s : State) :
  animatedElements (checkMotionPreferences s) = animatedElements s.
Proof. unfold checkMotionPreferences; simpl. by case_match. Qed.

Lemma init_animated (s : State) :
  animatedElements (init s) = animatedElements s.
Proof.
  unfold init. case_match; [done|]. simpl.
  rewrite setupLoadAnimations_animated.
  unfold setupHoverEffects, setupScrollAnimations.
  repeat case_match; simpl; apply checkMotionPreferences_animated.
Qed.

Lemma fireTimer_animated (id : nat) (s : State) :
  animatedElements (fireTimer id s) = animatedElements s.
Proof.
  unfold fireTimer. destruct (Helpers.pending (timers s) !! id) as [[delay task]|];
    [|done].
  destruct task; simpl; try done.
  unfold animateScreenContent. by rewrite forEach_setStyle_animated.
Qed.

(** Nothing but [destroy] takes an element out of the animated set. *)
Lemma step_keeps_animated (a : Action) (s : State) :
  isDestroy a = false ->
  animatedElements s ⊆ animatedElements (step a s).
Proof.
  intros Ha. destruct a as [p| |m|id|]; simpl; try discriminate.
  - destruct p; simpl.
    + unfold setupScrollAnimations. by case_match.
    + apply animateElement_grows.
    + apply intersect_grows.
    + by rewrite setupLoadAnimations_animated.
    + by rewrite animateMobileMenuItems_animated.
  - by rewrite init_animated.
  - unfold mediaChange; simpl. case_match; [|done].
    by rewrite checkMotionPreferences_animated.
  - by rewrite fireTimer_animated.
Qed.

Lemma run_keeps_animated (actions : list Action) (s : State) :
  forallb (fun a => negb (isDestroy a)) actions = true ->
  animatedElements s ⊆ animatedElements (run actions s).
Proof.
  unfold run. revert s.
  induction actions as [|a actions IH]; intros s Hall; simpl; [done|].
  simpl in Hall. apply andb_true_iff in Hall as [Ha Hall].
  apply negb_true_iff in Ha.
  etrans; [apply (step_keeps_animated a s Ha)|]. by apply IH.
Qed.

End EntranceAnimations.


Section AnimateOnce.
Import Dom Animations.

Example init_observes_scroll_targets :
  map (fun o : gset nat => bool_decide (o = {[7; 8; 9]}%nat))
      (observers (AnimationsExample.started false)) = [true].
Proof. vm_compute. reflexivity. Qed.

(** Counterexample to C3 as stated (after the first call the element is
    in the animated set): with the reduced-motion flag on, the call returns
    at the guard; the element is not recorded and nothing is started. *)
Lemma animateElement_reduced_motion_not_recorded :
  let s := AnimationsExample.started true in
  let s' := animateElement 7 s in
  prefersReducedMotion s = true /\
  (7%nat ∉ animatedElements s') /\
  timers s' = timers s /\ document s' = document s.
Proof.
  cbv zeta.
  assert (Hflag : prefersReducedMotion (AnimationsExample.started true) = true)
    by (vm_compute; reflexivity).
  rewrite (animateElement_reduced _ 7 Hflag).
  split; [exact Hflag|]. split; [|split; reflexivity].
  vm_compute. discriminate.
Qed.

(** C3 (amended). With the reduced-motion flag off, the first
    [animateElement] on an element not yet animated puts it in the
    animated set and starts one animation (one timer is set); from then
    on, whatever else the module does short of [destroy] (other
    animations, observer callbacks, timers coming due, [init], changes of
    the motion setting), the element stays in the set, a further
    [animateElement] on it leaves the state as it is, and an observer
    callback reporting it as intersecting again changes neither the
    document nor the timers.  With the flag on, [animateElement] does
    nothing at all. *)
Theorem animateElement_once (s : State) (element : nat) :
  (prefersReducedMotion s = false -> element ∉ animatedElements s ->
   let s1 := animateElement element s in
   element ∈ animatedElements s1 /\
   Helpers.lastTimer (timers s1) = S (Helpers.lastTimer (timers s)) /\
   is_Some (Helpers.pending (timers s1) !! S (Helpers.lastTimer (timers s))) /\
   animateElement element s1 = s1 /\
   forall actions : list Action,
     forallb (fun a => negb (isDestroy a)) actions = true ->
     let s2 := run actions s1 in
     element ∈ animatedElements s2 /\
     animateElement element s2 = s2 /\
     forall o, document (intersect o [(element, true)] s2) = document s2 /\
               timers (intersect o [(element, true)] s2) = timers s2) /\
  (prefersReducedMotion s = true -> animateElement element s = s).
Proof.
  split; [|apply animateElement_reduced].
  intros Hflag Hnew s1.
  destruct (animateElement_first s element Hflag Hnew) as (Hset & Hlast & Hpend).
  fold s1 in Hset, Hlast, Hpend.
  assert (Hin : element ∈ animatedElements s1).
  { rewrite Hset. apply elem_of_union_l, elem_of_singleton. reflexivity. }
  split; [exact Hin|]. split; [exact Hlast|]. split; [exact Hpend|].
  split; [by apply animateElement_animated|].
  intros actions Hall s2.
  assert (Hin2 : element ∈ animatedElements s2)
    by (by apply (run_keeps_animated actions s1 Hall)).
  split; [exact Hin2|]. split; [by apply animateElement_animated|].
  intros o. unfold intersect; simpl.
  rewrite (animateElement_animated s2 element Hin2). by split.
Qed.

Lemma animateElement_once_witness :
  let s := AnimationsExample.started false in
  prefersReducedMotion s = false /\
  (7%nat ∉ animatedElements s) /\
  let s1 := animateElement 7 s in
  7%nat ∈ animatedElements s1 /\
  animateElement 7 (run [FireTimer 4; Enter (Intersect 0 [(7%nat, true)])] s1)
  = run [FireTimer 4; Enter (Intersect 0 [(7%nat, true)])] s1.
Proof.
  cbv zeta.
  assert (Hflag : prefersReducedMotion (AnimationsExample.started false) = false)
    by (vm_compute; reflexivity).
  assert (Hnew : 7%nat ∉ animatedElements (AnimationsExample.started false))
    by (vm_compute; discriminate).
  split; [exact Hflag|]. split; [exact Hnew|].
  destruct (animateElement_once (AnimationsExample.started false) 7) as [H _].
  destruct (H Hflag Hnew) as (H1 & _ & _ & _ & H5).
  split; [exact H1|].
  destruct (H5 [FireTimer 4; Enter (Intersect 0 [(7%nat, true)])]
               ltac:(vm_compute; reflexivity))
    as (_ & H6 & _).
  exact H6.
Defined.

End AnimateOnce.

Section ReducedMotion.
Import Dom Animations.

Lemma calm_refl (s : State) : calm s s.
Proof. repeat split; auto. Qed.

Lemma calm_trans (s1 s2 s3 : State) : calm s1 s2 -> calm s2 s3 -> calm s1 s3.
Proof.
  intros (Ht1 & Hp1 & Ho1) (Ht2 & Hp2 & Ho2). split; [congruence|]. split.
  - intros i prop Hprop. rewrite Hp2, Hp1; auto.
  - intros i. destruct (Ho2 i) as [H|H]; [rewrite H; apply Ho1 | by right].
Qed.

(** States that differ outside the document and the timers are calm. *)
Lemma calm_same (s s' : State) :
  timers s' = timers s -> document s' = document s -> calm s s'.
Proof.
  intros Ht Hd. unfold calm, styleOf. rewrite Ht, Hd. repeat split; auto.
Qed.

Lemma calm_show (element : nat) (s : State) :
  calm s (setStyle element "opacity" (Text "1") s).
Proof.
  split; [reflexivity|]. split.
  - intros i prop Hprop. by apply styleOf_setStyle_ne.
  - intros i. destruct (decide (i = element)) as [->|Hi].
    + destruct (decide (element < length (document s))%nat) as [Hlen|Hlen].
      * right. by apply styleOf_setStyle_eq.
      * left. unfold styleOf, setStyle, update; simpl.
        by rewrite list_lookup_alter_eq, lookup_ge_None_2 by lia.
    + left. by apply styleOf_setStyle_other.
Qed.

Lemma calm_addClass (element : option nat) (c : string) (s : State) :
  calm s (set_document (Helpers.addClass element c) s).
Proof.
  assert (Hstyle : forall i prop,
            styleOf (set_document (Helpers.addClass element c) s) i prop
            = styleOf s i prop).
  { intros i prop. unfold styleOf, Helpers.addClass, update; simpl.
    destruct element as [el|]; [|done].
    destruct (decide (el = i)) as [->|Hi].
    - rewrite list_lookup_alter_eq. destruct (document s !! i) as [e|]; [|done].
      simpl. by destruct (contains c e).
    - by rewrite list_lookup_alter_ne. }
  split; [reflexivity|]. split; [auto | left; auto].
Qed.

Lemma setupLoadAnimations_reduced (s : State) :
  prefersReducedMotion s = true ->
  setupLoadAnimations s
  = showAll (querySelectorAll (document s) loadSelectors) s.
Proof.
  intros Hflag. unfold setupLoadAnimations, forEach, showAll.
  generalize (querySelectorAll (document s) loadSelectors) as l.
  generalize 0%nat as index. intros index l. revert index s Hflag.
  induction l as [|element l IH]; intros index s Hflag; simpl; [done|].
  rewrite Hflag. apply IH. exact Hflag.
Qed.

Lemma showAll_calm (l : list nat) (s : State) :
  calm s (showAll l s) /\
  prefersReducedMotion (showAll l s) = prefersReducedMotion s /\
  length (document (showAll l s)) = length (document s) /\
  mediaReduce (showAll l s) = mediaReduce s.
Proof.
  unfold showAll. revert s.
  induction l as [|element l IH]; intros s; simpl.
  - split; [apply calm_refl | done].
  - destruct (IH (setStyle element "opacity" (Text "1") s))
      as (Hc & Hf & Hl & Hm).
    split; [eapply calm_trans; [apply calm_show | exact Hc]|].
    split; [rewrite Hf; reflexivity|].
    split; [|rewrite Hm; reflexivity].
    rewrite Hl. unfold setStyle, update; simpl. apply length_alter.
Qed.

Lemma showAll_shown (l : list nat) (s : State) (i : nat) :
  i ∈ l -> (i < length (document s))%nat ->
  styleOf (showAll l s) i "opacity" = Some (Text "1").
Proof.
  unfold showAll. revert s.
  induction l as [|element l IH]; intros s Hin Hlen; simpl.
  - by apply not_elem_of_nil in Hin.
  - set (s1 := setStyle element "opacity" (Text "1") s).
    assert (Hlen1 : (i < length (document s1))%nat)
      by (unfold s1, setStyle, update; simpl; by rewrite length_alter).
    destruct (decide (i ∈ l)) as [Hl|Hl]; [by apply IH|].
    apply elem_of_cons in Hin as [->|Hin]; [|done].
    destruct (showAll_calm l s1) as ((_ & _ & Ho) & _).
    destruct (Ho element) as [H|H]; [|exact H].
    unfold showAll in H. rewrite H. by apply styleOf_setStyle_eq.
Qed.

Lemma querySelectorAll_bound (d : Document) (ss : list Selector) (i : nat) :
  i ∈ querySelectorAll d ss -> (i < length d)%nat.
Proof.
  unfold querySelectorAll. intros Hin.
  apply list_elem_of_filter in Hin as [_ Hin].
  apply elem_of_seq in Hin. lia.
Qed.

Lemma intersect_reduced (o : nat) (entries : list (nat * bool)) (s : State) :
  prefersReducedMotion s = true ->
  let s' := intersect o entries s in
  document s' = document s /\ timers s' = timers s /\
  prefersReducedMotion s' = true /\ mediaReduce s' = mediaReduce s.
Proof.
  unfold intersect. revert s.
  induction entries as [|[target hit] entries IH]; intros s Hflag; simpl;
    [done|].
  destruct hit; simpl; [|by apply IH].
  rewrite (animateElement_reduced s target Hflag).
  match goal with |- context [foldl ?f ?s0 entries] =>
    destruct (IH s0 Hflag) as (Hd & Ht & Hf & Hm) end.
  simpl in Hd, Ht, Hf, Hm. by rewrite Hd, Ht, Hf, Hm.
Qed.

Lemma checkMotionPreferences_reduced (s : State) :
  mediaReduce s = true ->
  let s' := checkMotionPreferences s in
  calm s s' /\ prefersReducedMotion s' = true /\ mediaReduce s' = true /\
  isInitialized s' = isInitialized s.
Proof.
  intros Hm. unfold checkMotionPreferences; simpl. rewrite Hm. simpl.
  split; [|done].
  destruct (calm_addClass (body (document s)) "reduce-motion" s)
    as (Ht & Hp & Ho).
  split; [exact Ht|]. split; [exact Hp | exact Ho].
Qed.

(** What an entry point does under the flag. *)
Lemma enter_reduced (s : State) (p : EntryPoint) :
  prefersReducedMotion s = true ->
  let s' := enter p s in
  calm s s' /\ prefersReducedMotion s' = true /\
  mediaReduce s' = mediaReduce s /\
  (p = SetupLoadAnimations ->
   forall i, i ∈ querySelectorAll (document s) loadSelectors ->
             styleOf s' i "opacity" = Some (Text "1")).
Proof.
  intros Hflag. destruct p as [|element|o entries| |]; simpl.
  - unfold setupScrollAnimations. rewrite Hflag.
    split; [apply calm_refl|]. repeat split; [exact Hflag | discriminate].
  - rewrite (animateElement_reduced s element Hflag).
    split; [apply calm_refl|]. repeat split; [exact Hflag | discriminate].
  - destruct (intersect_reduced o entries s Hflag) as (Hd & Ht & Hf & Hm).
    split; [by apply calm_same|]. repeat split; [exact Hf | exact Hm | discriminate].
  - rewrite (setupLoadAnimations_reduced s Hflag).
    destruct (showAll_calm (querySelectorAll (document s) loadSelectors) s)
      as (Hc & Hf & _ & Hm).
    split; [exact Hc|]. split; [by rewrite Hf|]. split; [exact Hm|].
    intros _ i Hi. apply showAll_shown; [exact Hi|].
    by eapply querySelectorAll_bound.
  - unfold animateMobileMenuItems. rewrite Hflag.
    split; [apply calm_refl|]. repeat split; [exact Hflag | discriminate].
Qed.

(** What [init] does on a system whose setting is [reduce]. *)
Lemma init_reduced (s : State) :
  mediaReduce s = true -> isInitialized s = false ->
  let s' := init s in
  calm s s' /\ prefersReducedMotion s' = true /\ mediaReduce s' = true /\
  forall i,
    i ∈ querySelectorAll (document (checkMotionPreferences s)) loadSelectors ->
    styleOf s' i "opacity" = Some (Text "1").
Proof.
  intros Hm Hinit. unfold init. rewrite Hinit.
  destruct (checkMotionPreferences_reduced s Hm) as (Hc0 & Hf0 & Hm0 & _).
  set (s0 := checkMotionPreferences s) in *.
  unfold setupScrollAnimations. rewrite Hf0.
  unfold setupHoverEffects. rewrite Hf0.
  rewrite (setupLoadAnimations_reduced s0 Hf0).
  destruct (showAll_calm (querySelectorAll (document s0) loadSelectors) s0)
    as (Hc & Hf & _ & Hm1).
  set (s1 := showAll (querySelectorAll (document s0) loadSelectors) s0) in *.
  cbv zeta. split.
  { eapply calm_trans; [exact Hc0|]. eapply calm_trans; [exact Hc|].
    by apply calm_same. }
  split; [simpl; by rewrite Hf|].
  split; [simpl; by rewrite Hm1|].
  intros i Hi.
  change (styleOf s1 i "opacity" = Some (Text "1")).
  apply showAll_shown; [exact Hi|]. by eapply querySelectorAll_bound.
Qed.

(** One step of the module while the setting stays [reduce], from a state
    with the flag on and no timer pending. *)
Lemma step_reduced (a : Action) (s : State) :
  mediaReduce s = true -> prefersReducedMotion s = true ->
  Helpers.pending (timers s) = ∅ -> keepsReduced a = true ->
  let s' := step a s in
  calm s s' /\ mediaReduce s' = true /\ prefersReducedMotion s' = true.
Proof.
  intros Hm Hflag Hpend Ha. destruct a as [p| |m|id|]; simpl.
  - destruct (enter_reduced s p Hflag) as (Hc & Hf & Hm' & _).
    split; [exact Hc|]. split; [by rewrite Hm' | exact Hf].
  - destruct (isInitialized s) eqn:Hinit.
    + unfold init. rewrite Hinit. split; [apply calm_refl | done].
    + destruct (init_reduced s Hm Hinit) as (Hc & Hf & Hm' & _). done.
  - destruct m; [|discriminate]. unfold mediaChange; simpl.
    destruct (eventsBound s).
    + match goal with |- context [checkMotionPreferences ?s0] =>
        destruct (checkMotionPreferences_reduced s0 eq_refl)
          as (Hc & Hf & Hm' & _) end.
      split; [|done]. eapply calm_trans; [|exact Hc]. by apply calm_same.
    + split; [by apply calm_same | done].
  - unfold fireTimer. rewrite Hpend, lookup_empty.
    split; [apply calm_refl | done].
  - split; [by apply calm_same | done].
Qed.

(** However the module is driven while the setting stays [reduce]
    (entry points, [init], [destroy], timers), from a state with the flag
    on and no timer pending: no timer is ever set, no inline declaration
    other than [opacity] ever changes, and [opacity] only ever becomes 1. *)
Corollary run_reduced (actions : list Action) (s : State) :
  mediaReduce s = true -> prefersReducedMotion s = true ->
  Helpers.pending (timers s) = ∅ ->
  forallb keepsReduced actions = true ->
  calm s (run actions s) /\ prefersReducedMotion (run actions s) = true.
Proof.
  unfold run. revert s.
  induction actions as [|a actions IH]; intros s Hm Hflag Hpend Hall; simpl.
  - split; [apply calm_refl | exact Hflag].
  - simpl in Hall. apply andb_true_iff in Hall as [Ha Hall].
    destruct (step_reduced a s Hm Hflag Hpend Ha) as (Hc & Hm' & Hf').
    assert (Hpend' : Helpers.pending (timers (step a s)) = ∅)
      by (destruct Hc as (Ht & _); by rewrite Ht).
    destruct (IH (step a s) Hm' Hf' Hpend' Hall) as (Hc' & Hf'').
    split; [by eapply calm_trans | exact Hf''].
Qed.

(** Under the flag only the load animations write to the page. *)
Lemma enter_reduced_document (s : State) (p : EntryPoint) :
  prefersReducedMotion s = true -> p ≠ SetupLoadAnimations ->
  document (enter p s) = document s.
Proof.
  intros Hflag Hp. destruct p as [|element|o entries| |]; simpl.
  - unfold setupScrollAnimations. by rewrite Hflag.
  - by rewrite (animateElement_reduced s element Hflag).
  - by destruct (intersect_reduced o entries s Hflag) as (Hd & _).
  - done.
  - unfold animateMobileMenuItems. by rewrite Hflag.
Qed.

(** Under the flag the scroll set-up, [animateElement] and the mobile-menu
    items return at their first line. *)
Lemma enter_reduced_nothing (s : State) (p : EntryPoint) :
  prefersReducedMotion s = true -> p ≠ SetupLoadAnimations ->
  (forall o entries, p ≠ Intersect o entries) ->
  enter p s = s.
Proof.
  intros Hflag Hp Hi. destruct p as [|element|o entries| |]; simpl.
  - unfold setupScrollAnimations. by rewrite Hflag.
  - by apply animateElement_reduced.
  - by destruct (Hi o entries).
  - done.
  - unfold animateMobileMenuItems. by rewrite Hflag.
Qed.

(** The loops of the module leave the flags alone. *)
Lemma forEachFrom_flags (f : nat -> nat -> State -> State) (index : nat)
    (l : list nat) (s : State) :
  (forall element index s,
     prefersReducedMotion (f element index s) = prefersReducedMotion s /\
     eventsBound (f element index s) = eventsBound s) ->
  prefersReducedMotion (forEachFrom f index l s) = prefersReducedMotion s /\
  eventsBound (forEachFrom f index l s) = eventsBound s.
Proof.
  intros Hf. revert index s.
  induction l as [|element l IH]; intros index s; cbn [forEachFrom]; [done|].
  destruct (IH (S index) (f element index s)) as [H1 H2].
  destruct (Hf element index s) as [H3 H4]. split; congruence.
Qed.

(** [init] sets the flag to the system setting and binds the change
    listener. *)
Lemma init_flag (s : State) :
  isInitialized s = false ->
  prefersReducedMotion (init s) = mediaReduce s /\
  eventsBound (init s) = true.
Proof.
  intros Hinit. unfold init. rewrite Hinit. cbv zeta.
  cbn [log set_isInitialized bindEvents set_eventsBound prefersReducedMotion
         eventsBound].
  split; [|reflexivity].
  unfold setupLoadAnimations, forEach.
  match goal with |- prefersReducedMotion (forEachFrom ?f ?i ?l ?s0) = _ =>
    destruct (forEachFrom_flags f i l s0) as [-> _] end.
  { intros element index s0.
    destruct (prefersReducedMotion s0) eqn:E; (split; [exact E | reflexivity]). }
  assert (H : forall s0, prefersReducedMotion (setupHoverEffects s0)
                         = prefersReducedMotion s0)
    by (intros s0; unfold setupHoverEffects;
        destruct (prefersReducedMotion s0) eqn:E; [exact E | exact E]).
  rewrite H. clear H.
  assert (H : forall s0, prefersReducedMotion (setupScrollAnimations s0)
                         = prefersReducedMotion s0)
    by (intros s0; unfold setupScrollAnimations;
        destruct (prefersReducedMotion s0) eqn:E; [exact E | exact E]).
  rewrite H. clear H.
  unfold checkMotionPreferences. cbv zeta.
  cbn [prefersReducedMotion set_prefersReducedMotion].
  by destruct (mediaReduce s).
Qed.

(** The change listener, when the setting turns to [reduce]. *)
Lemma mediaChange_reduced (s : State) :
  eventsBound s = true ->
  let s' := mediaChange true s in
  calm s s' /\ prefersReducedMotion s' = true /\ mediaReduce s' = true.
Proof.
  intros Hb. unfold mediaChange. cbv zeta.
  cbn [eventsBound set_mediaReduce]. rewrite Hb.
  match goal with |- context [checkMotionPreferences ?s0] =>
    destruct (checkMotionPreferences_reduced s0 eq_refl)
      as (Hc & Hf & Hm & _) end.
  split; [|done]. eapply calm_trans; [|exact Hc]. by apply calm_same.
Qed.

(** An element shown stays shown over a calm stretch. *)
Lemma calm_shown (s s' : State) (i : nat) :
  calm s s' -> styleOf s i "opacity" = Some (Text "1") ->
  styleOf s' i "opacity" = Some (Text "1").
Proof.
  intros (_ & _ & Ho) Hs. destruct (Ho i) as [H|H]; [by rewrite H | exact H].
Qed.

(** C6 (amended).  What the flag [prefersReducedMotion] guarantees, and
    how the flag follows the system setting.

    - While the flag is on, whichever way the entrance-animation code is
      entered (scroll-animation setup, [animateElement], an observer
      callback, load animations, mobile-menu items), the call sets no
      timer, leaves every inline declaration other than [opacity] as it
      was (so no element gets a [transition] or a [transform]), touches
      [opacity] only to set it to 1, and leaves the flag on.  The load
      animations set the opacity of every element they select to 1 on the
      spot; every other entry point leaves the document as it is: an
      element it would have animated is not shown by it, it keeps the
      opacity it had, and it is not recorded as animated.  The scroll
      set-up, [animateElement] and the mobile-menu items do nothing at
      all (no observer is created).
    - [init], on a module not yet initialised, sets the flag to the
      system setting and binds the change listener.  On a system whose
      setting is [reduce] it sets no timer, writes no [transition] or
      [transform] and shows the elements of the load animations; if no
      timer was pending, this stays so however the module is driven
      afterwards (entry points, [init], [destroy], timers) for as long as
      the setting stays [reduce].
    - When the setting turns to [reduce] with the listener bound, the
      listener turns the flag on, setting no timer and writing no
      [transition] or [transform]; if no timer was pending at that
      moment, this stays so however the module is driven afterwards for
      as long as the setting stays [reduce]. *)
Theorem reduced_motion_no_transition (s : State) :
  (prefersReducedMotion s = true ->
   forall p : EntryPoint,
     let s' := enter p s in
     calm s s' /\ prefersReducedMotion s' = true /\
     (p = SetupLoadAnimations ->
      forall i, i ∈ querySelectorAll (document s) loadSelectors ->
                styleOf s' i "opacity" = Some (Text "1")) /\
     (p ≠ SetupLoadAnimations ->
      document s' = document s /\
      animatedElements s' = animatedElements s /\
      ((forall o entries, p ≠ Intersect o entries) -> s' = s))) /\
  (isInitialized s = false ->
   prefersReducedMotion (init s) = mediaReduce s /\
   eventsBound (init s) = true) /\
  (mediaReduce s = true -> isInitialized s = false ->
   let s' := init s in
   calm s s' /\ prefersReducedMotion s' = true /\
   (forall i,
      i ∈ querySelectorAll (document (checkMotionPreferences s)) loadSelectors ->
      styleOf s' i "opacity" = Some (Text "1")) /\
   (Helpers.pending (timers s) = ∅ ->
    forall actions, forallb keepsReduced actions = true ->
      let s'' := run actions s' in
      calm s s'' /\ prefersReducedMotion s'' = true /\
      forall i,
        i ∈ querySelectorAll (document (checkMotionPreferences s))
              loadSelectors ->
        styleOf s'' i "opacity" = Some (Text "1"))) /\
  (eventsBound s = true ->
   let s' := mediaChange true s in
   calm s s' /\ prefersReducedMotion s' = true /\
   (Helpers.pending (timers s) = ∅ ->
    forall actions, forallb keepsReduced actions = true ->
      let s'' := run actions s' in
      calm s s'' /\ prefersReducedMotion s'' = true)).
Proof.
  split; [|split; [|split]].
  - intros Hflag p.
    destruct (enter_reduced s p Hflag) as (Hc & Hf & _ & Hshown).
    split; [exact Hc|]. split; [exact Hf|]. split; [exact Hshown|].
    intros Hp. split; [by apply enter_reduced_document|]. split.
    + destruct p as [|element|o entries| |]; simpl.
      * unfold setupScrollAnimations. by rewrite Hflag.
      * by rewrite (animateElement_reduced s element Hflag).
      * clear Hc Hf Hshown Hp. revert s Hflag.
        induction entries as [|[target hit] entries IH]; intros s Hflag;
          [done|].
        cbn [intersect foldl fst snd]. destruct hit; [|by apply IH].
        rewrite (animateElement_reduced s target Hflag).
        match goal with |- context [foldl ?f ?s0 entries] =>
          change (animatedElements (intersect o entries s0)
                  = animatedElements s) end.
        by rewrite IH.
      * done.
      * unfold animateMobileMenuItems. by rewrite Hflag.
    + intros Hi. by apply enter_reduced_nothing.
  - apply init_flag.
  - intros Hm Hinit.
    destruct (init_reduced s Hm Hinit) as (Hc & Hf & Hm' & Hshown).
    cbv zeta. split; [exact Hc|]. split; [exact Hf|]. split; [exact Hshown|].
    intros Hpend actions Hall.
    assert (Hpend' : Helpers.pending (timers (init s)) = ∅)
      by (destruct Hc as (Ht & _); by rewrite Ht).
    destruct (run_reduced actions (init s) Hm' Hf Hpend' Hall) as (Hc' & Hf').
    split; [by eapply calm_trans|]. split; [exact Hf'|].
    intros i Hi. eapply calm_shown; [exact Hc' | by apply Hshown].
  - intros Hb.
    destruct (mediaChange_reduced s Hb) as (Hc & Hf & Hm).
    cbv zeta. split; [exact Hc|]. split; [exact Hf|].
    intros Hpend actions Hall.
    assert (Hpend' : Helpers.pending (timers (mediaChange true s)) = ∅)
      by (destruct Hc as (Ht & _); by rewrite Ht).
    destruct (run_reduced actions (mediaChange true s) Hm Hf Hpend' Hall)
      as (Hc' & Hf').
    split; [by eapply calm_trans | exact Hf'].
Qed.


Lemma reduced_motion_no_transition_witness :
  let s := AnimationsExample.fresh true in
  let u := run [FireTimer 1; FireTimer 2; FireTimer 3]
               (AnimationsExample.started false) in
  (mediaReduce s = true /\ isInitialized s = false /\
   Helpers.pending (timers s) = ∅) /\
  (eventsBound u = true /\ Helpers.pending (timers u) = ∅ /\
   mediaReduce u = false) /\
  let s' := init s in
  let drive := [Enter (AnimateElement 7); Enter SetupScrollAnimations;
                Destroy; Init; FireTimer 1; MediaChange true;
                Enter (Intersect 0 [(9%nat, true)])] in
  prefersReducedMotion s' = true /\ eventsBound s' = true /\
  styleOf s' 1 "opacity" = Some (Text "1") /\
  timers (enter (AnimateElement 7) s') = timers s /\
  document (enter (AnimateElement 7) s') = document s' /\
  styleOf (enter SetupLoadAnimations s') 4 "transition" = None /\
  timers (run drive s') = timers s /\
  styleOf (run drive s') 4 "opacity" = Some (Text "1") /\
  prefersReducedMotion (mediaChange true u) = true /\
  timers (run drive (mediaChange true u)) = timers u.
Proof.
  intros s u.
  assert (Hm : mediaReduce s = true) by reflexivity.
  assert (Hi : isInitialized s = false) by reflexivity.
  assert (Hp : Helpers.pending (timers s) = ∅) by reflexivity.
  assert (Hb : eventsBound u = true) by (vm_compute; reflexivity).
  assert (Hpu : Helpers.pending (timers u) = ∅) by (vm_compute; reflexivity).
  assert (Hmu : mediaReduce u = false) by (vm_compute; reflexivity).
  split; [done|]. split; [done|]. intros s' drive.
  assert (Hall : forallb keepsReduced drive = true) by reflexivity.
  assert (Hload : 1%nat ∈ querySelectorAll (document (checkMotionPreferences s))
                          loadSelectors)
    by (apply (bool_decide_unpack _); vm_compute; exact I).
  assert (Hload4 : 4%nat ∈ querySelectorAll (document (checkMotionPreferences s))
                           loadSelectors)
    by (apply (bool_decide_unpack _); vm_compute; exact I).
  destruct (reduced_motion_no_transition s) as (_ & Hflag & Hinit & _).
  destruct (Hflag Hi) as [_ Hbound].
  destruct (Hinit Hm Hi) as ((Ht & _) & Hf & Hshown & Hrun).
  destruct (Hrun Hp drive Hall) as ((Htr & _) & _ & Hshown').
  destruct (reduced_motion_no_transition s') as (Henter & _).
  destruct (Henter Hf (AnimateElement 7)) as ((Ht1 & _) & _ & _ & Hd1').
  assert (Hd1 : document (enter (AnimateElement 7) (init s)) = document (init s))
    by (apply Hd1'; discriminate).
  destruct (Henter Hf SetupLoadAnimations) as ((_ & Hp2 & _) & _).
  destruct (reduced_motion_no_transition u) as (_ & _ & _ & Hchange).
  destruct (Hchange Hb) as (_ & Hfu & Hrunu).
  destruct (Hrunu Hpu drive Hall) as ((Htu & _) & _).
  split; [exact Hf|]. split; [exact Hbound|].
  split; [by apply Hshown|].
  split; [exact (eq_trans Ht1 Ht)|].
  split; [exact Hd1|].
  split; [rewrite Hp2 by discriminate; vm_compute; reflexivity|].
  split; [exact Htr|]. split; [by apply Hshown'|].
  split; [exact Hfu | exact Htu].
Defined.

(** Counterexample to C6 as stated (whenever the preference is active, no
    element receives a transition and elements appear at full opacity at
    once).  On the example page the module is initialised with motion
    allowed and the load animations have run.

    First, [animateElement] starts on the heading, which hides it and sets
    a timer; then the system setting turns to [reduce].  The flag is on
    and the setting active, yet the heading stays at opacity 0, and when
    the timer comes due it receives the 600ms transition.

    Second, [animateElement] starts on the laptop frame and its timer
    reveals the frame, setting the timer for the screen content; then the
    setting turns to [reduce].  When that timer comes due, with the
    setting active, the content of the screen is hidden (it was not
    before) and gets a timer of its own, which gives it a 480ms
    transition. *)
Lemma reduced_motion_pending_reveal_runs :
  let s := run [FireTimer 1; FireTimer 2; FireTimer 3]
               (AnimationsExample.started false) in
  (let s1 := enter (AnimateElement 7) s in
   let s2 := mediaChange true s1 in
   let s3 := fireTimer 4 s2 in
   mediaReduce s2 = true /\ prefersReducedMotion s2 = true /\
   styleOf s2 7 "opacity" = Some (Text "0") /\
   styleOf s3 7 "opacity" = Some (Text "1") /\
   styleOf s3 7 "transition" = Some (TransitionAll 600 animationEasing)) /\
  (let s1 := fireTimer 4 (enter (AnimateElement 9) s) in
   let s2 := mediaChange true s1 in
   let s3 := fireTimer 5 s2 in
   let s4 := fireTimer 6 s3 in
   mediaReduce s2 = true /\ prefersReducedMotion s2 = true /\
   styleOf s2 11 "opacity" = None /\
   styleOf s3 11 "opacity" = Some (Text "0") /\
   Helpers.pending (timers s3) !! 6%nat
   = Some (0%Q, Reveal 11 (TransitionAll 480 animationEasing) "translateY(0)") /\
   styleOf s4 11 "opacity" = Some (Text "1") /\
   styleOf s4 11 "transition" = Some (TransitionAll 480 animationEasing)).
Proof. vm_compute. repeat split. Qed.

End ReducedMotion.


Section LaptopSizing.
Import Dom LaptopEnhancer.

(** The six tiers of the ladder. *)
Lemma maxWidthFor_tiers (w : Z) :
  (1400 <= w -> maxWidthFor w = "800px"%string) /\
  (1200 <= w < 1400 -> maxWidthFor w = "750px"%string) /\
  (992 <= w < 1200 -> maxWidthFor w = "650px"%string) /\
  (768 <= w < 992 -> maxWidthFor w = "580px"%string) /\
  (576 <= w < 768 -> maxWidthFor w = "520px"%string) /\
  (w < 576 -> maxWidthFor w = "450px"%string).
Proof. unfold maxWidthFor. repeat split; intros; zify_cmp; (reflexivity || lia). Qed.

(** Frame and showcase get the image width plus 50px. *)
Lemma plusFifty_tiers :
  map plusFifty ["800px"; "750px"; "650px"; "580px"; "520px"; "450px"]%string
  = ["850px"; "800px"; "700px"; "630px"; "570px"; "500px"]%string.
Proof. vm_compute. reflexivity. Qed.

Lemma resizeListener_frame (s : State) :
  document (resizeListener s) = document s /\
  timers (resizeListener s) = timers s /\
  innerWidth (resizeListener s) = innerWidth s /\
  laptopImage (resizeListener s) = laptopImage s /\
  laptopFrame (resizeListener s) = laptopFrame s /\
  laptopShowcase (resizeListener s) = laptopShowcase s.
Proof. repeat split. Qed.

(** A resize changes the window width and creates closures, and nothing
    else: no element is restyled and no timer is set that would. *)
Lemma resize_frame (w : Z) (s : State) :
  document (resize w s) = document s /\
  timers (resize w s) = timers s /\
  innerWidth (resize w s) = w /\
  laptopImage (resize w s) = laptopImage s /\
  laptopFrame (resize w s) = laptopFrame s /\
  laptopShowcase (resize w s) = laptopShowcase s.
Proof.
  unfold resize. induction (resizeListeners s) as [|n IH]; simpl; [done|].
  destruct (resizeListener_frame (Nat.iter n resizeListener (set_innerWidth w s)))
    as (H1 & H2 & H3 & H4 & H5 & H6).
  destruct IH as (I1 & I2 & I3 & I4 & I5 & I6).
  repeat split; congruence.
Qed.

(** C9. The listener [enhanceLaptopSize] puts on [resize] only builds a
    debounced closure and drops it, so whatever the state and the new width,
    a resize leaves the [max-width] of image, frame and showcase as it was
    and sets no timer.  After [setup] in a window 1500 pixels wide the image
    has [max-width: 800px] and frame and showcase [850px]; resized to 500
    pixels they still have, whereas running [adjustSizeForViewport] would
    set [450px] and [500px]. *)
Theorem resize_does_not_adjust :
  (forall (s : State) (w : Z),
     let s' := resize w s in
     innerWidth s' = w /\
     maxWidthOf s' (laptopImage s') = maxWidthOf s (laptopImage s) /\
     maxWidthOf s' (laptopFrame s') = maxWidthOf s (laptopFrame s) /\
     maxWidthOf s' (laptopShowcase s') = maxWidthOf s (laptopShowcase s) /\
     timers s' = timers s) /\
  (let s := setup (LaptopExample.fresh 1500) in
   let s' := resize 500 s in
   let s'' := adjustSizeForViewport s' in
   maxWidthOf s (laptopImage s) = Some (Text "800px") /\
   maxWidthOf s (laptopFrame s) = Some (Text "850px") /\
   maxWidthOf s (laptopShowcase s) = Some (Text "850px") /\
   maxWidthOf s' (laptopImage s') = Some (Text "800px") /\
   Helpers.pending (timers s') = ∅ /\
   maxWidthOf s'' (laptopImage s'') = Some (Text "450px") /\
   maxWidthOf s'' (laptopFrame s'') = Some (Text "500px")).
Proof.
  split.
  - intros s w s'.
    destruct (resize_frame w s) as (Hd & Ht & Hw & Hi & Hf & Hs).
    fold s' in Hd, Ht, Hw, Hi, Hf, Hs.
    unfold maxWidthOf. rewrite Hd, Hi, Hf, Hs.
    split; [exact Hw|]. split; [reflexivity|]. split; [reflexivity|].
    split; [reflexivity | exact Ht].
  - vm_compute. repeat split.
Qed.

End LaptopSizing.


(** * Further properties of the scripts *)

Section ViewportClasses.
Import ViewportUtils.

(** X1. A wider viewport never gets a narrower breakpoint label. *)
Theorem breakpoint_monotone (a b : Window) :
  width (getViewportSize a) <= width (getViewportSize b) ->
  (rank (getCurrentBreakpoint a) <= rank (getCurrentBreakpoint b))%nat.
Proof.
  intros Hw. unfold getCurrentBreakpoint.
  pose proof (breakpointOf_spec (width (getViewportSize a))) as Ha.
  pose proof (breakpointOf_spec (width (getViewportSize b))) as Hb.
  destruct (breakpointOf (width (getViewportSize a)));
    destruct (breakpointOf (width (getViewportSize b))); simpl; lia.
Qed.

Lemma breakpoint_monotone_witness :
  width (getViewportSize (windowOfWidth 767))
    <= width (getViewportSize (windowOfWidth 768)) /\
  (rank (getCurrentBreakpoint (windowOfWidth 767))
     <= rank (getCurrentBreakpoint (windowOfWidth 768)))%nat.
Proof.
  assert (H : width (getViewportSize (windowOfWidth 767))
                <= width (getViewportSize (windowOfWidth 768)))
    by (vm_compute; discriminate).
  split; [exact H | exact (breakpoint_monotone _ _ H)].
Defined.

(** X2. Every window is exactly one of mobile, tablet and desktop; a
    mobile window has breakpoint [xs], [sm] or [md], a tablet window [md]
    or [lg], a desktop window [lg] or [xl]; and [isBreakpoint] accepts the
    current label and no other string. *)
Theorem device_classes_partition (win : Window) :
  ((isMobile win = true /\ isTablet win = false /\ isDesktop win = false) \/
   (isMobile win = false /\ isTablet win = true /\ isDesktop win = false) \/
   (isMobile win = false /\ isTablet win = false /\ isDesktop win = true)) /\
  (isMobile win = true -> (rank (getCurrentBreakpoint win) <= 2)%nat) /\
  (isTablet win = true -> (2 <= rank (getCurrentBreakpoint win) <= 3)%nat) /\
  (isDesktop win = true -> (3 <= rank (getCurrentBreakpoint win))%nat) /\
  (forall name : string,
     isBreakpoint name win = true <-> name = labelOf (getCurrentBreakpoint win)).
Proof.
  unfold isMobile, isTablet, isDesktop, getCurrentBreakpoint.
  pose proof (breakpointOf_spec (width (getViewportSize win))) as Hb.
  set (w := width (getViewportSize win)) in *.
  split; [|split; [|split; [|split]]].
  - zify_cmp; simpl; try lia; auto.
  - rewrite Z.leb_le. destruct (breakpointOf w); simpl; lia.
  - rewrite andb_true_iff, Z.ltb_lt, Z.leb_le.
    destruct (breakpointOf w); simpl; lia.
  - rewrite Z.ltb_lt. destruct (breakpointOf w); simpl; lia.
  - intros name. unfold isBreakpoint, getCurrentBreakpoint. fold w.
    rewrite bool_decide_eq_true. split; congruence.
Qed.

Lemma device_classes_partition_witness :
  isTablet (windowOfWidth 1024) = true /\
  (2 <= rank (getCurrentBreakpoint (windowOfWidth 1024)) <= 3)%nat.
Proof.
  assert (H : isTablet (windowOfWidth 1024) = true) by (vm_compute; reflexivity).
  split; [exact H|].
  destruct (device_classes_partition (windowOfWidth 1024)) as (_ & _ & Ht & _).
  exact (Ht H).
Defined.

End ViewportClasses.

(** ** Scroll lock *)

Section ParseInt.
Import JsString.

Lemma digit_of_pretty_N_char (d : N) :
  (d < 10)%N -> digit_of (pretty_N_char d) = Some (Z.of_N d).
Proof.
  intros Hd.
  assert (d = 0 \/ d = 1 \/ d = 2 \/ d = 3 \/ d = 4 \/ d = 5 \/ d = 6 \/
          d = 7 \/ d = 8 \/ d = 9)%N as H by lia.
  repeat (destruct H as [->|H]; [reflexivity|]). subst. reflexivity.
Qed.

(** No digit is white space or a sign. *)
Lemma parseInt10_digit_head (d : N) (r : string) :
  (d < 10)%N ->
  parseInt10 (String (pretty_N_char d) r) = digits None (String (pretty_N_char d) r).
Proof.
  intros Hd.
  assert (d = 0 \/ d = 1 \/ d = 2 \/ d = 3 \/ d = 4 \/ d = 5 \/ d = 6 \/
          d = 7 \/ d = 8 \/ d = 9)%N as H by lia.
  repeat (destruct H as [->|H]; [reflexivity|]). subst. reflexivity.
Qed.

Lemma pretty_N_go_head (x : N) (s : string) :
  (0 < x)%N ->
  exists d r, (d < 10)%N /\ pretty_N_go x s = String (pretty_N_char d) r.
Proof.
  revert s. induction (N.lt_wf_0 x) as [x _ IH]. intros s Hx.
  rewrite pretty_N_go_step by exact Hx.
  destruct (decide (x `div` 10 = 0)%N) as [Hz|Hz].
  - rewrite Hz, pretty_N_go_0. exists (x `mod` 10)%N, s.
    split; [apply N.mod_lt; lia | reflexivity].
  - apply IH; [apply N.div_lt; lia|].
    destruct (x `div` 10)%N; [congruence | lia].
Qed.

(** Reading back the digits [pretty_N_go] writes in front of [s]. *)
Lemma digits_pretty_N_go (x : N) (s : string) (acc : option Z) :
  (0 < x)%N ->
  exists k : Z, 0 <= k /\
    digits acc (pretty_N_go x s)
    = digits (Some (default 0 acc * 10 ^ k + Z.of_N x)) s.
Proof.
  revert s acc. induction (N.lt_wf_0 x) as [x _ IH]. intros s acc Hx.
  rewrite pretty_N_go_step by exact Hx.
  assert (Hmod : (x `mod` 10 < 10)%N) by (apply N.mod_lt; lia).
  assert (Hx10 : Z.of_N x = 10 * Z.of_N (x `div` 10) + Z.of_N (x `mod` 10)).
  { rewrite (N.div_mod x 10) at 1 by lia. lia. }
  destruct (decide (x `div` 10 = 0)%N) as [Hz|Hz].
  - rewrite Hz, pretty_N_go_0. exists 1. split; [lia|]. simpl digits.
    rewrite (digit_of_pretty_N_char _ Hmod). f_equal. f_equal.
    rewrite Hx10, Hz. lia.
  - assert (Hpos : (0 < x `div` 10)%N)
      by (destruct (x `div` 10)%N; [congruence | lia]).
    destruct (IH (x `div` 10)%N ltac:(apply N.div_lt; lia)
                (String (pretty_N_char (x `mod` 10)) s) acc Hpos)
      as (k & Hk & ->).
    exists (k + 1). split; [lia|]. simpl digits.
    rewrite (digit_of_pretty_N_char _ Hmod). f_equal. f_equal.
    rewrite Hx10, Z.pow_add_r by lia. cbn [default]. lia.
Qed.

Lemma digits_pretty_pos (p : positive) :
  digits None (pretty (N.pos p)) = Some (Z.pos p).
Proof.
  unfold pretty, pretty_N. rewrite decide_False by discriminate.
  destruct (digits_pretty_N_go (N.pos p) "" None ltac:(lia)) as (k & _ & ->).
  simpl. reflexivity.
Qed.

Lemma parseInt10_pretty_pos (p : positive) :
  parseInt10 (pretty (N.pos p)) = Some (Z.pos p).
Proof.
  rewrite <- digits_pretty_pos.
  unfold pretty, pretty_N. rewrite decide_False by discriminate.
  destruct (pretty_N_go_head (N.pos p) "" ltac:(lia)) as (d & r & Hd & ->).
  apply parseInt10_digit_head, Hd.
Qed.

(** [parseInt(n.toString(), 10)] is [n], for every integer. *)
Lemma parseInt10_toString (n : Z) : parseInt10 (toString n) = Some n.
Proof.
  unfold toString, pretty, pretty_Z. destruct n as [|p|p].
  - reflexivity.
  - apply parseInt10_pretty_pos.
  - change (Z.opp <$> digits None (pretty (N.pos p)) = Some (Z.neg p)).
    rewrite digits_pretty_pos. reflexivity.
Qed.

Lemma toString_truthy (n : Z) : truthy (Some (toString n)) = true.
Proof.
  pose proof (parseInt10_toString n) as H.
  destruct (toString n); [discriminate H | reflexivity].
Qed.

End ParseInt.

Section LockUnlock.
Import Dom ViewportUtils.

(** X3. On a page that is scrolled down ([scrollY > 0]), [lockScroll]
    then [unlockScroll] is a round trip: the locked body is fixed at
    [-scrollY px] and carries the offset in [data-scroll-y]; unlocking
    issues one more [scrollTo(0, y)] with the offset read back from the
    attribute, leaves the window at it, and removes the attribute and the
    three inline styles, every other style and the class list staying as
    they were.  At the top of the page the text assigned to [top] is
    [-0px], and above it (an overscrolled page) [--<n>px]; the style
    engine rewrites the first and drops the second, so these offsets are
    left out. *)
Theorem lock_unlock_restores (p : Page) :
  0 < y (getScrollPosition (win p)) ->
  let scrollY := y (getScrollPosition (win p)) in
  let locked := lockScroll p in
  let p' := unlockScroll locked in
  (style (body locked) !! "position" = Some (Text "fixed") /\
   style (body locked) !! "top"
     = Some (Text ("-" +:+ JsString.toString scrollY +:+ "px")) /\
   style (body locked) !! "width" = Some (Text "100%") /\
   getAttribute "data-scroll-y" (body locked) = Some (JsString.toString scrollY) /\
   win locked = win p /\ scrollToCalls locked = scrollToCalls p) /\
  (scrollToCalls p' = scrollToCalls p ++ [(0, Some scrollY)] /\
   pageYOffset (win p') = scrollY /\
   getAttribute "data-scroll-y" (body p') = None /\
   style (body p') !! "position" = None /\
   style (body p') !! "top" = None /\
   style (body p') !! "width" = None /\
   classList (body p') = classList (body p) /\
   (forall prop, prop ≠ "position" -> prop ≠ "top" -> prop ≠ "width" ->
      style (body p') !! prop = style (body p) !! prop)).
Proof.
  intros _ scrollY locked p'.
  assert (Hattr : getAttribute "data-scroll-y" (body locked)
                  = Some (JsString.toString scrollY)).
  { unfold locked, lockScroll, getAttribute; simpl. apply lookup_insert_eq. }
  split.
  - unfold locked, lockScroll; simpl.
    repeat split; try exact Hattr.
    + rewrite lookup_insert_ne by done. rewrite lookup_insert_ne by done.
      apply lookup_insert_eq.
    + rewrite lookup_insert_ne by done. apply lookup_insert_eq.
    + apply lookup_insert_eq.
  - unfold p', unlockScroll. fold locked. rewrite Hattr.
    rewrite toString_truthy. cbn [default from_option id].
    rewrite parseInt10_toString.
    unfold locked, lockScroll, getAttribute; simpl.
    repeat split.
    + apply lookup_delete_eq.
    + rewrite lookup_delete_ne by done. rewrite lookup_delete_ne by done.
      apply lookup_delete_eq.
    + rewrite lookup_delete_ne by done. apply lookup_delete_eq.
    + apply lookup_delete_eq.
    + intros prop H1 H2 H3.
      by rewrite !lookup_delete_ne, !lookup_insert_ne.
Qed.

Lemma lock_unlock_restores_witness :
  let p := unlockedPage in
  0 < y (getScrollPosition (win p)) /\
  style (body (lockScroll p)) !! "top" = Some (Text "-350px") /\
  scrollToCalls (unlockScroll (lockScroll p)) = [(0, Some 350)] /\
  style (body (unlockScroll (lockScroll p))) !! "top" = None /\
  style (body (unlockScroll (lockScroll p))) !! "opacity" = Some (Text "1").
Proof.
  intros p.
  assert (Hpos : 0 < y (getScrollPosition (win p))) by (vm_compute; reflexivity).
  split; [exact Hpos|].
  destruct (lock_unlock_restores p Hpos)
    as ((_ & Htop & _) & Hcalls & _ & _ & _ & Htop' & _ & _ & Hother).
  split; [rewrite Htop; vm_compute; reflexivity|].
  split; [rewrite Hcalls; vm_compute; reflexivity|].
  split; [exact Htop'|].
  rewrite Hother by discriminate. vm_compute. reflexivity.
Defined.

End LockUnlock.

(** ** Debounce and throttle *)

Section Bursts.
Import Helpers.
Context {F T : Type}.

Lemma timersFresh_setTimeout (task : T) (delay : Z) (q : Timers Z T) :
  timersFresh q -> timersFresh (snd (setTimeout task delay q)).
Proof.
  intros Hq id Hid. simpl in *. rewrite lookup_insert_ne by lia.
  apply Hq. lia.
Qed.

Lemma timersFresh_clearTimeout (id : option nat) (q : Timers Z T) :
  timersFresh q -> timersFresh (clearTimeout id q).
Proof.
  intros Hq i Hi. destruct id as [j|]; simpl in *; [|by apply Hq].
  destruct (decide (j = i)) as [->|Hne].
  - apply lookup_delete_eq.
  - rewrite lookup_delete_ne by done. by apply Hq.
Qed.

Lemma executedFunction_eq (laterTask : T) (c : Debounced F) (q : Timers Z T) :
  executedFunction laterTask c q
  = ({| func := func c; wait := wait c; immediate := immediate c;
        timeout := Some (S (lastTimer q)) |},
     {| pending := <[S (lastTimer q) := (wait c, laterTask)]>
                     (pending (clearTimeout (timeout c) q));
        lastTimer := S (lastTimer q) |},
     if immediate c && negb (bool_decide (is_Some (timeout c)))
     then Some (func c) else None).
Proof. unfold executedFunction. by destruct (timeout c). Qed.

(** X4. A burst of calls to a debounced function leaves exactly one
    timer of its own pending, the one of the last call, with the configured
    wait: each call clears the timer of the call before.  [func] runs during
    the burst only on the leading edge ([immediate] set and no timer pending
    before the first call), and once that timer comes due it runs unless
    [immediate] is set. *)
Theorem debounce_coalesces (laterTask : T) (k : nat) (c : Debounced F)
    (q : Timers Z T) :
  timersFresh q ->
  let last := (lastTimer q + S k)%nat in
  debounceBurst laterTask (S k) c q
  = ({| func := func c; wait := wait c; immediate := immediate c;
        timeout := Some last |},
     {| pending := <[last := (wait c, laterTask)]>
                     (pending (clearTimeout (timeout c) q));
        lastTimer := last |},
     if immediate c && negb (bool_decide (is_Some (timeout c)))
     then [func c] else []) /\
  snd (later {| func := func c; wait := wait c; immediate := immediate c;
                timeout := Some last |})
  = (if immediate c then None else Some (func c)).
Proof.
  intros Hq last. split; [|reflexivity]. subst last.
  revert c q Hq. induction k as [|k IH]; intros c q Hq.
  - cbn [debounceBurst]. rewrite executedFunction_eq.
    replace (lastTimer q + 1)%nat with (S (lastTimer q)) by lia.
    f_equal. destruct (immediate c && _); reflexivity.
  - change (debounceBurst laterTask (S (S k)) c q)
      with (let '(c1, q1, now) := executedFunction laterTask c q in
            let '(c2, q2, called) := debounceBurst laterTask (S k) c1 q1 in
            (c2, q2, option_list now ++ called)).
    rewrite executedFunction_eq.
    set (q0 := clearTimeout (timeout c) q).
    assert (Hq0 : timersFresh q0) by (by apply timersFresh_clearTimeout).
    assert (Hq1 : timersFresh
                    {| pending := <[S (lastTimer q) := (wait c, laterTask)]> (pending q0);
                       lastTimer := S (lastTimer q) |}).
    { intros id Hid. simpl in *. rewrite lookup_insert_ne by lia.
      apply Hq0. unfold q0. destruct (timeout c); simpl; lia. }
    cbv zeta. rewrite (IH _ _ Hq1). cbn [func wait immediate timeout lastTimer pending clearTimeout].
    replace (S (lastTimer q) + S k)%nat with (lastTimer q + S (S k))%nat by lia.
    rewrite delete_insert_eq.
    rewrite (delete_id (pending q0))
      by (apply Hq0; unfold q0; destruct (timeout c); simpl; lia).
    f_equal. rewrite andb_false_r. simpl. rewrite app_nil_r.
    by destruct (immediate c && _).
Qed.

(** X5. A throttled function ignores every call while it is in its
    throttle; out of it, a burst of calls runs [func] once, at the first
    call, and sets one timer of [limit] ms, whose expiry opens it again. *)
Theorem throttle_once (releaseTask : T) (k : nat) (c : Throttled F)
    (q : Timers Z T) :
  (inThrottle c = true -> throttleBurst releaseTask k c q = (c, q, [])) /\
  (inThrottle c = false ->
   throttleBurst releaseTask (S k) c q
   = ({| tfunc := tfunc c; limit := limit c; inThrottle := true |},
      {| pending := <[S (lastTimer q) := (limit c, releaseTask)]> (pending q);
         lastTimer := S (lastTimer q) |},
      [tfunc c])) /\
  inThrottle (release c) = false.
Proof.
  assert (Hin : forall k (c : Throttled F) (q : Timers Z T), inThrottle c = true ->
            throttleBurst releaseTask k c q = (c, q, [])).
  { clear. intros k c q Hc. induction k as [|k IH]; [reflexivity|].
    cbn [throttleBurst]. unfold throttledCall. rewrite Hc, IH. reflexivity. }
  split; [apply Hin|]. split; [|reflexivity].
  intros Hc. cbn [throttleBurst]. unfold throttledCall. rewrite Hc. simpl.
  rewrite Hin by reflexivity. reflexivity.
Qed.

End Bursts.

Section BurstExamples.
Import Helpers.

Lemma debounce_coalesces_witness :
  timersFresh (@noTimers Z unit) /\
  snd (debounceBurst tt 3 (debounce 7%nat 250 false) noTimers) = [].
Proof.
  assert (H : timersFresh (@noTimers Z unit))
    by (intros id _; apply lookup_empty).
  split; [exact H|].
  destruct (debounce_coalesces (F:=nat) tt 2 (debounce 7%nat 250 false) noTimers H)
    as [Heq _].
  rewrite Heq. reflexivity.
Defined.

Lemma throttle_once_witness :
  inThrottle (throttle 7%nat 100) = false /\
  snd (throttleBurst tt 3 (throttle 7%nat 100) (@noTimers Z unit)) = [7%nat].
Proof.
  assert (H : inThrottle (throttle 7%nat 100) = false) by reflexivity.
  split; [exact H|].
  destruct (throttle_once (F:=nat) tt 2 (throttle 7%nat 100) (@noTimers Z unit))
    as (_ & Hout & _).
  rewrite (Hout H). reflexivity.
Defined.

End BurstExamples.

Section Cleanup.
Import ViewportUtils.

Lemma removeEventListener_frame (type : string) (h : nat) (l : Loop) :
  let l' := removeEventListener type h l in
  window l' = window l /\ closures l' = closures l /\
  timers l' = timers l /\ viewportCalls l' = viewportCalls l.
Proof. repeat split. Qed.

Lemma onViewportChange_pending (callback : nat) (debounceMs : Z) (l : Loop) :
  let h := fst (onViewportChange callback debounceMs l) in
  let l' := snd (onViewportChange callback debounceMs l) in
  let id := S (Helpers.lastTimer (timers l)) in
  closures l' !! h
  = Some (DebouncedViewport
            {| Helpers.func := callback; Helpers.wait := debounceMs;
               Helpers.immediate := false; Helpers.timeout := Some id |}) /\
  Helpers.pending (timers l')
  = <[id := (debounceMs, Later h)]> (Helpers.pending (timers l)) /\
  viewportCalls l' = viewportCalls l /\ window l' = window l.
Proof.
  unfold onViewportChange, newClosure.
  set (h := S (lastClosure l)).
  set (d := Helpers.debounce callback debounceMs false).
  set (l1 := {| window := window l;
                closures := <[h := DebouncedViewport d]> (closures l);
                lastClosure := h; listeners := listeners l;
                timers := timers l; viewportCalls := viewportCalls l;
                scrollCalls := scrollCalls l |}).
  set (l2 := addEventListener "resize" h l1).
  set (l3 := addEventListener "orientationchange" h l2).
  cbn [fst snd].
  destruct (addEventListener_frame "resize" h l1) as (Hw2 & Hc2 & Ht2 & Hv2).
  destruct (addEventListener_frame "orientationchange" h l2)
    as (Hw3 & Hc3 & Ht3 & Hv3).
  fold l2 in Hw2, Hc2, Ht2, Hv2. fold l3 in Hw3, Hc3, Ht3, Hv3.
  assert (Hh : closures l3 !! h = Some (DebouncedViewport d)).
  { rewrite Hc3, Hc2. apply lookup_insert_eq. }
  destruct (call_debounced h d l3 Hh eq_refl) as (Hv & Hw & Hl & Hq & Hc).
  simpl in Hq, Hc. rewrite Ht3, Ht2 in Hq, Hc. simpl in Hq, Hc.
  split; [exact Hc|]. split; [exact Hq|].
  split; [by rewrite Hv, Hv3, Hv2 | by rewrite Hw, Hw3, Hw2].
Qed.

(** X6. [offViewportChange] with the handle that [onViewportChange]
    returned removes the listener from both events, but not the timer that
    the registration started: the callback still runs once, with the
    current viewport, when that timer comes due. *)
Theorem cleanup_leaves_pending_call (callback : nat) (debounceMs : Z)
    (l : Loop) :
  let h := fst (onViewportChange callback debounceMs l) in
  let l' := offViewportChange h (snd (onViewportChange callback debounceMs l)) in
  let id := S (Helpers.lastTimer (timers l)) in
  (h ∉ listenersOf "resize" l') /\
  (h ∉ listenersOf "orientationchange" l') /\
  Helpers.pending (timers l') !! id = Some (debounceMs, Later h) /\
  viewportCalls l' = viewportCalls l /\
  viewportCalls (fireTimer id l')
  = viewportCalls l ++ [(callback, viewportInfo (window l))].
Proof.
  intros h l' id.
  destruct (onViewportChange_pending callback debounceMs l) as (Hc & Hq & Hv & Hw).
  fold h id in Hc, Hq.
  set (l0 := snd (onViewportChange callback debounceMs l)) in *.
  assert (Hfilter : forall hs : list nat, h ∉ filter (fun h' => h' ≠ h) hs).
  { intros hs Hin. apply list_elem_of_filter in Hin as [Hne _]. by apply Hne. }
  split; [|split].
  - unfold l', offViewportChange. rewrite !listenersOf_remove.
    repeat case_decide; try done; apply Hfilter.
  - unfold l', offViewportChange. rewrite !listenersOf_remove.
    repeat case_decide; try done; apply Hfilter.
  - assert (Ht : timers l' = timers l0) by reflexivity.
    assert (Hcl : closures l' = closures l0) by reflexivity.
    assert (Hvc : viewportCalls l' = viewportCalls l0) by reflexivity.
    assert (Hwin : window l' = window l0) by reflexivity.
    split; [rewrite Ht, Hq; apply lookup_insert_eq|].
    split; [by rewrite Hvc|].
    erewrite fireTimer_later;
      [| rewrite Ht, Hq; apply lookup_insert_eq | rewrite Hcl; exact Hc | reflexivity].
    by rewrite Hvc, Hv, Hwin, Hw.
Qed.

End Cleanup.

(** ** Class helpers *)

Section ClassHelpers.
Import Dom Helpers.

Lemma contains_classAdd (c : string) (e : Element) :
  contains c (classAdd c e) = true.
Proof.
  unfold contains, classAdd; simpl. apply bool_decide_eq_true_2.
  case_bool_decide; [done|]. rewrite elem_of_app, list_elem_of_singleton. by right.
Qed.

Lemma contains_classRemove (c : string) (e : Element) :
  contains c (classRemove c e) = false.
Proof.
  unfold contains, classRemove; simpl. apply bool_decide_eq_false_2.
  intros Hin. apply list_elem_of_filter in Hin as [Hne _]. by apply Hne.
Qed.

(** X7. [addClass], [removeClass] and [toggleClass] on an element of the
    document, for a class name that [classList] accepts: adding and
    removing are idempotent; the class is present after
    adding, absent after removing, and toggling flips its presence; no other
    class and no other element is touched; a duplicate-free class list stays
    duplicate-free; and removing a class that was added to an element
    without it gives back the document. *)
Theorem class_helpers (d : Document) (i : nat) (c : string) :
  classToken c = true ->
  addClass (Some i) c (addClass (Some i) c d) = addClass (Some i) c d /\
  removeClass (Some i) c (removeClass (Some i) c d) = removeClass (Some i) c d /\
  (forall e, d !! i = Some e ->
     exists e1 e2 e3,
       addClass (Some i) c d !! i = Some e1 /\
       removeClass (Some i) c d !! i = Some e2 /\
       toggleClass (Some i) c d !! i = Some e3 /\
       c ∈ classList e1 /\ (c ∉ classList e2) /\
       (c ∈ classList e3 <-> c ∉ classList e) /\
       (forall c', c' ≠ c ->
          (c' ∈ classList e1 <-> c' ∈ classList e) /\
          (c' ∈ classList e2 <-> c' ∈ classList e) /\
          (c' ∈ classList e3 <-> c' ∈ classList e)) /\
       (NoDup (classList e) ->
          NoDup (classList e1) /\ NoDup (classList e2) /\ NoDup (classList e3)) /\
       (c ∉ classList e -> removeClass (Some i) c (addClass (Some i) c d) = d)) /\
  (forall j, j ≠ i ->
     addClass (Some i) c d !! j = d !! j /\
     removeClass (Some i) c d !! j = d !! j /\
     toggleClass (Some i) c d !! j = d !! j).
Proof.
  intros _.
  split; [|split; [|split]].
  - unfold addClass, update. rewrite list_alter_alter_eq.
    apply list_alter_ext; [|done]. intros e _. simpl.
    destruct (contains c e) eqn:E; [by rewrite E|].
    by rewrite contains_classAdd.
  - unfold removeClass, update. rewrite list_alter_alter_eq.
    apply list_alter_ext; [|done]. intros e _. simpl.
    destruct (contains c e) eqn:E; [|by rewrite E].
    by rewrite contains_classRemove.
  - intros e He. unfold addClass, removeClass, toggleClass, update.
    rewrite !list_lookup_alter_eq, He. simpl.
    do 3 eexists. split; [reflexivity|]. split; [reflexivity|].
    split; [reflexivity|].
    unfold contains, classAdd, classRemove. 
    destruct e as [tg pa cl at' tx st ot oh]; simpl.
    destruct (bool_decide (c ∈ cl)) eqn:E; simpl; rewrite ?E.
    + apply bool_decide_eq_true in E.
      repeat split; try done.
      all: try (intros Hin; apply list_elem_of_filter in Hin as [Hne Hin]; done).
      all: try (intros Hin; apply list_elem_of_filter; done).
      all: try (by apply NoDup_filter).
    + apply bool_decide_eq_false in E.
      repeat split; try done.
      all: rewrite ?elem_of_app, ?list_elem_of_singleton.
      all: try tauto. all: try (intros [?|?]; [tauto|congruence]).
      all: try (apply NoDup_app; repeat split;
                [done | intros x Hx Hc; apply list_elem_of_singleton in Hc;
                        by subst | apply NoDup_singleton]).
      * intros _. rewrite list_alter_alter_eq. eapply alter_fixed; [exact He|].
        unfold compose. by apply (open_then_close_element c).
  - intros j Hj. unfold addClass, removeClass, toggleClass, update.
    by rewrite !list_lookup_alter_ne.
Qed.
Lemma class_helpers_witness :
  classToken "active" = true /\
  Example.page !! 1%nat
    = Some (Example.element "nav" (Some 0%nat) [] [("id", "mainNav")] "" 0 70) /\
  removeClass (Some 1%nat) "active" (addClass (Some 1%nat) "active" Example.page)
  = Example.page.
Proof.
  assert (H : Example.page !! 1%nat
               = Some (Example.element "nav" (Some 0%nat) []
                         [("id", "mainNav")] "" 0 70))
    by reflexivity.
  split; [reflexivity|]. split; [exact H|].
  destruct (class_helpers Example.page 1 "active" eq_refl)
    as (_ & _ & Hel & _).
  destruct (Hel _ H) as (e1 & e2 & e3 & _ & _ & _ & _ & _ & _ & _ & _ & Hback).
  apply Hback. apply (bool_decide_unpack _). vm_compute. exact I.
Defined.

End ClassHelpers.

(** ** Easing *)

Section Easing.
Import Helpers.
Local Open Scope Q_scope.

(** The curve on the normalised time [u = t / (d / 2)]. *)
Lemma easeInOutQuad_normalised (t b c d : Q) :
  easeInOutQuad t b c d
  = (let u := t / (d / 2) in
     if Qlt_le_dec u 1 then c / 2 * u * u + b
     else - c / 2 * ((u - 1) * (u - 1 - 2) - 1) + b).
Proof. reflexivity. Qed.

(** X8. [easeInOutQuad] over a positive duration starts at [b], is
    half way at half time, ends at [b + c], and is symmetric about the
    midpoint: the values at [t] and at [d - t] add up to [2 b + c]. *)
Theorem easeInOutQuad_shape (t b c d : Q) :
  0 < d -> 0 <= t -> t <= d ->
  easeInOutQuad 0 b c d == b /\
  easeInOutQuad (d / 2) b c d == b + c / 2 /\
  easeInOutQuad d b c d == b + c /\
  easeInOutQuad t b c d + easeInOutQuad (d - t) b c d == 2 * b + c.
Proof.
  intros Hd Ht0 Htd.
  assert (Hd0 : ~ d == 0)
    by (intros H; rewrite H in Hd; exact (Qlt_irrefl 0 Hd)).
  assert (H0 : 0 / (d / 2) == 0) by (field; exact Hd0).
  assert (Hh : d / 2 / (d / 2) == 1) by (field; exact Hd0).
  assert (H1 : d / (d / 2) == 2) by (field; exact Hd0).
  rewrite !easeInOutQuad_normalised. cbv zeta.
  split; [|split; [|split]].
  - destruct (Qlt_le_dec (0 / (d / 2)) 1) as [_|Hle]; [rewrite H0; field | rewrite H0 in Hle; lra].
  - destruct (Qlt_le_dec (d / 2 / (d / 2)) 1) as [Hlt|_]; [rewrite Hh in Hlt; lra | rewrite Hh; field].
  - destruct (Qlt_le_dec (d / (d / 2)) 1) as [Hlt|_]; [rewrite H1 in Hlt; lra | rewrite H1; field].
  - assert (Hsum : (d - t) / (d / 2) == 2 - t / (d / 2)) by (field; exact Hd0).
    set (u := t / (d / 2)) in *. set (v := (d - t) / (d / 2)) in *.
    destruct (Qlt_le_dec u 1) as [Hu|Hu]; destruct (Qlt_le_dec v 1) as [Hv|Hv].
    + rewrite Hsum in Hv. lra.
    + rewrite Hsum. field.
    + rewrite Hsum. field.
    + rewrite Hsum in Hv. assert (Hu1 : u == 1) by lra. rewrite Hsum, Hu1. field.
Qed.
Lemma easeInOutQuad_shape_witness :
  0 < 800 /\ 0 <= 200 /\ 200 <= 800 /\
  easeInOutQuad 200 0 1000 800 + easeInOutQuad (800 - 200) 0 1000 800
  == 2 * 0 + 1000.
Proof.
  assert (Hd : 0 < 800) by reflexivity.
  assert (H0 : 0 <= 200) by discriminate.
  assert (H1 : 200 <= 800) by discriminate.
  split; [exact Hd|]. split; [exact H0|]. split; [exact H1|].
  destruct (easeInOutQuad_shape 200 0 1000 800 Hd H0 H1) as (_ & _ & _ & H).
  exact H.
Defined.

End Easing.

(** ** Number formatting *)

Section FormatNumber.
Import JsString.

Lemma stripCommas_cons (c : ascii) (s : string) :
  stripCommas (String c s)
  = if decide (c = ","%char) then stripCommas s else String c (stripCommas s).
Proof.
  unfold stripCommas. simpl list_ascii_of_string.
  destruct (decide (c = ","%char)) as [->|Hc].
  - by rewrite filter_cons_False by (intros H; by apply H).
  - by rewrite filter_cons_True by done.
Qed.

Lemma is_digit_not_comma (c : ascii) : is_digit c = true -> c ≠ ","%char.
Proof. intros H ->. discriminate H. Qed.

(** The replacement only adds commas. *)
Lemma insertCommas_strip (prev : option ascii) (s : string) :
  stripCommas (insertCommas prev s) = stripCommas s.
Proof.
  revert prev. induction s as [|c r IH]; intros prev; [reflexivity|].
  cbn [insertCommas].
  destruct (nonBoundary prev (Some c) && groupsAhead (String c r)).
  - rewrite (stripCommas_cons ","), decide_True by done.
    rewrite !(stripCommas_cons c), IH. reflexivity.
  - rewrite !(stripCommas_cons c), IH. reflexivity.
Qed.

Lemma digitsOnly_cons (c : ascii) (s : string) :
  digitsOnly (String c s) = is_digit c && digitsOnly s.
Proof. reflexivity. Qed.

Lemma digitsOnly_app (s1 s2 : string) :
  digitsOnly (s1 +:+ s2) = digitsOnly s1 && digitsOnly s2.
Proof.
  induction s1 as [|c r IH]; [reflexivity|].
  change (String c r +:+ s2) with (String c (r +:+ s2)).
  rewrite !digitsOnly_cons, IH. by rewrite andb_assoc.
Qed.

Lemma stripCommas_digitsOnly (s : string) :
  digitsOnly s = true -> stripCommas s = s.
Proof.
  induction s as [|c r IH]; [reflexivity|].
  rewrite digitsOnly_cons, andb_true_iff. intros [Hc Hr].
  rewrite stripCommas_cons, decide_False by (by apply is_digit_not_comma).
  by rewrite IH.
Qed.

Lemma digitRun_app (hs ds : string) :
  digitsOnly hs = true ->
  digitRun (hs +:+ ds) = (String.length hs + digitRun ds)%nat.
Proof.
  induction hs as [|c r IH]; [reflexivity|].
  rewrite digitsOnly_cons, andb_true_iff. intros [Hc Hr].
  change (String c r +:+ ds) with (String c (r +:+ ds)).
  cbn [digitRun String.length]. rewrite Hc, IH by done. reflexivity.
Qed.

Lemma digitRun_digitsOnly (s : string) :
  digitsOnly s = true -> digitRun s = String.length s.
Proof.
  induction s as [|c r IH]; [reflexivity|].
  rewrite digitsOnly_cons, andb_true_iff. intros [Hc Hr].
  cbn [digitRun String.length]. by rewrite Hc, IH.
Qed.

Lemma is_digit_word (c : ascii) : is_digit c = true -> is_word c = true.
Proof. unfold is_word. intros ->. reflexivity. Qed.

(** A string of at most three digits gets no comma, whatever precedes
    a non-word start. *)
Lemma insertCommas_short (prev : option ascii) (s : string) :
  digitsOnly s = true -> (String.length s < 3)%nat ->
  insertCommas prev s = s.
Proof.
  revert prev. induction s as [|c r IH]; intros prev Hs Hlen; [reflexivity|].
  pose proof Hs as Hs'. rewrite digitsOnly_cons, andb_true_iff in Hs'.
  destruct Hs' as [Hc Hr].
  cbn [insertCommas]. unfold groupsAhead.
  rewrite (digitRun_digitsOnly _ Hs).
  replace ((String.length (String c r) mod 3 =? 0)%nat) with false.
  - rewrite !Bool.andb_false_r. rewrite IH; [done|done|].
    simpl in Hlen. lia.
  - symmetry. apply Nat.eqb_neq. simpl in *.
    destruct (String.length r) as [|[|n]]; simpl; lia.
Qed.

Lemma insertCommas_three (p : ascii) (ds : string) :
  is_digit p = true -> digitsOnly ds = true -> String.length ds = 3%nat ->
  insertCommas (Some p) ds = String "," ds.
Proof.
  intros Hp Hds Hlen.
  destruct ds as [|d1 r]; [discriminate|].
  pose proof Hds as Hds'. rewrite digitsOnly_cons, andb_true_iff in Hds'.
  destruct Hds' as [Hd1 Hr].
  cbn [insertCommas]. unfold groupsAhead at 1.
  rewrite (digitRun_digitsOnly _ Hds), Hlen.
  unfold nonBoundary at 1. simpl from_option.
  rewrite (is_digit_word _ Hp), (is_digit_word _ Hd1). simpl.
  rewrite insertCommas_short; [done|done|]. simpl in Hlen. lia.
Qed.

(** Grouping from the right: a run of digits followed by three more digits
    is formatted as the run, a comma, and the three digits. *)
Lemma insertCommas_group (prev : option ascii) (hs ds : string) :
  hs ≠ ""%string -> digitsOnly hs = true ->
  digitsOnly ds = true -> String.length ds = 3%nat ->
  insertCommas prev (hs +:+ ds) = insertCommas prev hs +:+ "," +:+ ds.
Proof.
  intros Hne Hhs Hds Hlen. revert prev.
  induction hs as [|c r IH]; [done|]. intros prev.
  pose proof Hhs as Hhs'. rewrite digitsOnly_cons, andb_true_iff in Hhs'.
  destruct Hhs' as [Hc Hr].
  change (String c r +:+ ds) with (String c (r +:+ ds)).
  cbn [insertCommas]. unfold groupsAhead.
  change (String c (r +:+ ds)) with (String c r +:+ ds).
  rewrite (digitRun_app _ ds Hhs), (digitRun_digitsOnly _ Hds),
    (digitRun_digitsOnly _ Hhs), Hlen.
  replace ((String.length (String c r) + 3) mod 3)%nat
    with (String.length (String c r) mod 3)%nat
    by (rewrite <- (Nat.Div0.mod_add _ 1 3); f_equal; lia).
  replace (String.length (String c r) + 3 =? 0)%nat with false
    by (symmetry; apply Nat.eqb_neq; lia).
  replace (String.length (String c r) =? 0)%nat with false
    by (symmetry; apply Nat.eqb_neq; simpl; lia).
  assert (Hrest : insertCommas (Some c) (r +:+ ds)
                  = insertCommas (Some c) r +:+ "," +:+ ds).
  { destruct r as [|c' r'].
    - simpl. by apply insertCommas_three.
    - by apply IH. }
  change (String c r +:+ ds) with (String c (r +:+ ds)).
  rewrite Hrest.
  by destruct (nonBoundary prev (Some c) && _).
Qed.

Lemma append_assoc (a b c : string) : (a +:+ b) +:+ c = a +:+ (b +:+ c).
Proof.
  induction a as [|x a IH]; [reflexivity|].
  change (String x ((a +:+ b) +:+ c) = String x (a +:+ (b +:+ c))).
  by rewrite IH.
Qed.

Lemma pretty_N_go_app (x : N) (s : string) :
  pretty_N_go x s = pretty_N_go x "" +:+ s.
Proof.
  revert s. induction (N.lt_wf_0 x) as [x _ IH]. intros s.
  destruct (decide (x = 0)%N) as [->|Hx]; [by rewrite !pretty_N_go_0|].
  rewrite !(pretty_N_go_step x) by lia.
  rewrite (IH (x `div` 10)%N ltac:(apply N.div_lt; lia) (String _ s)).
  rewrite (IH (x `div` 10)%N ltac:(apply N.div_lt; lia) (String _ "")).
  by rewrite append_assoc.
Qed.

Lemma is_digit_pretty_N_char (d : N) : is_digit (pretty_N_char d) = true.
Proof. unfold pretty_N_char. by repeat case_match. Qed.

Lemma digitsOnly_pretty_N_go (x : N) (s : string) :
  digitsOnly s = true -> digitsOnly (pretty_N_go x s) = true.
Proof.
  revert s. induction (N.lt_wf_0 x) as [x _ IH]. intros s Hs.
  destruct (decide (x = 0)%N) as [->|Hx]; [by rewrite pretty_N_go_0|].
  rewrite pretty_N_go_step by lia.
  apply IH; [apply N.div_lt; lia|].
  by rewrite digitsOnly_cons, is_digit_pretty_N_char.
Qed.

Lemma toString_pos (n : Z) :
  0 < n -> toString n = pretty_N_go (Z.to_N n) "".
Proof.
  destruct n as [|p|p]; try lia. intros _.
  unfold toString, pretty, pretty_Z, pretty, pretty_positive, pretty, pretty_N.
  by rewrite decide_False by discriminate.
Qed.

Lemma toString_pos_digits (n : Z) :
  0 < n -> toString n ≠ ""%string /\ digitsOnly (toString n) = true.
Proof.
  intros Hn. rewrite (toString_pos n Hn). split.
  - destruct (pretty_N_go_head (Z.to_N n) "" ltac:(lia)) as (d & r & _ & ->).
    discriminate.
  - by apply digitsOnly_pretty_N_go.
Qed.

(** At the start of the string, or after a sign, no comma precedes the
    first digit. *)
Lemma insertCommas_head (prev : option ascii) (c : ascii) (r : string) :
  from_option is_word false prev = false -> is_digit c = true ->
  insertCommas prev (String c r) = String c (insertCommas (Some c) r).
Proof.
  intros Hp Hc. cbn [insertCommas]. unfold nonBoundary.
  rewrite Hp. simpl from_option. by rewrite (is_digit_word _ Hc).
Qed.

Lemma insertCommas_upto_three (prev : option ascii) (s : string) :
  from_option is_word false prev = false ->
  digitsOnly s = true -> (String.length s <= 3)%nat ->
  insertCommas prev s = s.
Proof.
  intros Hp Hs Hlen. destruct s as [|c r]; [reflexivity|].
  rewrite digitsOnly_cons, andb_true_iff in Hs. destruct Hs as [Hc Hr].
  rewrite insertCommas_head by done.
  rewrite insertCommas_short; [done|done|]. simpl in Hlen. lia.
Qed.

Lemma insertCommas_start (prev : option ascii) (s : string) :
  from_option is_word false prev = false ->
  s ≠ ""%string -> digitsOnly s = true ->
  insertCommas prev s = insertCommas None s.
Proof.
  intros Hp Hne Hs. destruct s as [|c r]; [done|].
  rewrite digitsOnly_cons, andb_true_iff in Hs. destruct Hs as [Hc Hr].
  by rewrite !insertCommas_head.
Qed.

Lemma pretty_N_go_length (x : N) :
  (x < 1000)%N -> (String.length (pretty_N_go x "") <= 3)%nat.
Proof.
  intros Hx.
  destruct (decide (x = 0)%N) as [->|H0]; [simpl; lia|].
  rewrite pretty_N_go_step by lia.
  destruct (decide (x `div` 10 = 0)%N) as [->|H1];
    [rewrite pretty_N_go_0; simpl; lia|].
  rewrite pretty_N_go_step by (by apply N.neq_0_lt_0).
  destruct (decide ((x `div` 10) `div` 10 = 0)%N) as [->|H2];
    [rewrite pretty_N_go_0; simpl; lia|].
  rewrite pretty_N_go_step by (by apply N.neq_0_lt_0).
  replace (((x `div` 10) `div` 10) `div` 10)%N with 0%N; [rewrite pretty_N_go_0; simpl; lia|].
  symmetry. rewrite !N.Div0.div_div. apply N.div_small. lia.
Qed.

Lemma pretty_N_go_thousands (x : N) :
  (1000 <= x)%N ->
  exists ds, String.length ds = 3%nat /\ digitsOnly ds = true /\
    pretty_N_go x "" = pretty_N_go (x `div` 1000) "" +:+ ds.
Proof.
  intros Hx.
  assert (H1 : (0 < x `div` 10)%N).
  { apply N.div_str_pos. lia. }
  assert (H2 : (0 < (x `div` 10) `div` 10)%N).
  { rewrite N.Div0.div_div. apply N.div_str_pos. lia. }
  rewrite pretty_N_go_step by lia.
  rewrite pretty_N_go_step by exact H1.
  rewrite pretty_N_go_step by exact H2.
  rewrite !N.Div0.div_div. change (10 * 10 * 10)%N with 1000%N.
  rewrite pretty_N_go_app. eexists. split; [|split; [|reflexivity]].
  - reflexivity.
  - rewrite !digitsOnly_cons, !is_digit_pretty_N_char. reflexivity.
Qed.

Lemma toString_thousands (n : Z) :
  1000 <= n ->
  exists ds, String.length ds = 3%nat /\ digitsOnly ds = true /\
    toString n = toString (n / 1000) +:+ ds.
Proof.
  intros Hn.
  assert (Hq : 0 < n / 1000) by (apply Z.div_str_pos; lia).
  rewrite (toString_pos n), (toString_pos (n / 1000)) by lia.
  rewrite Z2N.inj_div by lia. apply pretty_N_go_thousands. lia.
Qed.

(** X9. [formatNumber] on the integers a number holds exactly (up to
    2^53 - 1, which [toString] writes in plain decimal digits): up to 999
    the decimal digits are returned as they are; from 1000 on, the result is the formatted
    quotient by 1000, a comma, and the last three digits; a negative number
    is formatted as its absolute value behind the sign; and removing the
    commas gives back [num.toString()]. *)
Theorem formatNumber_groups (n : Z) :
  0 <= n -> n <= 9007199254740991 ->
  (n < 1000 -> formatNumber n = toString n) /\
  (1000 <= n ->
   exists ds, String.length ds = 3%nat /\ digitsOnly ds = true /\
     toString n = toString (n / 1000) +:+ ds /\
     formatNumber n = formatNumber (n / 1000) +:+ "," +:+ ds) /\
  (0 < n -> formatNumber (- n) = "-" +:+ formatNumber n) /\
  stripCommas (formatNumber n) = toString n.
Proof.
  intros Hn _. unfold formatNumber. split; [|split; [|split]].
  - intros Hlt. destruct (decide (n = 0)) as [->|Hne]; [reflexivity|].
    apply insertCommas_upto_three; [reflexivity| |].
    + apply toString_pos_digits. lia.
    + rewrite toString_pos by lia. apply pretty_N_go_length. lia.
  - intros Hge. destruct (toString_thousands n Hge) as (ds & Hlen & Hds & Heq).
    exists ds. split; [exact Hlen|]. split; [exact Hds|]. split; [exact Heq|].
    assert (Hq : 0 < n / 1000) by (apply Z.div_str_pos; lia).
    destruct (toString_pos_digits _ Hq) as [Hne Hdig].
    rewrite Heq. by apply insertCommas_group.
  - intros Hpos. destruct (toString_pos_digits _ Hpos) as [Hne Hdig].
    destruct n as [|p|p]; try lia.
    change (toString (- Z.pos p)) with ("-" +:+ toString (Z.pos p)).
    change ("-" +:+ toString (Z.pos p))
      with (String "-" (toString (Z.pos p))).
    cbn [insertCommas]. unfold groupsAhead at 1. cbn [digitRun].
    change (is_digit "-") with false. cbv iota.
    rewrite Bool.andb_false_r.
    by rewrite (insertCommas_start (Some "-"%char)).
  - rewrite insertCommas_strip.
    destruct (decide (n = 0)) as [->|Hne]; [reflexivity|].
    apply stripCommas_digitsOnly, toString_pos_digits. lia.
Qed.

Lemma formatNumber_groups_witness :
  0 <= 1234567 /\ 1234567 <= 9007199254740991 /\ formatNumber 1234567 = "1,234,567"%string /\
  formatNumber (- 1234567) = "-1,234,567"%string.
Proof.
  assert (H0 : 0 <= 1234567) by lia.
  assert (H1 : 1234567 <= 9007199254740991) by lia.
  split; [exact H0|]. split; [exact H1|].
  destruct (formatNumber_groups 1234567 H0 H1) as (_ & Hge & Hneg & _).
  destruct (Hge ltac:(lia)) as (ds & _ & _ & Hs & Hf).
  assert (Hds : ds = "567"%string).
  { apply (inj (String.app (toString (1234567 / 1000)))).
    rewrite <- Hs. vm_compute. reflexivity. }
  split.
  - rewrite Hf, Hds. vm_compute. reflexivity.
  - transitivity ("-" +:+ formatNumber 1234567); [exact (Hneg ltac:(lia))|].
    rewrite Hf, Hds. vm_compute. reflexivity.
Defined.

End FormatNumber.

(** ** Visibility tests *)

Section Visibility.
Import Helpers ViewportUtils.

Lemma or_else_viewport (inner client : Z) :
  0 <= client <= inner ->
  JsNumber.or_else inner client
  = Z.max (JsNumber.or_else client 0) (JsNumber.or_else inner 0).
Proof.
  intros H. unfold JsNumber.or_else.
  destruct (Z.eqb_spec inner 0), (Z.eqb_spec client 0); simpl; lia.
Qed.

Lemma Qle_bool_mono (a a' b b' : Q) :
  (a' <= a)%Q -> (b <= b')%Q -> Qle_bool a b = true -> Qle_bool a' b' = true.
Proof.
  rewrite !Qle_bool_iff. intros Ha Hb H.
  apply (Qle_trans _ a); [exact Ha|]. apply (Qle_trans _ b); assumption.
Qed.

(** X10. In a window whose layout viewport is no larger than the window,
    [Helpers.isInViewport] with threshold 0 is
    [ViewportUtils.isElementFullyVisible], and a larger threshold accepts
    every element of non-negative size that a smaller one accepts. *)
Theorem visibility_tests_agree (element : option Rect) (w : Window)
    (t t' : Q) :
  0 <= clientWidth w <= innerWidth w ->
  0 <= clientHeight w <= innerHeight w ->
  (forall rect, element = Some rect ->
     (0 <= rwidth rect)%Q /\ (0 <= rheight rect)%Q) ->
  (t <= t')%Q ->
  isInViewport element 0 (innerHeight w) (clientHeight w)
    (innerWidth w) (clientWidth w)
  = isElementFullyVisible element w /\
  (isInViewport element t (innerHeight w) (clientHeight w)
     (innerWidth w) (clientWidth w) = true ->
   isInViewport element t' (innerHeight w) (clientHeight w)
     (innerWidth w) (clientWidth w) = true).
Proof.
  intros Hw Hh Hsize Ht. destruct element as [rect|]; [|done].
  destruct (Hsize rect eq_refl) as [Hrw Hrh].
  unfold isInViewport, isElementFullyVisible, getViewportSize; cbn [width height].
  rewrite <- !or_else_viewport by assumption.
  assert (Hth : (rheight rect * t <= rheight rect * t')%Q) by nra.
  assert (Htw : (rwidth rect * t <= rwidth rect * t')%Q) by nra.
  split.
  - f_equal; [f_equal; [f_equal|]|]; apply eq_true_iff_eq;
      rewrite !Qle_bool_iff; split; intros H; lra.
  - rewrite !andb_true_iff. intros [[[H1 H2] H3] H4].
    repeat split.
    + revert H1. apply Qle_bool_mono; lra.
    + revert H2. apply Qle_bool_mono; lra.
    + revert H3. apply Qle_bool_mono; lra.
    + revert H4. apply Qle_bool_mono; lra.
Qed.

Lemma visibility_tests_agree_witness :
  let rect := {| top := -5; left := 10; bottom := 95; right := 110;
                 rwidth := 100; rheight := 100 |} in
  let w := windowOfWidth 1024 in
  isElementFullyVisible (Some rect) w = false /\
  isInViewport (Some rect) (1 # 10) (innerHeight w) (clientHeight w)
    (innerWidth w) (clientWidth w) = true /\
  isInViewport (Some rect) (1 # 2) (innerHeight w) (clientHeight w)
    (innerWidth w) (clientWidth w) = true.
Proof.
  intros rect w.
  assert (Hw : 0 <= clientWidth w <= innerWidth w) by (simpl; lia).
  assert (Hh : 0 <= clientHeight w <= innerHeight w) by (simpl; lia).
  assert (Hsize : forall r, Some rect = Some r ->
            (0 <= rwidth r)%Q /\ (0 <= rheight r)%Q).
  { intros r [= <-]. split; discriminate. }
  assert (Ht : (1 # 10 <= 1 # 2)%Q) by discriminate.
  assert (H1 : isInViewport (Some rect) (1 # 10) (innerHeight w)
                 (clientHeight w) (innerWidth w) (clientWidth w) = true)
    by reflexivity.
  destruct (visibility_tests_agree (Some rect) w (1 # 10) (1 # 2)
              Hw Hh Hsize Ht) as [H0 Hmono].
  split; [rewrite <- H0; reflexivity|]. split; [exact H1 | exact (Hmono H1)].
Defined.

End Visibility.

(** ** Navigation: the current section *)

Section CurrentSection.
Import Dom Eff Navigation.

Lemma findSection_quotable (id : string) (s : State) :
  quotable id = true ->
  findSection id s = (Normal (sectionOf (document s) id), s).
Proof.
  intros Hq. unfold findSection, sectionOf, bind, get, querySelectorText.
  simpl.
  destruct (getElementById (document s) id); [reflexivity|].
  rewrite (attrEqQuoted_quotable _ _ Hq). reflexivity.
Qed.

(** The scan returns the first name of the list whose section is reached,
    and changes nothing. *)
Lemma scanSections_spec (sections : list string) (scrollPos : Z) (s : State) :
  Forall (fun n => quotable n = true) sections ->
  exists r, scanSections sections scrollPos s = (Normal r, s) /\
    match r with
    | Some name =>
        exists l1 l2, sections = l1 ++ name :: l2 /\
          reached (document s) scrollPos name /\
          Forall (fun n => ~ reached (document s) scrollPos n) l1
    | None => Forall (fun n => ~ reached (document s) scrollPos n) sections
    end.
Proof.
  induction sections as [|name rest IH]; intros Hq.
  - exists None. split; [reflexivity | constructor].
  - inversion Hq as [|? ? Hname Hrest]; subst.
    destruct (IH Hrest) as (r & Hscan & Hr).
    cbn [scanSections]. unfold bind at 1.
    rewrite (findSection_quotable name s Hname). unfold bind, get. simpl.
    destruct (sectionOf (document s) name) as [i|] eqn:Hsec; simpl.
    + destruct (document s !! i) as [e|] eqn:He; simpl.
      * destruct (Z.leb_spec (offsetTop e) scrollPos) as [Hle|Hgt].
        -- exists (Some name). split; [reflexivity|].
           exists [], rest. split; [reflexivity|]. split; [|constructor].
           exists i, e. auto.
        -- exists r. split; [exact Hscan|].
           assert (Hn : ~ reached (document s) scrollPos name).
           { intros (i' & e' & Hi' & He' & Hle).
             rewrite Hsec in Hi'. injection Hi' as <-.
             rewrite He in He'. injection He' as <-. lia. }
           destruct r as [found|].
           ++ destruct Hr as (l1 & l2 & -> & Hreach & Hl1).
              exists (name :: l1), l2. split; [reflexivity|].
              split; [exact Hreach | by constructor].
           ++ by constructor.
      * exists r. split; [exact Hscan|].
        assert (Hn : ~ reached (document s) scrollPos name).
        { intros (i' & e' & Hi' & He' & Hle).
          rewrite Hsec in Hi'. injection Hi' as <-. congruence. }
        destruct r as [found|].
        -- destruct Hr as (l1 & l2 & -> & Hreach & Hl1).
           exists (name :: l1), l2. split; [reflexivity|].
           split; [exact Hreach | by constructor].
        -- by constructor.
    + exists r. split; [exact Hscan|].
      assert (Hn : ~ reached (document s) scrollPos name).
      { intros (i' & e' & Hi' & He' & Hle). congruence. }
      destruct r as [found|].
      * destruct Hr as (l1 & l2 & -> & Hreach & Hl1).
        exists (name :: l1), l2. split; [reflexivity|].
        split; [exact Hreach | by constructor].
      * by constructor.
Qed.

Lemma split_unique {A} (x : A) (l1 l2 l1' l2' : list A) :
  NoDup (l1 ++ x :: l2) -> l1 ++ x :: l2 = l1' ++ x :: l2' ->
  l1 = l1' /\ l2 = l2'.
Proof.
  revert l1'. induction l1 as [|a l1 IH]; intros l1' Hnd Heq.
  - destruct l1' as [|b l1']; simpl in *.
    + by injection Heq.
    + injection Heq as <- ->. apply NoDup_cons in Hnd as [Hx _].
      exfalso. apply Hx. apply elem_of_app. right. by left.
  - destruct l1' as [|b l1']; simpl in *.
    + injection Heq as -> <-. apply NoDup_cons in Hnd as [Hx _].
      exfalso. apply Hx. apply elem_of_app. right. by left.
    + injection Heq as <- Heq. apply NoDup_cons in Hnd as [_ Hnd].
      destruct (IH l1' Hnd Heq) as [-> ->]. done.
Qed.

Lemma sectionNames_quotable :
  Forall (fun n => quotable n = true) sectionNames.
Proof. repeat constructor. Qed.

Lemma sectionNames_NoDup : NoDup sectionNames.
Proof. apply (bool_decide_unpack _). vm_compute. exact I. Qed.

Lemma getCurrentSection_returns (s : State) :
  exists name, getCurrentSection s = (Normal name, s) /\
               name ∈ sectionNames /\ quotable name = true.
Proof.
  assert (Hq : Forall (fun n => quotable n = true) (reverse sectionNames)).
  { apply Forall_reverse, sectionNames_quotable. }
  destruct (scanSections_spec (reverse sectionNames)
              (ViewportUtils.pageYOffset (window s) + 100) s Hq)
    as (r & Hscan & Hr).
  assert (Hget : getCurrentSection s = (Normal (default "home"%string r), s)).
  { change (getCurrentSection s)
      with (match scanSections (reverse sectionNames)
                    (ViewportUtils.pageYOffset (window s) + 100) s with
            | (Normal found, s') => (Normal (default "home"%string found), s')
            | (Throw e, s') => (Throw e, s')
            end).
    by rewrite Hscan. }
  assert (Hin : default "home"%string r ∈ sectionNames).
  { destruct r as [name|]; simpl; [|by left].
    destruct Hr as (l1 & l2 & Hrev & _).
    apply elem_of_reverse. rewrite Hrev. apply elem_of_app. right. by left. }
  exists (default "home"%string r). split; [exact Hget|]. split; [exact Hin|].
  pose proof sectionNames_quotable as Hall. rewrite Forall_forall in Hall.
  by apply Hall.
Qed.

(** X11. [getCurrentSection] never throws and changes nothing; it returns
    one of the five section names; no section later in the list than the
    one returned is reached (present with its top at or above
    [pageYOffset + 100]); the one returned is reached, unless it is the
    default [home]. *)
Theorem getCurrentSection_spec (s : State) :
  let scrollPos := ViewportUtils.pageYOffset (window s) + 100 in
  exists name, getCurrentSection s = (Normal name, s) /\
    name ∈ sectionNames /\
    (reached (document s) scrollPos name \/ name = "home"%string) /\
    (forall before after, sectionNames = before ++ name :: after ->
       Forall (fun n => ~ reached (document s) scrollPos n) after).
Proof.
  intros scrollPos.
  assert (Hq : Forall (fun n => quotable n = true) (reverse sectionNames)).
  { apply Forall_reverse, sectionNames_quotable. }
  destruct (scanSections_spec (reverse sectionNames) scrollPos s Hq)
    as (r & Hscan & Hr).
  assert (Hget : getCurrentSection s
                 = match scanSections (reverse sectionNames) scrollPos s with
                   | (Normal found, s') => (Normal (default "home"%string found), s')
                   | (Throw e, s') => (Throw e, s')
                   end) by reflexivity.
  rewrite Hget, Hscan. clear Hget. unfold ret. destruct r as [name|]; simpl.
  - destruct Hr as (l1 & l2 & Hrev & Hreach & Hl1).
    assert (Hsplit : sectionNames = reverse l2 ++ name :: reverse l1).
    { rewrite <- (reverse_involutive sectionNames), Hrev.
      rewrite reverse_app, reverse_cons, <- app_assoc. reflexivity. }
    exists name. split; [reflexivity|]. split.
    { rewrite Hsplit. apply elem_of_app. right. by left. }
    split; [by left|].
    intros before after Hba.
    pose proof sectionNames_NoDup as Hnd. rewrite Hsplit in Hnd.
    rewrite Hsplit in Hba.
    destruct (split_unique _ _ _ _ _ Hnd Hba) as [_ <-].
    by apply Forall_reverse.
  - exists "home"%string. split; [reflexivity|]. split; [by left|].
    split; [by right|].
    intros before after Hba.
    apply Forall_reverse in Hr. rewrite reverse_involutive in Hr.
    rewrite Hba in Hr. apply Forall_app in Hr as [_ Hr].
    by apply Forall_cons in Hr as [_ Hr].
Qed.

End CurrentSection.

(** ** Navigation: the active link *)

Section ActiveLink.
Import Dom Eff Navigation.

Lemma forEach_modify {S A} (l : list A) (body : A -> M S unit)
    (step : A -> S -> S) (s : S) :
  (forall a s, body a s = (Normal tt, step a s)) ->
  forEach l body s = (Normal tt, foldl (fun s a => step a s) s l).
Proof.
  intros Hbody. revert s. induction l as [|a l IH]; intros s; [reflexivity|].
  cbn [forEach foldl]. unfold bind. rewrite Hbody. apply IH.
Qed.

Lemma foldl_set_document (f : Document -> nat -> Document) (l : list nat)
    (s : State) :
  foldl (fun s a => set_document (fun d => f d a) s) s l
  = set_document (fun d => foldl f d l) s.
Proof.
  revert s. induction l as [|a l IH]; intros s; [by destruct s|].
  cbn [foldl]. rewrite IH. reflexivity.
Qed.

(** [updateActiveNavItem], once the section id is resolved. *)
Lemma updateActiveNavItem_eq (sectionId : option string) (id : string)
    (s : State) :
  (if JsString.truthy sectionId then sectionId = Some id
   else getCurrentSection s = (Normal id, s)) ->
  quotable id = true ->
  updateActiveNavItem sectionId s = (Normal tt, markSection id s).
Proof.
  intros Hid Hq. unfold updateActiveNavItem.
  assert (Hres : (if JsString.truthy sectionId
                  then ret (default ""%string sectionId)
                  else getCurrentSection) s = (Normal id, s)).
  { destruct (JsString.truthy sectionId); [by subst | exact Hid]. }
  unfold bind at 1. rewrite Hres.
  unfold bind at 1, modify at 1. unfold bind at 1, get at 1.
  unfold bind at 1.
  rewrite (forEach_modify _ _
             (fun link => set_document (fun d => deactivate d link)))
    by reflexivity.
  rewrite foldl_set_document.
  unfold querySelectorText, bind, get, ret, modify, markSection, activeLinkOf.
  rewrite (cssString_hash id Hq). cbn [fmap option_fmap option_map].
  cbn [navLinks set_currentSection].
  match goal with |- context [querySelector ?d ?q] =>
    destruct (querySelector d q) end; reflexivity.
Qed.

(** The loop over the links changes no tag, parent or [href]. *)
Lemma linkShape_alter (f : Element -> Element) (i : nat) (d : Document) :
  (forall e, linkShape (f e) = linkShape e) ->
  linkShape <$> alter f i d = linkShape <$> d.
Proof.
  intros Hf. apply list_eq. intros j. rewrite !list_lookup_fmap.
  destruct (decide (j = i)) as [->|Hne].
  - rewrite list_lookup_alter_eq. destruct (d !! i); simpl; [|done].
    by rewrite Hf.
  - by rewrite list_lookup_alter_ne.
Qed.

Lemma linkShape_classes (f : list string -> list string) (e : Element) :
  linkShape (set_classList f e) = linkShape e.
Proof. reflexivity. Qed.

Lemma linkShape_aria (v : string) (e : Element) :
  linkShape (setAttribute "aria-current" v e) = linkShape e.
Proof.
  unfold linkShape, setAttribute; simpl. by rewrite lookup_insert_ne.
Qed.

Lemma linkShape_deactivate (d : Document) (link : nat) :
  linkShape <$> deactivate d link = linkShape <$> d.
Proof.
  unfold deactivate, Helpers.removeClass, update.
  rewrite !linkShape_alter; [done| |].
  - intros e. by destruct (contains "active" e).
  - intros e. apply linkShape_aria.
Qed.

Lemma linkShape_foldl (l : list nat) (d : Document) :
  linkShape <$> foldl deactivate d l = linkShape <$> d.
Proof.
  revert d. induction l as [|x l IH]; intros d; [done|].
  cbn [foldl]. by rewrite IH, linkShape_deactivate.
Qed.

Lemma linkShape_lookup (d d' : Document) (i : nat) :
  linkShape <$> d' = linkShape <$> d ->
  linkShape <$> d' !! i = linkShape <$> d !! i.
Proof. intros H. by rewrite <- !list_lookup_fmap, H. Qed.

Lemma linkShape_ancestors (d d' : Document) (i : nat) :
  linkShape <$> d' = linkShape <$> d -> ancestors d' i = ancestors d i.
Proof.
  intros H. unfold ancestors.
  replace (length d') with (length d)
    by (by rewrite <- (length_fmap linkShape d), <- H, length_fmap).
  generalize (length d) as fuel. intros fuel. revert i.
  induction fuel as [|fuel IH]; intros i; [done|].
  cbn [ancestorsFrom].
  pose proof (linkShape_lookup d d' i H) as Hi.
  destruct (d' !! i) as [e'|], (d !! i) as [e|]; simpl in *; try done.
  injection Hi as _ Hp _. rewrite Hp.
  destruct (parent e); [by rewrite IH | done].
Qed.

Lemma linkShape_matches (d d' : Document) (v : string) (i : nat) :
  linkShape <$> d' = linkShape <$> d ->
  matches d' (Desc (Sel [Tag "nav"]) [Tag "a"; AttrEq "href" v]) i
  = matches d (Desc (Sel [Tag "nav"]) [Tag "a"; AttrEq "href" v]) i.
Proof.
  intros H. cbn [matches]. rewrite (linkShape_ancestors d d' i H).
  f_equal.
  - unfold matchCompound. pose proof (linkShape_lookup d d' i H) as Hi.
    destruct (d' !! i) as [e'|], (d !! i) as [e|]; simpl in *; try done.
    injection Hi as Ht _ Hh. by rewrite Ht, Hh.
  - induction (ancestors d i) as [|p ps IH]; [done|].
    cbn [existsb]. rewrite IH. f_equal.
    unfold matchCompound. pose proof (linkShape_lookup d d' p H) as Hp.
    destruct (d' !! p) as [e'|], (d !! p) as [e|]; simpl in *; try done.
    injection Hp as Ht _ _. by rewrite Ht.
Qed.

Lemma activeLinkOf_shape (d d' : Document) (id : string) :
  linkShape <$> d' = linkShape <$> d ->
  activeLinkOf d' id = activeLinkOf d id.
Proof.
  intros H. unfold activeLinkOf, querySelector, querySelectorAll.
  replace (length d') with (length d)
    by (by rewrite <- (length_fmap linkShape d), <- H, length_fmap).
  f_equal. apply list_filter_iff. intros i.
  unfold matchesAny. cbn [existsb].
  by rewrite (linkShape_matches d d' _ i H).
Qed.

Lemma deactivate_sets (d : Document) (i : nat) (e : Element) :
  deactivate d i !! i = Some e ->
  ("active"%string ∉ classList e) /\
  attributes e !! "aria-current"%string = Some "false"%string.
Proof.
  unfold deactivate, Helpers.removeClass, update.
  rewrite !list_lookup_alter_eq. destruct (d !! i) as [e0|]; [|done].
  simpl. intros [= <-]. split; [|apply lookup_insert_eq].
  unfold contains. case_bool_decide as Hc; simpl; [|exact Hc].
  intros Hin. apply list_elem_of_filter in Hin as [Hne _]. by apply Hne.
Qed.

Lemma deactivate_keeps (d : Document) (i j : nat) :
  (forall e, d !! i = Some e ->
     ("active"%string ∉ classList e) /\
     attributes e !! "aria-current"%string = Some "false"%string) ->
  forall e, deactivate d j !! i = Some e ->
    ("active"%string ∉ classList e) /\
    attributes e !! "aria-current"%string = Some "false"%string.
Proof.
  intros Hd e He. destruct (decide (i = j)) as [->|Hne].
  - by apply (deactivate_sets d j).
  - apply Hd. revert He. unfold deactivate, Helpers.removeClass, update.
    by rewrite !list_lookup_alter_ne.
Qed.

Lemma foldl_deactivate_keeps (l : list nat) (d : Document) (i : nat) :
  (forall e, d !! i = Some e ->
     ("active"%string ∉ classList e) /\
     attributes e !! "aria-current"%string = Some "false"%string) ->
  forall e, foldl deactivate d l !! i = Some e ->
    ("active"%string ∉ classList e) /\
    attributes e !! "aria-current"%string = Some "false"%string.
Proof.
  revert d. induction l as [|x l IH]; intros d Hd; [exact Hd|].
  cbn [foldl]. apply IH. by apply deactivate_keeps.
Qed.

Lemma foldl_deactivate_sets (l : list nat) (d : Document) (i : nat)
    (e : Element) :
  i ∈ l -> foldl deactivate d l !! i = Some e ->
  ("active"%string ∉ classList e) /\
  attributes e !! "aria-current"%string = Some "false"%string.
Proof.
  revert d. induction l as [|x l IH]; intros d Hin; [by apply elem_of_nil in Hin|].
  cbn [foldl]. destruct (decide (i ∈ l)) as [Hl|Hl]; [by apply IH|].
  apply elem_of_cons in Hin as [->|Hin]; [|done].
  apply foldl_deactivate_keeps. apply deactivate_sets.
Qed.

(** X12. [updateActiveNavItem] returns normally whenever the section id
    can be spliced into the selector, and always when it is left out (the
    id then comes from [getCurrentSection]).  It records the id as the
    current section and touches only the class list and [aria-current] of
    links; afterwards a navigation link carries [active] exactly when it is
    the first [nav a] whose [href] is [#id], with [aria-current="page"],
    every other link having [aria-current="false"]. *)
Theorem updateActiveNavItem_marks_one_link (sectionId : option string)
    (s : State) :
  (forall id, sectionId = Some id -> quotable id = true) ->
  exists id s',
    updateActiveNavItem sectionId s = (Normal tt, s') /\
    (if JsString.truthy sectionId then sectionId = Some id
     else getCurrentSection s = (Normal id, s)) /\
    currentSection s' = id /\
    (window s' = window s /\ navLinks s' = navLinks s /\
     mobileMenuBtn s' = mobileMenuBtn s /\ mainNav s' = mainNav s /\
     header s' = header s /\ isMobileMenuOpen s' = isMobileMenuOpen s /\
     timers s' = timers s /\ frames s' = frames s /\ trace s' = trace s) /\
    linkShape <$> document s' = linkShape <$> document s /\
    (forall link e', link ∈ navLinks s -> document s' !! link = Some e' ->
       ("active"%string ∈ classList e'
        <-> activeLinkOf (document s) id = Some link) /\
       attributes e' !! "aria-current"%string
       = Some (if bool_decide (activeLinkOf (document s) id = Some link)
               then "page" else "false")%string).
Proof.
  intros Hq.
  assert (Hid : exists id,
            (if JsString.truthy sectionId then sectionId = Some id
             else getCurrentSection s = (Normal id, s)) /\
            quotable id = true).
  { destruct (JsString.truthy sectionId) eqn:Ht.
    - destruct sectionId as [id|]; [|discriminate]. exists id. auto.
    - destruct (getCurrentSection_returns s) as (name & Hget & _ & Hqn).
      exists name. auto. }
  destruct Hid as (id & Hres & Hqid).
  exists id, (markSection id s).
  split; [by apply updateActiveNavItem_eq|]. split; [exact Hres|].
  unfold markSection. cbn [navLinks set_currentSection document set_document].
  set (d1 := foldl deactivate (document s) (navLinks s)).
  assert (Hshape : linkShape <$> d1 = linkShape <$> document s)
    by apply linkShape_foldl.
  rewrite (activeLinkOf_shape _ _ id Hshape).
  destruct (activeLinkOf (document s) id) as [a|] eqn:Ha.
  - split; [reflexivity|]. split; [by repeat split|].
    cbn [document set_document set_currentSection]. fold d1. split.
    + unfold Helpers.addClass, update. rewrite !linkShape_alter; [done| |].
      * intros e. by destruct (contains "active" e).
      * intros e. apply linkShape_aria.
    + intros link e' Hin. unfold Helpers.addClass, update.
      destruct (decide (link = a)) as [->|Hne].
      * rewrite !list_lookup_alter_eq.
        destruct (d1 !! a) as [e1|]; [|done]. simpl.
        intros [= <-]. rewrite bool_decide_eq_true_2 by done.
        split; [|apply lookup_insert_eq]. split; [done|]. intros _. simpl.
        unfold contains. case_bool_decide as Hc; simpl; [exact Hc|].
        rewrite bool_decide_eq_false_2 by exact Hc.
        apply elem_of_app. right. by left.
      * rewrite !list_lookup_alter_ne by done. intros He'.
        destruct (foldl_deactivate_sets _ _ _ _ Hin He') as [Hact Haria].
        rewrite bool_decide_eq_false_2 by congruence.
        split; [|exact Haria]. split; [done | congruence].
  - split; [reflexivity|]. split; [by repeat split|].
    cbn [document set_document set_currentSection]. fold d1. split; [exact Hshape|].
    intros link e' Hin He'.
    destruct (foldl_deactivate_sets _ _ _ _ Hin He') as [Hact Haria].
    rewrite bool_decide_eq_false_2 by done.
    split; [|exact Haria]. split; [done | done].
Qed.

Lemma updateActiveNavItem_marks_one_link_witness :
  let s := Example.navigation in
  let s' := snd (updateActiveNavItem (Some "about"%string) s) in
  currentSection s' = "about"%string /\
  filter (fun link =>
            from_option (contains "active") false (document s' !! link) = true)
         (navLinks s) = [3%nat].
Proof.
  cbv zeta.
  assert (Hq : forall id, Some "about"%string = Some id -> quotable id = true).
  { intros id [= <-]. reflexivity. }
  destruct (updateActiveNavItem_marks_one_link (Some "about"%string)
              Example.navigation Hq) as (id & s' & Heq & Hid & Hcur & _).
  rewrite Heq. cbn [snd]. simpl in Hid. injection Hid as <-.
  split; [exact Hcur|].
  assert (Hs' : s' = snd (updateActiveNavItem (Some "about"%string)
                            Example.navigation)) by (by rewrite Heq).
  rewrite Hs'. vm_compute. reflexivity.
Defined.

End ActiveLink.

(** ** Navigation: start-up and clicks *)

Section NavigationStartup.
Import Dom Eff Navigation.

Lemma markSection_frame (id : string) (s : State) :
  currentSection (markSection id s) = id /\
  window (markSection id s) = window s /\
  navLinks (markSection id s) = navLinks s /\
  mobileMenuBtn (markSection id s) = mobileMenuBtn s /\
  mainNav (markSection id s) = mainNav s /\
  header (markSection id s) = header s /\
  isMobileMenuOpen (markSection id s) = isMobileMenuOpen s /\
  timers (markSection id s) = timers s /\
  frames (markSection id s) = frames s /\
  trace (markSection id s) = trace s.
Proof.
  unfold markSection. cbv zeta.
  match goal with |- context [activeLinkOf ?d ?i] =>
    destruct (activeLinkOf d i) end; repeat split.
Qed.

Lemma closeMobileMenu_without_button (s : State) :
  mobileMenuBtn s = None ->
  closeMobileMenu s
  = (Throw (TypeError "mobileMenuBtn"),
     set_document (Helpers.removeClass (mainNav s) "active")
       (set_isMobileMenuOpen false s)).
Proof.
  intros Hb. destruct s as [doc win btn nav links hdr open cur tm fr tr].
  simpl in Hb. subst btn. reflexivity.
Qed.

Lemma openMobileMenu_without_button (s : State) :
  mobileMenuBtn s = None ->
  openMobileMenu s
  = (Throw (TypeError "mobileMenuBtn"),
     set_document (Helpers.addClass (mainNav s) "active")
       (set_isMobileMenuOpen true s)).
Proof.
  intros Hb. destruct s as [doc win btn nav links hdr open cur tm fr tr].
  simpl in Hb. subst btn. reflexivity.
Qed.

Lemma closeMobileMenu_with_button (s : State) (b : nat) :
  mobileMenuBtn s = Some b ->
  let r := closeMobileMenu s in
  fst r = Normal tt /\
  isMobileMenuOpen (snd r) = false /\
  currentSection (snd r) = currentSection s /\
  timers (snd r) = timers s /\ frames (snd r) = frames s /\
  trace (snd r)
  = trace s ++ [Dispatched "mobileMenuClosed"; ConsoleLog "Mobile menu closed"].
Proof.
  intros Hb. destruct s as [doc win btn nav links hdr open cur tm fr tr].
  simpl in Hb. subst btn.
  unfold closeMobileMenu, bind, modify, get, deref, ret; simpl.
  rewrite <- app_assoc. repeat split.
Qed.

(** X13. Without [#mobileMenuBtn], opening, closing and toggling the menu
    throw a TypeError after the flag has been flipped and the nav restyled,
    and before any event is dispatched or anything is logged. *)
Theorem menu_without_button_throws (s : State) :
  mobileMenuBtn s = None ->
  let r := toggleMobileMenu s in
  fst r = Throw (TypeError "mobileMenuBtn") /\
  isMobileMenuOpen (snd r) = negb (isMobileMenuOpen s) /\
  document (snd r)
  = (if isMobileMenuOpen s then Helpers.removeClass (mainNav s) "active"
     else Helpers.addClass (mainNav s) "active") (document s) /\
  trace (snd r) = trace s /\ timers (snd r) = timers s /\
  fst (openMobileMenu s) = Throw (TypeError "mobileMenuBtn") /\
  fst (closeMobileMenu s) = Throw (TypeError "mobileMenuBtn").
Proof.
  intros Hb r.
  assert (Hr : r = if isMobileMenuOpen s then closeMobileMenu s
                   else openMobileMenu s).
  { unfold r, toggleMobileMenu, bind, get. by destruct (isMobileMenuOpen s). }
  rewrite Hr, (closeMobileMenu_without_button s Hb),
    (openMobileMenu_without_button s Hb).
  destruct (isMobileMenuOpen s); repeat split.
Qed.

Lemma menu_without_button_throws_witness :
  let s := set_isMobileMenuOpen false
             (cacheElements
                (set_document (update 6 (removeAttribute "id"))
                   Example.navigation)) in
  mobileMenuBtn s = None /\
  fst (toggleMobileMenu s) = Throw (TypeError "mobileMenuBtn") /\
  isMobileMenuOpen (snd (toggleMobileMenu s)) = true /\
  trace (snd (toggleMobileMenu s)) = [].
Proof.
  intros s.
  assert (Hb : mobileMenuBtn s = None) by (vm_compute; reflexivity).
  split; [exact Hb|].
  destruct (menu_without_button_throws s Hb) as (H1 & H2 & _ & H4 & _).
  split; [exact H1|]. split; [exact H2|]. rewrite H4. reflexivity.
Defined.

Lemma handleInitialState_eq (s : State) (id : string) :
  getCurrentSection s = (Normal id, s) -> quotable id = true ->
  handleInitialState s
  = if negb (ViewportUtils.isMobile (window s))
    then closeMobileMenu (markSection id s)
    else (Normal tt, markSection id s).
Proof.
  intros Hget Hq. unfold handleInitialState. unfold bind at 1.
  rewrite (updateActiveNavItem_eq None id s Hget Hq).
  unfold bind, get.
  destruct (markSection_frame id s) as (_ & -> & _).
  by destruct (ViewportUtils.isMobile (window s)).
Qed.

(** X14. [init] caches the elements and marks the link of the current
    section.  In a mobile window that is all, and it logs
    [Navigation initialized].  In a wider window it goes on to
    [closeMobileMenu]: with a menu button on the page it announces
    [mobileMenuClosed] although no menu was open, then logs; without one it
    throws a TypeError and never logs. *)
Theorem init_outcomes (s : State) :
  let s0 := cacheElements s in
  let r := init s in
  exists id,
    getCurrentSection s0 = (Normal id, s0) /\
    (ViewportUtils.isMobile (window s) = true ->
     r = (Normal tt,
          emit (ConsoleLog "Navigation initialized") (markSection id s0))) /\
    (ViewportUtils.isMobile (window s) = false ->
     getElementById (document s) "mobileMenuBtn" = None ->
     fst r = Throw (TypeError "mobileMenuBtn") /\
     trace (snd r) = trace s /\ currentSection (snd r) = id) /\
    (ViewportUtils.isMobile (window s) = false ->
     is_Some (getElementById (document s) "mobileMenuBtn") ->
     fst r = Normal tt /\
     isMobileMenuOpen (snd r) = false /\ currentSection (snd r) = id /\
     trace (snd r)
     = trace s ++ [Dispatched "mobileMenuClosed";
                   ConsoleLog "Mobile menu closed";
                   ConsoleLog "Navigation initialized"]).
Proof.
  intros s0 r.
  destruct (getCurrentSection_returns s0) as (id & Hget & _ & Hq).
  exists id. split; [exact Hget|].
  assert (Hr : r = match handleInitialState s0 with
                   | (Normal _, s') =>
                       (Normal tt, emit (ConsoleLog "Navigation initialized") s')
                   | (Throw e, s') => (Throw e, s')
                   end).
  { unfold r, init, bind, modify. fold s0.
    by destruct (handleInitialState s0) as [[[]|e] s']. }
  rewrite (handleInitialState_eq s0 id Hget Hq) in Hr.
  change (window s0) with (window s) in Hr.
  destruct (markSection_frame id s0)
    as (Hcur & _ & _ & Hbtn & _ & _ & _ & _ & _ & Htr).
  change (mobileMenuBtn s0)
    with (getElementById (document s) "mobileMenuBtn") in Hbtn.
  change (trace s0) with (trace s) in Htr.
  split; [|split].
  - intros Hm. rewrite Hm in Hr. exact Hr.
  - intros Hm Hnone. rewrite Hm in Hr. simpl in Hr.
    rewrite Hnone in Hbtn.
    rewrite (closeMobileMenu_without_button _ Hbtn) in Hr.
    rewrite Hr. cbn [fst snd]. split; [reflexivity|].
    split; [exact Htr | exact Hcur].
  - intros Hm [b Hsome]. rewrite Hm in Hr. simpl in Hr.
    rewrite Hsome in Hbtn.
    destruct (closeMobileMenu_with_button _ b Hbtn)
      as (Hc1 & Hc2 & Hc3 & _ & _ & Hc6).
    destruct (closeMobileMenu (markSection id s0)) as [c s1].
    simpl in Hc1, Hc2, Hc3, Hc6. subst c. rewrite Hr. cbn [fst snd].
    split; [reflexivity|]. split; [exact Hc2|].
    split; [by rewrite <- Hcur, <- Hc3|].
    cbn [trace emit]. rewrite Hc6, Htr, <- app_assoc. reflexivity.
Qed.

Lemma init_outcomes_witness :
  let s := {| document := Example.page;
              window := ViewportUtils.windowOfWidth 1280;
              mobileMenuBtn := None; mainNav := None; navLinks := [];
              header := None; isMobileMenuOpen := false;
              currentSection := "home"; timers := Helpers.noTimers;
              frames := []; trace := [] |} in
  ViewportUtils.isMobile (window s) = false /\
  fst (init s) = Normal tt /\
  trace (snd (init s))
  = [Dispatched "mobileMenuClosed"; ConsoleLog "Mobile menu closed";
     ConsoleLog "Navigation initialized"].
Proof.
  intros s.
  assert (Hm : ViewportUtils.isMobile (window s) = false)
    by (vm_compute; reflexivity).
  assert (Hb : is_Some (getElementById (document s) "mobileMenuBtn"))
    by (exists 6%nat; vm_compute; reflexivity).
  split; [exact Hm|].
  destruct (init_outcomes s) as (id & _ & _ & _ & Hwide).
  destruct (Hwide Hm Hb) as (H1 & _ & _ & H4).
  split; [exact H1 | exact H4].
Defined.

End NavigationStartup.

Section NavigationClick.
Import Dom Eff Navigation.

(** [handleNavClick] on a link whose target is found. *)
Lemma handleNavClick_found (s : State) (link : nat) (href : string)
    (t : nat) (e : Element) :
  document s !! link ≫= getAttribute "href" = Some href ->
  let targetId := JsString.substring1 href in
  targetId ≠ "get-started"%string -> targetId ≠ ""%string ->
  quotable targetId = true ->
  sectionOf (document s) targetId = Some t -> document s !! t = Some e ->
  handleNavClick link s
  = let s3 := markSection targetId
                (set_frames (frames s ++ [tweenTo s e])
                   (emit PreventDefault s)) in
    (Normal tt,
     if ViewportUtils.isMobile (window s) && isMobileMenuOpen s
     then set_timers (snd (Helpers.setTimeout CloseMobileMenu 300 (timers s3))) s3
     else s3).
Proof.
  intros Hhref targetId Hgs Hne Hq Hsec He.
  unfold handleNavClick. unfold bind at 1, modify at 1.
  unfold bind at 1, get at 1. unfold bind at 1.
  change (document (emit PreventDefault s)) with (document s).
  rewrite Hhref. cbn [deref]. unfold ret at 1. fold targetId.
  rewrite bool_decide_eq_false_2 by exact Hgs.
  unfold bind at 1. rewrite (findSection_quotable _ _ Hq).
  change (document (emit PreventDefault s)) with (document s).
  rewrite Hsec. unfold bind at 1.
  rewrite (scrollToElement_requests_tween _ t e) by exact He.
  change (tweenTo (emit PreventDefault s) e) with (tweenTo s e).
  change (frames (emit PreventDefault s)) with (frames s).
  unfold bind at 1.
  rewrite (updateActiveNavItem_eq (Some targetId) targetId); [| |exact Hq].
  2: { destruct targetId; [done | reflexivity]. }
  unfold bind, get.
  set (s3 := markSection targetId _).
  destruct (markSection_frame targetId
              (set_frames (frames s ++ [tweenTo s e]) (emit PreventDefault s)))
    as (_ & Hw & _ & _ & _ & _ & Ho & _).
  fold s3 in Hw, Ho. rewrite Hw, Ho.
  change (window (set_frames _ _)) with (window s).
  change (isMobileMenuOpen (set_frames _ _)) with (isMobileMenuOpen s).
  by destruct (ViewportUtils.isMobile (window s) && isMobileMenuOpen s).
Qed.

(** X15. A click on a navigation link whose target exists (by id or by
    [data-section]) cancels the default action, requests one tween towards
    the target, and makes the target the current section.  With the menu
    open in a mobile window it also sets one 300ms timer, and when that
    timer comes due the menu is closed and [mobileMenuClosed] dispatched;
    otherwise it sets none. *)
Theorem handleNavClick_scrolls_to_target (s : State) (link : nat)
    (href : string) (t : nat) (e : Element) :
  document s !! link ≫= getAttribute "href" = Some href ->
  let targetId := JsString.substring1 href in
  targetId ≠ "get-started"%string -> targetId ≠ ""%string ->
  quotable targetId = true ->
  sectionOf (document s) targetId = Some t -> document s !! t = Some e ->
  exists s',
    handleNavClick link s = (Normal tt, s') /\
    trace s' = trace s ++ [PreventDefault] /\
    frames s' = frames s ++ [tweenTo s e] /\
    currentSection s' = targetId /\
    isMobileMenuOpen s' = isMobileMenuOpen s /\
    (ViewportUtils.isMobile (window s) && isMobileMenuOpen s = false ->
     timers s' = timers s) /\
    (ViewportUtils.isMobile (window s) && isMobileMenuOpen s = true ->
     let id := S (Helpers.lastTimer (timers s)) in
     Helpers.pending (timers s')
     = <[id := (300, CloseMobileMenu)]> (Helpers.pending (timers s)) /\
     (is_Some (mobileMenuBtn s) ->
      let r := runTimer id s' in
      fst r = Normal tt /\ isMobileMenuOpen (snd r) = false /\
      trace (snd r)
      = trace s ++ [PreventDefault; Dispatched "mobileMenuClosed";
                    ConsoleLog "Mobile menu closed"])).
Proof.
  intros Hhref targetId Hgs Hne Hq Hsec He.
  rewrite (handleNavClick_found s link href t e Hhref Hgs Hne Hq Hsec He).
  fold targetId. cbv zeta.
  set (s3 := markSection targetId _).
  destruct (markSection_frame targetId
              (set_frames (frames s ++ [tweenTo s e]) (emit PreventDefault s)))
    as (Hcur & _ & _ & Hbtn & _ & _ & Hopen & Htm & Hfr & Htr).
  fold s3 in Hcur, Hbtn, Hopen, Htm, Hfr, Htr. simpl in Hbtn, Hopen, Htm, Hfr, Htr.
  eexists. split; [reflexivity|].
  destruct (ViewportUtils.isMobile (window s) && isMobileMenuOpen s) eqn:Hm.
  - cbn [trace frames currentSection isMobileMenuOpen timers set_timers].
    split; [exact Htr|]. split; [exact Hfr|]. split; [exact Hcur|].
    split; [exact Hopen|]. split; [discriminate|]. intros _.
    cbn [snd Helpers.setTimeout Helpers.pending]. rewrite Htm.
    split; [reflexivity|]. intros [b Hb].
    unfold runTimer, bind, get.
    cbn [timers set_timers Helpers.pending]. rewrite lookup_insert_eq.
    unfold modify at 1. cbv beta iota.
    match goal with |- context [closeMobileMenu ?x] => set (s4 := x) end.
    assert (Hb4 : mobileMenuBtn s4 = Some b) by (simpl; congruence).
    destruct (closeMobileMenu_with_button s4 b Hb4)
      as (Hc1 & Hc2 & _ & _ & _ & Hc6).
    split; [exact Hc1|]. split; [exact Hc2|].
    etransitivity; [exact Hc6|].
    change (trace s4) with (trace s3). rewrite Htr, <- app_assoc. reflexivity.
  - split; [exact Htr|]. split; [exact Hfr|]. split; [exact Hcur|].
    split; [exact Hopen|]. split; [by intros _ | discriminate].
Qed.

Lemma handleNavClick_scrolls_to_target_witness :
  let s := Example.navigation in
  (document s !! 3%nat ≫= getAttribute "href" = Some "#about"%string) /\
  let s' := snd (handleNavClick 3 s) in
  fst (handleNavClick 3 s) = Normal tt /\
  map Helpers.distance (frames s') = [750] /\
  currentSection s' = "about"%string /\
  trace s' = [PreventDefault].
Proof.
  intros s. split; [reflexivity|].
  destruct (handleNavClick_scrolls_to_target s 3 "#about" 8
              (Example.element "section" None [] [("id", "about")] "" 900 900)
              eq_refl ltac:(discriminate) ltac:(discriminate)
              eq_refl eq_refl eq_refl)
    as (s' & Heq & Htr & Hfr & Hcur & _).
  rewrite Heq. cbn [fst snd]. split; [reflexivity|].
  rewrite Hfr, Htr. split; [reflexivity|]. split; [exact Hcur | reflexivity].
Defined.

End NavigationClick.

(** ** Navigation: the flag and the page agree *)

Section MenuInvariant.
Import Dom Eff Navigation.
Variables b n : nat.

Ltac alter_lookup :=
  repeat first [ rewrite list_lookup_alter_eq
               | rewrite list_lookup_alter_ne by done ].

Lemma keepsMenu_ret {A} (a : A) : keepsMenu b n (ret a).
Proof. intros s H. exact H. Qed.

Lemma keepsMenu_throw {A} (e : Error) : keepsMenu b n (throw (A:=A) e).
Proof. intros s H. exact H. Qed.

Lemma keepsMenu_get : keepsMenu b n get.
Proof. intros s H. exact H. Qed.

Lemma keepsMenu_deref {A} (what : string) (r : option A) :
  keepsMenu b n (deref what r).
Proof. intros s H. by destruct r. Qed.

Lemma keepsMenu_bind {A B} (m : M State A) (k : A -> M State B) :
  keepsMenu b n m -> (forall a, keepsMenu b n (k a)) ->
  keepsMenu b n (bind m k).
Proof.
  intros Hm Hk s H. unfold bind. specialize (Hm s H).
  destruct (m s) as [[a|e] s']; simpl in *; [by apply Hk | exact Hm].
Qed.

(** Binding the state read by [get]: the continuation may use that it is
    consistent. *)
Lemma keepsMenu_get_bind {B} (k : State -> M State B) :
  (forall s0, menuConsistent b n s0 ->
     menuConsistent b n (snd (k s0 s0))) ->
  keepsMenu b n (bind get k).
Proof. intros Hk s H. unfold bind, get. by apply Hk. Qed.

Lemma keepsMenu_modify (f : State -> State) :
  (forall s, menuConsistent b n s -> menuConsistent b n (f s)) ->
  keepsMenu b n (modify f).
Proof. intros Hf s H. by apply Hf. Qed.

(** A change of the document that leaves the button and the nav alone. *)
Lemma menuConsistent_document (f : Document -> Document) (s : State) :
  f (document s) !! b = document s !! b ->
  f (document s) !! n = document s !! n ->
  menuConsistent b n s -> menuConsistent b n (set_document f s).
Proof.
  intros Hb Hn (H1 & H2 & H3 & H4 & H5 & be & ne & H6 & H7 & H8).
  repeat (split; [assumption|]). exists be, ne. simpl.
  rewrite Hb, Hn. auto.
Qed.

(** A change of one element that keeps its tag, its [active] class and
    its [aria-expanded]. *)
Lemma menuConsistent_update (f : Element -> Element) (i : nat) (s : State) :
  (forall e, tagName (f e) = tagName e /\
             contains "active" (f e) = contains "active" e /\
             attributes (f e) !! "aria-expanded"%string
             = attributes e !! "aria-expanded"%string) ->
  menuConsistent b n s -> menuConsistent b n (set_document (alter f i) s).
Proof.
  intros Hf (H1 & H2 & H3 & H4 & H5 & be & ne & H6 & H7 & H8 & H9 & H10 & H11 & H12).
  repeat (split; [assumption|]). simpl.
  exists (if decide (b = i) then f be else be),
         (if decide (n = i) then f ne else ne).
  destruct (Hf be) as (Hb1 & Hb2 & Hb3), (Hf ne) as (Hn1 & Hn2 & Hn3).
  split; [|split].
  - destruct (decide (b = i)) as [->|Hne].
    + by rewrite list_lookup_alter_eq, H6.
    + by rewrite list_lookup_alter_ne.
  - destruct (decide (n = i)) as [->|Hne].
    + by rewrite list_lookup_alter_eq, H7.
    + by rewrite list_lookup_alter_ne.
  - destruct (decide (b = i)), (decide (n = i)); repeat split; congruence.
Qed.

Lemma contains_other_add (c c' : string) (e : Element) :
  c ≠ c' -> contains c (classAdd c' e) = contains c e.
Proof.
  intros Hne. unfold contains, classAdd; simpl.
  destruct (bool_decide (c' ∈ classList e)); [done|]. apply bool_decide_ext.
  rewrite elem_of_app, list_elem_of_singleton.
  split; [intros [?|?]; [done | congruence] | by left].
Qed.

Lemma contains_other_remove (c c' : string) (e : Element) :
  c ≠ c' -> contains c (classRemove c' e) = contains c e.
Proof.
  intros Hne. unfold contains, classRemove; simpl. apply bool_decide_ext.
  rewrite list_elem_of_filter. split; [by intros [_ ?] | by split].
Qed.

Lemma menuConsistent_addClass (i : option nat) (c : string) (s : State) :
  c ≠ "active"%string ->
  menuConsistent b n s ->
  menuConsistent b n (set_document (Helpers.addClass i c) s).
Proof.
  intros Hc H. destruct i as [i|]; [|by destruct s].
  apply menuConsistent_update; [|exact H].
  intros e. destruct (contains c e); [done|].
  split; [done|]. split; [|done]. by apply contains_other_add.
Qed.

Lemma menuConsistent_removeClass (i : option nat) (c : string) (s : State) :
  c ≠ "active"%string ->
  menuConsistent b n s ->
  menuConsistent b n (set_document (Helpers.removeClass i c) s).
Proof.
  intros Hc H. destruct i as [i|]; [|by destruct s].
  apply menuConsistent_update; [|exact H].
  intros e. destruct (contains c e); [|done].
  split; [done|]. split; [|done]. by apply contains_other_remove.
Qed.

Lemma contains_added (c : string) (e : Element) :
  contains c (if contains c e then e else classAdd c e) = true.
Proof.
  destruct (contains c e) eqn:E; [exact E|].
  unfold contains, classAdd; simpl. apply bool_decide_eq_true_2.
  unfold contains in E. rewrite E. apply elem_of_app. right. by left.
Qed.

Lemma contains_removed (c : string) (e : Element) :
  contains c (if contains c e then classRemove c e else e) = false.
Proof.
  destruct (contains c e) eqn:E; [|exact E].
  unfold contains, classRemove; simpl. apply bool_decide_eq_false_2.
  intros Hin. apply list_elem_of_filter in Hin as [Hne _]. by apply Hne.
Qed.

Lemma openMobileMenu_state (s : State) :
  mobileMenuBtn s = Some b -> mainNav s = Some n ->
  let r := openMobileMenu s in
  fst r = Normal tt /\
  document (snd r) = openedDocument b n (document s) /\
  isMobileMenuOpen (snd r) = true /\
  mobileMenuBtn (snd r) = Some b /\ mainNav (snd r) = Some n /\
  navLinks (snd r) = navLinks s.
Proof.
  intros Hb Hn. destruct s as [doc win btn nav links hdr open cur tm fr tr].
  simpl in *. subst btn nav.
  unfold openMobileMenu, bind, modify, get, deref, ret; simpl.
  match goal with |- context [querySelectorIn ?d ?r ?q] =>
    destruct (querySelectorIn d r q) end; simpl; repeat split.
Qed.

Lemma closeMobileMenu_state (s : State) :
  mobileMenuBtn s = Some b -> mainNav s = Some n ->
  let r := closeMobileMenu s in
  fst r = Normal tt /\
  document (snd r) = closedDocument b n (document s) /\
  isMobileMenuOpen (snd r) = false /\
  mobileMenuBtn (snd r) = Some b /\ mainNav (snd r) = Some n /\
  navLinks (snd r) = navLinks s.
Proof.
  intros Hb Hn. destruct s as [doc win btn nav links hdr open cur tm fr tr].
  simpl in *. subst btn nav. repeat split.
Qed.

Lemma keepsMenu_openMobileMenu : keepsMenu b n openMobileMenu.
Proof.
  intros s (H1 & H2 & H3 & H4 & H5 & be & ne & H6 & H7 & H8 & H9 & _).
  assert (Hnb : n ≠ b) by congruence.
  destruct (openMobileMenu_state s H1 H2) as (_ & Hd & Ho & Hb' & Hn' & Hl).
  split; [exact Hb'|]. split; [exact Hn'|]. split; [exact H3|].
  rewrite Hl, Hd, Ho. split; [exact H4|]. split; [exact H5|].
  unfold openedDocument, Helpers.addClass, update.
  eexists _, _. split; [|split].
  - alter_lookup. rewrite H6. reflexivity.
  - alter_lookup. rewrite H7. reflexivity.
  - split; [by destruct (contains "active" be)|].
    split; [by destruct (contains "active" ne)|].
    split; [apply (contains_added "active" be)|].
    split; [apply (contains_added "active" ne)|].
    apply lookup_insert_eq.
Qed.

Lemma keepsMenu_closeMobileMenu : keepsMenu b n closeMobileMenu.
Proof.
  intros s (H1 & H2 & H3 & H4 & H5 & be & ne & H6 & H7 & H8 & H9 & _).
  assert (Hnb : n ≠ b) by congruence.
  destruct (closeMobileMenu_state s H1 H2) as (_ & Hd & Ho & Hb' & Hn' & Hl).
  split; [exact Hb'|]. split; [exact Hn'|]. split; [exact H3|].
  rewrite Hl, Hd, Ho. split; [exact H4|]. split; [exact H5|].
  unfold closedDocument, Helpers.removeClass, update.
  eexists _, _. split; [|split].
  - alter_lookup. rewrite H6. reflexivity.
  - alter_lookup. rewrite H7. reflexivity.
  - split; [by destruct (contains "active" be)|].
    split; [by destruct (contains "active" ne)|].
    split; [apply (contains_removed "active" be)|].
    split; [apply (contains_removed "active" ne)|].
    apply lookup_insert_eq.
Qed.

Lemma keepsMenu_forEach {A} (l : list A) (body : A -> M State unit) :
  (forall a, a ∈ l -> keepsMenu b n (body a)) ->
  keepsMenu b n (forEach l body).
Proof.
  induction l as [|a l IH]; intros Hbody; [apply keepsMenu_ret|].
  cbn [forEach]. apply keepsMenu_bind.
  - apply Hbody. by left.
  - intros _. apply IH. intros a' Ha'. apply Hbody. by right.
Qed.

(** Restyling an element other than the button and the nav. *)
Lemma keepsMenu_restyle (i : nat) (f : Element -> Element) :
  i ≠ b -> i ≠ n ->
  keepsMenu b n (modify (set_document (alter f i))).
Proof.
  intros Hb Hn. apply keepsMenu_modify. intros s.
  apply menuConsistent_document; by rewrite list_lookup_alter_ne.
Qed.

Lemma querySelector_tag (d : Document) (anc : Selector) (t : string)
    (c : Compound) (a : nat) :
  querySelector d [Desc anc (Tag t :: c)] = Some a ->
  exists e, d !! a = Some e /\ tagName e = t.
Proof.
  unfold querySelector, querySelectorAll. intros Hhead.
  assert (Hin : a ∈ filter (fun i => matchesAny d [Desc anc (Tag t :: c)] i = true)
                      (seq 0 (length d))).
  { destruct (filter _ _) as [|x l]; [discriminate|].
    injection Hhead as ->. by left. }
  apply list_elem_of_filter in Hin as [Hm _].
  unfold matchesAny in Hm. cbn [existsb matches] in Hm.
  rewrite orb_false_r, andb_true_iff in Hm. destruct Hm as [Hm _].
  unfold matchCompound in Hm. destruct (d !! a) as [e|]; [|discriminate].
  exists e. split; [reflexivity|]. cbn [forallb matchSimple] in Hm.
  rewrite andb_true_iff in Hm. destruct Hm as [Hm _].
  by apply bool_decide_eq_true in Hm.
Qed.

Lemma keepsMenu_updateActiveNavItem (sectionId : option string) :
  keepsMenu b n (updateActiveNavItem sectionId).
Proof.
  unfold updateActiveNavItem. apply keepsMenu_bind.
  { destruct (JsString.truthy sectionId); [apply keepsMenu_ret|].
    intros s H. destruct (getCurrentSection_returns s) as (name & -> & _).
    exact H. }
  intros id. apply keepsMenu_bind; [by apply keepsMenu_modify|]. intros _.
  apply keepsMenu_get_bind. intros s0 H0.
  assert (Hlinks : forall a, a ∈ navLinks s0 -> a ≠ b /\ a ≠ n).
  { destruct H0 as (_ & _ & _ & Hb & Hn & _). intros a Ha.
    split; intros ->; contradiction. }
  revert s0 H0 Hlinks. intros s0 H0 Hlinks.
  apply keepsMenu_bind; [| |exact H0].
  { apply keepsMenu_forEach. intros a Ha. destruct (Hlinks a Ha).
    apply keepsMenu_bind; [|intros _].
    - unfold Helpers.removeClass, update. by apply keepsMenu_restyle.
    - unfold update. by apply keepsMenu_restyle. }
  intros _ s H. unfold bind at 1, querySelectorText.
  destruct (cssString ("#" +:+ id)) as [value|];
    cbn [fmap option_fmap option_map]; [|exact H].
  unfold bind at 1, get, ret.
  match goal with |- context [querySelector ?d ?q] =>
    destruct (querySelector d q) as [a|] eqn:Ha end; [|exact H].
  apply querySelector_tag in Ha as (e & He & Htag).
  assert (Hab : a ≠ b /\ a ≠ n).
  { destruct H as (_ & _ & _ & _ & _ & be & ne & Hbe & Hne & Htb & Htn & _).
    split; intros ->; congruence. }
  destruct Hab as [Hb Hn]. clear He Htag.
  revert s H. apply keepsMenu_bind; [|intros _].
  - unfold Helpers.addClass, update. by apply keepsMenu_restyle.
  - unfold update. by apply keepsMenu_restyle.
Qed.

Lemma keepsMenu_scrollToElement (target : option nat) :
  keepsMenu b n (scrollToElement target).
Proof.
  intros s H. unfold scrollToElement. destruct target as [t|]; [|exact H].
  unfold bind, get.
  destruct (Helpers.smoothScrollTo _ _ _ _); exact H.
Qed.

Lemma keepsMenu_findSection (id : string) : keepsMenu b n (findSection id).
Proof.
  intros s H. unfold findSection, bind, get, querySelectorText.
  destruct (getElementById (document s) id); [exact H|].
  destruct (attrEqQuoted "data-section" id); exact H.
Qed.

Lemma keepsMenu_handle (e : Event) : keepsMenu b n (handle e).
Proof.
  destruct e as [|link| | |key|target|id|now]; cbn [handle].
  - (* the button *)
    apply keepsMenu_bind; [by apply keepsMenu_modify|]. intros _.
    apply keepsMenu_get_bind. intros s0 H0.
    destruct (isMobileMenuOpen s0);
      [by apply keepsMenu_closeMobileMenu | by apply keepsMenu_openMobileMenu].
  - (* a link *)
    unfold handleNavClick.
    apply keepsMenu_bind; [by apply keepsMenu_modify|]. intros _.
    apply keepsMenu_bind; [apply keepsMenu_get|]. intros s1.
    apply keepsMenu_bind; [apply keepsMenu_deref|]. intros href.
    case_bool_decide.
    + unfold handleGetStarted.
      apply keepsMenu_bind; [apply keepsMenu_get|]. intros s2.
      apply keepsMenu_bind; [apply keepsMenu_scrollToElement|]. intros _.
      by apply keepsMenu_modify.
    + apply keepsMenu_bind; [apply keepsMenu_findSection|].
      intros [t|]; [|by apply keepsMenu_modify].
      apply keepsMenu_bind; [apply keepsMenu_scrollToElement|]. intros _.
      apply keepsMenu_bind; [apply keepsMenu_updateActiveNavItem|]. intros _.
      apply keepsMenu_bind; [apply keepsMenu_get|]. intros s2.
      destruct (_ && _); [by apply keepsMenu_modify | apply keepsMenu_ret].
  - (* resize *)
    unfold handleResize.
    apply keepsMenu_bind; [apply keepsMenu_get|]. intros s1.
    apply keepsMenu_bind.
    + destruct (_ && _); [apply keepsMenu_closeMobileMenu | apply keepsMenu_ret].
    + intros _. unfold updateNavigationLayout.
      apply keepsMenu_bind; [apply keepsMenu_get|]. intros s2.
      by apply keepsMenu_modify.
  - (* scroll *)
    unfold handleScroll.
    apply keepsMenu_bind; [apply keepsMenu_updateActiveNavItem|]. intros _.
    apply keepsMenu_bind; [apply keepsMenu_get|]. intros s1.
    destruct (header s1) as [h|]; [|apply keepsMenu_ret].
    destruct (50 <? _); apply keepsMenu_modify; intros s.
    + by apply menuConsistent_addClass.
    + by apply menuConsistent_removeClass.
  - (* a key *)
    unfold onKeydown.
    apply keepsMenu_bind; [apply keepsMenu_get|]. intros s1.
    destruct (_ && _); [apply keepsMenu_closeMobileMenu | apply keepsMenu_ret].
  - (* a click anywhere *)
    unfold onDocumentClick.
    apply keepsMenu_bind; [apply keepsMenu_get|]. intros s1.
    destruct (isMobileMenuOpen s1); [|apply keepsMenu_ret].
    apply keepsMenu_bind; [apply keepsMenu_deref|]. intros nav.
    destruct (nodeContains _ nav target); [apply keepsMenu_ret|].
    apply keepsMenu_bind; [apply keepsMenu_deref|]. intros btn.
    destruct (nodeContains _ btn target);
      [apply keepsMenu_ret | apply keepsMenu_closeMobileMenu].
  - (* a timer *)
    unfold runTimer.
    apply keepsMenu_bind; [apply keepsMenu_get|]. intros s1.
    destruct (_ !! id) as [[d task]|]; [|apply keepsMenu_ret].
    apply keepsMenu_bind; [by apply keepsMenu_modify|]. intros _.
    destruct task; [by apply keepsMenu_modify | apply keepsMenu_closeMobileMenu].
  - (* an animation frame *)
    unfold runFrame.
    apply keepsMenu_bind; [apply keepsMenu_get|]. intros s1.
    destruct (frames s1) as [|a rest]; [apply keepsMenu_ret|].
    apply keepsMenu_bind; [by apply keepsMenu_modify|]. intros _.
    destruct (Helpers.raised _); [apply keepsMenu_throw|].
    apply keepsMenu_bind.
    + destruct (Helpers.scrolledTo _);
        [by apply keepsMenu_modify | apply keepsMenu_ret].
    + intros _. destruct (Helpers.again _);
        [by apply keepsMenu_modify | apply keepsMenu_ret].
Qed.

End MenuInvariant.

Section HrefsInvariant.
Import Dom Eff Navigation.

Lemma keepsHrefs_ret {A} (a : A) : keepsHrefs (ret a).
Proof. intros s. reflexivity. Qed.

Lemma keepsHrefs_throw {A} (e : Error) : keepsHrefs (throw (A:=A) e).
Proof. intros s. reflexivity. Qed.

Lemma keepsHrefs_get : keepsHrefs get.
Proof. intros s. reflexivity. Qed.

Lemma keepsHrefs_deref {A} (what : string) (r : option A) :
  keepsHrefs (deref what r).
Proof. intros s. by destruct r. Qed.

Lemma keepsHrefs_bind {A B} (m : M State A) (k : A -> M State B) :
  keepsHrefs m -> (forall a, keepsHrefs (k a)) -> keepsHrefs (bind m k).
Proof.
  intros Hm Hk s. unfold bind. specialize (Hm s).
  destruct (m s) as [[a|e] s']; simpl in *; [|exact Hm].
  by rewrite Hk.
Qed.

Lemma keepsHrefs_modify (f : State -> State) :
  (forall s, hrefs (document (f s)) = hrefs (document s)) ->
  keepsHrefs (modify f).
Proof. intros Hf s. apply Hf. Qed.

Lemma keepsHrefs_forEach {A} (l : list A) (body : A -> M State unit) :
  (forall a, keepsHrefs (body a)) -> keepsHrefs (forEach l body).
Proof.
  intros Hbody. induction l as [|a l IH]; [apply keepsHrefs_ret|].
  cbn [forEach]. apply keepsHrefs_bind; [apply Hbody | intros _; exact IH].
Qed.

(** A change of one element that keeps its [href]. *)
Lemma hrefs_alter (f : Element -> Element) (i : nat) (d : Document) :
  (forall e, getAttribute "href" (f e) = getAttribute "href" e) ->
  hrefs (alter f i d) = hrefs d.
Proof.
  intros Hf. unfold hrefs. apply list_eq. intros j.
  rewrite !list_lookup_fmap.
  destruct (decide (j = i)) as [->|Hne]; [|by rewrite list_lookup_alter_ne].
  rewrite list_lookup_alter_eq. destruct (d !! i) as [e|]; [|done].
  cbn. by rewrite Hf.
Qed.

Lemma hrefs_addClass (i : option nat) (c : string) (d : Document) :
  hrefs (Helpers.addClass i c d) = hrefs d.
Proof.
  destruct i as [i|]; [|done]. apply hrefs_alter.
  intros e. by destruct (contains c e).
Qed.

Lemma hrefs_removeClass (i : option nat) (c : string) (d : Document) :
  hrefs (Helpers.removeClass i c d) = hrefs d.
Proof.
  destruct i as [i|]; [|done]. apply hrefs_alter.
  intros e. by destruct (contains c e).
Qed.

Lemma hrefs_setAttribute (i : nat) (a v : string) (d : Document) :
  a ≠ "href"%string -> hrefs (update i (setAttribute a v) d) = hrefs d.
Proof.
  intros Ha. apply hrefs_alter. intros e.
  unfold getAttribute, setAttribute; simpl. by rewrite lookup_insert_ne.
Qed.

Lemma hrefs_set_textContent (i : nat) (t : string) (d : Document) :
  hrefs (update i (set_textContent t) d) = hrefs d.
Proof. by apply hrefs_alter. Qed.

Ltac keeps_step :=
  lazymatch goal with
  | |- keepsHrefs (ret _) => apply keepsHrefs_ret
  | |- keepsHrefs (throw _) => apply keepsHrefs_throw
  | |- keepsHrefs get => apply keepsHrefs_get
  | |- keepsHrefs (deref _ _) => apply keepsHrefs_deref
  | |- keepsHrefs (modify _) =>
      apply keepsHrefs_modify; intros ?;
      cbn [document set_document emit set_isMobileMenuOpen set_currentSection
             set_timers set_frames];
      first [ reflexivity | apply hrefs_addClass | apply hrefs_removeClass
            | apply hrefs_set_textContent
            | apply hrefs_setAttribute; discriminate ]
  | |- keepsHrefs (bind _ _) => apply keepsHrefs_bind; [|intros ?]
  end.

Ltac keeps := repeat keeps_step.

Lemma keepsHrefs_setTimeout (task : TimerTask) (delay : Z) :
  keepsHrefs (setTimeout task delay).
Proof. unfold setTimeout. keeps. Qed.

Lemma keepsHrefs_closeMobileMenu : keepsHrefs closeMobileMenu.
Proof. unfold closeMobileMenu. keeps. Qed.

Lemma keepsHrefs_openMobileMenu : keepsHrefs openMobileMenu.
Proof.
  unfold openMobileMenu. keeps.
  destruct (querySelectorIn _ _ _); [apply keepsHrefs_setTimeout | keeps].
Qed.

Lemma keepsHrefs_scrollToElement (target : option nat) :
  keepsHrefs (scrollToElement target).
Proof.
  intros s. unfold scrollToElement. destruct target as [t|]; [|done].
  unfold bind, get. by destruct (Helpers.smoothScrollTo _ _ _ _).
Qed.

Lemma keepsHrefs_findSection (id : string) : keepsHrefs (findSection id).
Proof.
  intros s. unfold findSection, bind, get, querySelectorText.
  destruct (getElementById (document s) id); [done|].
  by destruct (attrEqQuoted "data-section" id).
Qed.

Lemma keepsHrefs_updateActiveNavItem (sectionId : option string) :
  keepsHrefs (updateActiveNavItem sectionId).
Proof.
  unfold updateActiveNavItem. apply keepsHrefs_bind.
  { destruct (JsString.truthy sectionId); [apply keepsHrefs_ret|].
    intros s. by destruct (getCurrentSection_returns s) as (name & -> & _). }
  intros id. keeps.
  - apply keepsHrefs_forEach. intros link. keeps.
  - unfold querySelectorText.
    destruct (cssString ("#" +:+ id)) as [value|];
      cbn [fmap option_fmap option_map]; keeps.
  - match goal with |- keepsHrefs (match ?x with _ => _ end) =>
      destruct x end; keeps.
Qed.

Lemma keepsHrefs_handle (e : Event) : keepsHrefs (handle e).
Proof.
  destruct e as [|link| | |key|target|id|now]; cbn [handle].
  - (* the button *)
    keeps. unfold toggleMobileMenu. keeps.
    destruct (isMobileMenuOpen _);
      [apply keepsHrefs_closeMobileMenu | apply keepsHrefs_openMobileMenu].
  - (* a link *)
    unfold handleNavClick. keeps. cbv zeta. case_bool_decide.
    + unfold handleGetStarted. keeps. apply keepsHrefs_scrollToElement.
    + keeps; [apply keepsHrefs_findSection|].
      match goal with |- keepsHrefs (match ?x with _ => _ end) =>
        destruct x end; keeps;
        [apply keepsHrefs_scrollToElement
        |apply keepsHrefs_updateActiveNavItem|].
      destruct (_ && _); [apply keepsHrefs_setTimeout | keeps].
  - (* resize *)
    unfold handleResize. keeps.
    + destruct (_ && _); [apply keepsHrefs_closeMobileMenu | keeps].
    + unfold updateNavigationLayout. keeps.
  - (* scroll *)
    unfold handleScroll. keeps; [apply keepsHrefs_updateActiveNavItem|].
    destruct (header _) as [h|]; [|keeps].
    cbv zeta. destruct (50 <? _); keeps.
  - (* a key *)
    unfold onKeydown. keeps.
    destruct (_ && _); [apply keepsHrefs_closeMobileMenu | keeps].
  - (* a click anywhere *)
    unfold onDocumentClick. keeps.
    destruct (isMobileMenuOpen _); [|keeps]. keeps.
    destruct (nodeContains _ _ target); [keeps|]. keeps.
    destruct (nodeContains _ _ target);
      [keeps | apply keepsHrefs_closeMobileMenu].
  - (* a timer *)
    unfold runTimer. keeps.
    destruct (_ !! id) as [[d task]|]; [|keeps]. keeps.
    destruct task; [keeps | apply keepsHrefs_closeMobileMenu].
  - (* an animation frame *)
    unfold runFrame. keeps.
    destruct (frames _) as [|a' rest]; [keeps|]. keeps. cbv zeta.
    destruct (Helpers.raised _); [keeps|]. keeps.
    + destruct (Helpers.scrolledTo _); keeps.
    + unfold requestAnimationFrame. destruct (Helpers.again _); keeps.
Qed.

End HrefsInvariant.

Section MenuConsistency.
Import Dom Eff Navigation.

(** X16. The menu flag and the page stay in agreement, on a page whose
    links are plain: every [href], less its first character, is free of
    double quotes, backslashes and line breaks, so that the selectors
    assembled from it are the attribute selectors they are meant to be.
    From a state in which the button and the nav carry [active], and the
    button says [aria-expanded="true"], exactly when [isMobileMenuOpen]
    is set, every sequence of events keeps it so: clicks on the button, on
    links and elsewhere, keys, resize and scroll handlers, timers and
    animation frames, whether a handler returns or throws.  No handler
    writes an [href], so the links stay plain throughout. *)
Theorem menu_stays_consistent (b n : nat) (events : list Event) (s : State) :
  plainHrefs (document s) = true ->
  menuConsistent b n s ->
  menuConsistent b n (dispatchAll events s) /\
  hrefs (document (dispatchAll events s)) = hrefs (document s) /\
  plainHrefs (document (dispatchAll events s)) = true.
Proof.
  revert s. induction events as [|e events IH]; intros s Hplain H; [done|].
  cbn [dispatchAll foldl].
  assert (He : hrefs (document (dispatch s e)) = hrefs (document s))
    by apply keepsHrefs_handle.
  destruct (IH (dispatch s e)) as (Hmenu & Hhrefs & Hplain').
  - unfold plainHrefs. by rewrite He.
  - by apply keepsMenu_handle.
  - split; [exact Hmenu|]. split; [by rewrite <- He | exact Hplain'].
Qed.

Lemma menu_stays_consistent_witness :
  let events := [ButtonClick; LinkClick 3; TimerDue 2; Scrolled; ButtonClick;
                 Keydown "Escape"] in
  plainHrefs (document Example.navigation) = true /\
  menuConsistent 6 1 Example.navigation /\
  menuConsistent 6 1 (dispatchAll events Example.navigation).
Proof.
  intros events.
  assert (Hp : plainHrefs (document Example.navigation) = true)
    by (vm_compute; reflexivity).
  assert (H : menuConsistent 6 1 Example.navigation).
  { split; [reflexivity|]. split; [reflexivity|]. split; [discriminate|].
    split; [apply (bool_decide_unpack _); vm_compute; exact I|].
    split; [apply (bool_decide_unpack _); vm_compute; exact I|].
    eexists _, _. split; [reflexivity|]. split; [reflexivity|].
    split; [discriminate|]. split; [discriminate|].
    split; [reflexivity|]. split; reflexivity. }
  split; [exact Hp|]. split; [exact H|].
  exact (proj1 (menu_stays_consistent 6 1 events _ Hp H)).
Defined.

End MenuConsistency.

(** ** Animations: what the module never touches *)

Section Restyling.
Import Dom Animations.

Lemma restyled_refl (d : Document) : restyled d d.
Proof. split; [done|]. intros i e He. exists e. by repeat split. Qed.

Lemma restyled_trans (d1 d2 d3 : Document) :
  restyled d1 d2 -> restyled d2 d3 -> restyled d1 d3.
Proof.
  intros [Hl1 H1] [Hl2 H2]. split; [congruence|]. intros i e He.
  destruct (H1 i e He) as (e2 & He2 & Ht & Hp & Ha & Hx & Hc).
  destruct (H2 i e2 He2) as (e3 & He3 & Ht' & Hp' & Ha' & Hx' & Hc').
  exists e3. split; [exact He3|].
  repeat split; try congruence. by etrans.
Qed.

Lemma restyled_alter (f : Element -> Element) (i : nat) (d : Document) :
  (forall e, tagName (f e) = tagName e /\ parent (f e) = parent e /\
             attributes (f e) = attributes e /\
             textContent (f e) = textContent e /\
             classList e ⊆ classList (f e)) ->
  restyled d (alter f i d).
Proof.
  intros Hf. split; [apply length_alter|]. intros j e He.
  destruct (decide (j = i)) as [->|Hne].
  - exists (f e). rewrite list_lookup_alter_eq, He. split; [done|]. apply Hf.
  - exists e. rewrite list_lookup_alter_ne by done. by repeat split.
Qed.

Lemma restyled_assignStyle (i : nat) (prop : string) (v : StyleValue)
    (d : Document) :
  restyled d (update i (assignStyle prop v) d).
Proof.
  apply restyled_alter. intros e. unfold assignStyle.
  destruct v as [[|c r]|ms easing]; by repeat split.
Qed.

Lemma restyled_addClass (i : option nat) (c : string) (d : Document) :
  restyled d (Helpers.addClass i c d).
Proof.
  destruct i as [i|]; [|apply restyled_refl].
  apply restyled_alter. intros e. destruct (contains c e); [by repeat split|].
  repeat split; try done. unfold classAdd; simpl.
  destruct (bool_decide (c ∈ classList e)); [done|].
  intros x Hx. apply elem_of_app. by left.
Qed.

Lemma restyled_setStyle (element : nat) (prop : string) (v : StyleValue)
    (d0 : Document) (s : State) :
  restyled d0 (document s) ->
  restyled d0 (document (setStyle element prop v s)).
Proof.
  intros H. eapply restyled_trans; [exact H|]. apply restyled_assignStyle.
Qed.

Lemma restyled_forEach (d0 : Document) (f : nat -> nat -> State -> State)
    (l : list nat) (s : State) :
  (forall element index s, restyled d0 (document s) ->
     restyled d0 (document (f element index s))) ->
  restyled d0 (document s) -> restyled d0 (document (forEach f l s)).
Proof.
  intros Hf. unfold forEach.
  by apply (forEachFrom_preserves (fun s' => restyled d0 (document s'))).
Qed.

Ltac restyle :=
  repeat first [ assumption
               | apply restyled_setStyle
               | progress cbn [document setTimeout set_timers
                                set_animatedElements set_observers log
                                set_isInitialized set_eventsBound
                                set_prefersReducedMotion set_mediaReduce
                                set_hoverListeners] ].

Lemma restyled_checkMotionPreferences (d0 : Document) (s : State) :
  restyled d0 (document s) ->
  restyled d0 (document (checkMotionPreferences s)).
Proof.
  intros H. unfold checkMotionPreferences. cbv zeta.
  destruct (prefersReducedMotion (set_prefersReducedMotion _ _)); [|exact H].
  cbn [document log set_document set_prefersReducedMotion].
  eapply restyled_trans; [exact H|]. apply restyled_addClass.
Qed.

Lemma restyled_animateScreenContent (d0 : Document) (frame : nat) (s : State) :
  restyled d0 (document s) ->
  restyled d0 (document (animateScreenContent frame s)).
Proof.
  intros H. unfold animateScreenContent. cbv zeta.
  apply restyled_forEach; [|exact H]. intros element index s' H'. restyle.
Qed.

Lemma restyled_animateElement (d0 : Document) (element : nat) (s : State) :
  restyled d0 (document s) ->
  restyled d0 (document (animateElement element s)).
Proof.
  intros H. unfold animateElement. destruct (_ || _); [exact H|]. cbv zeta.
  assert (H1 : restyled d0
                 (document (set_document
                    (Helpers.addClass (Some element) "animate-in")
                    (set_animatedElements
                       ({[element]} ∪ animatedElements s) s)))).
  { cbn [document set_document set_animatedElements].
    eapply restyled_trans; [exact H|]. apply restyled_addClass. }
  repeat case_match;
    unfold animateHeroHeading, animateLaptopFrame, animateCTAButton,
      animateGeneric; restyle.
Qed.

Lemma restyled_intersect (d0 : Document) (o : nat)
    (entries : list (nat * bool)) (s : State) :
  restyled d0 (document s) ->
  restyled d0 (document (intersect o entries s)).
Proof.
  unfold intersect. revert s.
  induction entries as [|[target hit] entries IH]; intros s H; [exact H|].
  cbn [foldl]. apply IH. destruct hit; [|exact H]. cbn [snd fst].
  cbn [document set_observers]. by apply restyled_animateElement.
Qed.

Lemma restyled_setupLoadAnimations (d0 : Document) (s : State) :
  restyled d0 (document s) ->
  restyled d0 (document (setupLoadAnimations s)).
Proof.
  intros H. unfold setupLoadAnimations. cbv zeta.
  apply restyled_forEach; [|exact H]. intros element index s' H'.
  destruct (prefersReducedMotion s'); restyle.
Qed.

Lemma restyled_animateMobileMenuItems (d0 : Document) (s : State) :
  restyled d0 (document s) ->
  restyled d0 (document (animateMobileMenuItems s)).
Proof.
  intros H. unfold animateMobileMenuItems.
  destruct (prefersReducedMotion s); [exact H|]. cbv zeta.
  apply restyled_forEach; [|exact H]. intros element index s' H'. restyle.
Qed.

Lemma restyled_init (d0 : Document) (s : State) :
  restyled d0 (document s) -> restyled d0 (document (init s)).
Proof.
  intros H. unfold init. destruct (isInitialized s); [exact H|]. cbv zeta.
  cbn [document log set_isInitialized bindEvents set_eventsBound].
  apply restyled_setupLoadAnimations.
  assert (H1 : restyled d0 (document (checkMotionPreferences s)))
    by (by apply restyled_checkMotionPreferences).
  unfold setupHoverEffects, setupScrollAnimations.
  repeat case_match; restyle.
Qed.

Lemma restyled_runTask (d0 : Document) (t : Task) (s : State) :
  restyled d0 (document s) -> restyled d0 (document (runTask t s)).
Proof.
  intros H. destruct t; cbn [runTask]; cbv zeta; restyle.
  by apply restyled_animateScreenContent.
Qed.

Lemma restyled_step (d0 : Document) (a : Action) (s : State) :
  restyled d0 (document s) -> restyled d0 (document (step a s)).
Proof.
  intros H. destruct a as [p| |m|id|]; cbn [step].
  - destruct p; cbn [enter].
    + unfold setupScrollAnimations. by destruct (prefersReducedMotion s).
    + by apply restyled_animateElement.
    + by apply restyled_intersect.
    + by apply restyled_setupLoadAnimations.
    + by apply restyled_animateMobileMenuItems.
  - by apply restyled_init.
  - unfold mediaChange. cbv zeta.
    destruct (eventsBound _); [|exact H].
    by apply restyled_checkMotionPreferences.
  - unfold fireTimer. destruct (_ !! id) as [[delay task]|]; [|exact H].
    by apply restyled_runTask.
  - exact H.
Qed.

(** X17. Whatever happens to the Animations module (its entry points,
    [init], a change of the motion preference, timers coming due,
    [destroy], in any order), it only changes inline styles and adds
    classes: every element keeps its tag, parent, attributes and text,
    and every class it had.  In particular the [reduce-motion]
    class that [checkMotionPreferences] puts on the body is never taken
    off again, also not when the preference is switched off. *)
Theorem animations_only_restyle (actions : list Action) (s : State) :
  restyled (document s) (document (run actions s)) /\
  (forall i e, document s !! i = Some e ->
     contains "reduce-motion" e = true ->
     exists e', document (run actions s) !! i = Some e' /\
                contains "reduce-motion" e' = true).
Proof.
  assert (H : restyled (document s) (document (run actions s))).
  { unfold run. generalize (restyled_refl (document s)).
    generalize (document s) at 1 3 as d0. intros d0. revert s.
    induction actions as [|a actions IH]; intros s H; [exact H|].
    cbn [foldl]. apply IH. by apply restyled_step. }
  split; [exact H|]. intros i e He Hc.
  destruct H as [_ H]. destruct (H i e He) as (e' & He' & _ & _ & _ & _ & Hsub).
  exists e'. split; [exact He'|]. unfold contains in *.
  apply bool_decide_eq_true_2. apply Hsub. by apply bool_decide_eq_true in Hc.
Qed.

Lemma animations_only_restyle_witness :
  let s := AnimationsExample.started true in
  let actions := [MediaChange false; Init; Enter (AnimateElement 7);
                  FireTimer 1; Destroy] in
  prefersReducedMotion (run actions s) = false /\
  exists e', document (run actions s) !! 0%nat = Some e' /\
             contains "reduce-motion" e' = true.
Proof.
  intros s actions. split; [vm_compute; reflexivity|].
  destruct (animations_only_restyle actions s) as [_ H].
  apply (H 0%nat (Example.element "body" None ["reduce-motion"] [] "" 0 4000));
    vm_compute; reflexivity.
Defined.

End Restyling.

(** ** Animations: an entrance animation from start to end *)

Section Reveal.
Import Dom Animations.

Lemma length_setStyle (element : nat) (prop : string) (v : StyleValue)
    (s : State) :
  length (document (setStyle element prop v s)) = length (document s).
Proof. unfold setStyle, update; simpl. apply length_alter. Qed.

(** What the timer of a plain reveal leaves on the element. *)
Lemma runTask_Reveal (element : nat) (transition : StyleValue)
    (transform : string) (s : State) :
  transition ≠ Text "" -> (element < length (document s))%nat ->
  let s' := runTask (Reveal element transition transform) s in
  styleOf s' element "opacity" = Some (Text "1") /\
  styleOf s' element "transition" = Some transition /\
  timers s' = timers s.
Proof.
  intros Htr Hlen. cbn [runTask]. cbv zeta. split; [|split; [|reflexivity]].
  - rewrite styleOf_setStyle_ne by done.
    apply styleOf_setStyle_eq; [done|]. by rewrite length_setStyle.
  - rewrite !styleOf_setStyle_ne by done. by apply styleOf_setStyle_eq.
Qed.

Lemma runTask_RevealLaptop (element : nat) (s : State) :
  (element < length (document s))%nat ->
  let s' := runTask (RevealLaptop element) s in
  styleOf s' element "opacity" = Some (Text "1") /\
  styleOf s' element "transition" = Some (transitionAll (12 # 10)) /\
  timers s'
  = snd (Helpers.setTimeout (ScreenContent element) 360%Q (timers s)).
Proof.
  intros Hlen. cbn [runTask]. cbv zeta. split; [|split; [|reflexivity]].
  - unfold setTimeout. unfold styleOf. cbn [document set_timers].
    fold (styleOf (setStyle element "transform" (Text "translateX(0) scale(1)")
            (setStyle element "opacity" (Text "1")
               (setStyle element "transition" (transitionAll (12 # 10)) s)))
            element "opacity").
    rewrite styleOf_setStyle_ne by done.
    apply styleOf_setStyle_eq; [done|]. by rewrite length_setStyle.
  - unfold setTimeout. unfold styleOf. cbn [document set_timers].
    fold (styleOf (setStyle element "transform" (Text "translateX(0) scale(1)")
            (setStyle element "opacity" (Text "1")
               (setStyle element "transition" (transitionAll (12 # 10)) s)))
            element "transition").
    rewrite !styleOf_setStyle_ne by done. by apply styleOf_setStyle_eq.
Qed.

(** The four ways in: the element is hidden and one timer is set. *)
Lemma hide_then_timer (element : nat) (transform : string) (task : Task)
    (delay : Q) (s : State) :
  transform ≠ ""%string -> (element < length (document s))%nat ->
  let s' := setTimeout task delay
              (setStyle element "transform" (Text transform)
                 (setStyle element "opacity" (Text "0") s)) in
  styleOf s' element "opacity" = Some (Text "0") /\
  length (document s') = length (document s) /\
  timers s' = snd (Helpers.setTimeout task delay (timers s)) /\
  (forall i e', document s' !! i = Some e' ->
     exists e, document s !! i = Some e /\ classList e' = classList e).
Proof.
  intros Htf Hlen. cbv zeta. split; [|split; [|split; [reflexivity|]]].
  - unfold setTimeout, styleOf. cbn [document set_timers].
    fold (styleOf (setStyle element "transform" (Text transform)
                     (setStyle element "opacity" (Text "0") s))
            element "opacity").
    rewrite styleOf_setStyle_ne by done. by apply styleOf_setStyle_eq.
  - unfold setTimeout. cbn [document set_timers].
    by rewrite !length_setStyle.
  - intros i e'. unfold setTimeout, setStyle, update.
    cbn [document set_timers set_document].
    destruct (decide (i = element)) as [->|Hne].
    + rewrite !list_lookup_alter_eq.
      destruct (document s !! element) as [e|]; [|done]. simpl.
      intros [= <-]. exists e. split; [done|].
      destruct transform; [done|]. reflexivity.
    + rewrite !list_lookup_alter_ne by done. intros He'. by exists e'.
Qed.

(** [animateElement] on an element it has not seen, motion allowed. *)
Lemma animateElement_eq (s : State) (element : nat) :
  prefersReducedMotion s = false -> element ∉ animatedElements s ->
  let sb := set_document (Helpers.addClass (Some element) "animate-in")
              (set_animatedElements ({[element]} ∪ animatedElements s) s) in
  exists transform task delay,
    animateElement element s
    = setTimeout task delay
        (setStyle element "transform" (Text transform)
           (setStyle element "opacity" (Text "0") sb)) /\
    transform ≠ ""%string /\
    ((task = RevealLaptop element /\ delay = 100%Q) \/
     (task = Reveal element (transitionAll 1) "translateY(0)" /\
      (delay = 50%Q \/ delay = 200%Q))).
Proof.
  intros Hflag Hnew sb. unfold animateElement.
  rewrite Hflag, bool_decide_eq_false_2 by exact Hnew. cbv zeta. fold sb.
  cbn [orb].
  destruct (matches (document sb) _ element).
  { eexists _, _, _. split; [reflexivity|]. split; [discriminate|].
    right. split; [reflexivity | by left]. }
  destruct (matches (document sb) _ element).
  { eexists _, _, _. split; [reflexivity|]. split; [discriminate|].
    left. split; reflexivity. }
  destruct (matches (document sb) _ element).
  { eexists _, _, _. split; [reflexivity|]. split; [discriminate|].
    right. split; [reflexivity | by right]. }
  eexists _, _, _. split; [reflexivity|]. split; [discriminate|].
  right. split; [reflexivity | by left].
Qed.

(** Adding a class changes no test that does not ask for that class. *)
Lemma matchCompound_addClass (i : option nat) (c : string) (d : Document)
    (comp : Compound) (j : nat) :
  Class c ∉ comp ->
  matchCompound (Helpers.addClass i c d) comp j = matchCompound d comp j.
Proof.
  intros Hc. destruct i as [i|]; [|done].
  unfold matchCompound, Helpers.addClass, update.
  destruct (decide (j = i)) as [->|Hne]; [|by rewrite list_lookup_alter_ne].
  rewrite list_lookup_alter_eq. destruct (d !! i) as [e|]; [|done].
  cbn [fmap option_fmap option_map].
  destruct (contains c e) eqn:E; [done|].
  induction comp as [|x comp IH]; [done|]. cbn [forallb].
  rewrite IH by (intros H; apply Hc; by right). f_equal.
  destruct x as [|t|c'|id|a v|a v]; try reflexivity.
  cbn [matchSimple]. unfold contains, classAdd. cbn [classList set_classList].
  unfold contains in E. rewrite E.
  assert (c' ≠ c) by (intros ->; apply Hc; by left).
  apply bool_decide_ext. rewrite elem_of_app, list_elem_of_singleton. tauto.
Qed.

Lemma parent_addClass (i : option nat) (c : string) (d : Document) (j : nat) :
  Helpers.addClass i c d !! j ≫= parent = d !! j ≫= parent.
Proof.
  destruct i as [i|]; [|done]. unfold Helpers.addClass, update.
  destruct (decide (j = i)) as [->|Hne]; [|by rewrite list_lookup_alter_ne].
  rewrite list_lookup_alter_eq. destruct (d !! i) as [e|]; [|done].
  cbn. by destruct (contains c e).
Qed.

Lemma ancestors_addClass (i : option nat) (c : string) (d : Document)
    (j : nat) :
  ancestors (Helpers.addClass i c d) j = ancestors d j.
Proof.
  unfold ancestors.
  assert (Hlen : length (Helpers.addClass i c d) = length d)
    by (destruct i; [apply length_alter | done]).
  rewrite Hlen.
  generalize (length d) as fuel. intros fuel. revert j.
  induction fuel as [|fuel IH]; intros j; [done|]. cbn [ancestorsFrom].
  rewrite parent_addClass. destruct (d !! j ≫= parent) as [p|]; [|done].
  by rewrite IH.
Qed.

Lemma matches_Sel_addClass (i : option nat) (c : string) (d : Document)
    (comp : Compound) (j : nat) :
  Class c ∉ comp ->
  matches (Helpers.addClass i c d) (Sel comp) j = matches d (Sel comp) j.
Proof. apply matchCompound_addClass. Qed.

Lemma matches_Desc_addClass (i : option nat) (c : string) (d : Document)
    (anc comp : Compound) (j : nat) :
  Class c ∉ anc -> Class c ∉ comp ->
  matches (Helpers.addClass i c d) (Desc (Sel anc) comp) j
  = matches d (Desc (Sel anc) comp) j.
Proof.
  intros Ha Hc. cbn [matches].
  rewrite matchCompound_addClass, ancestors_addClass by exact Hc. f_equal.
  induction (ancestors d j) as [|p l IH]; [done|]. cbn [existsb].
  by rewrite IH, matchCompound_addClass.
Qed.


(** Which of the four animations [animateElement] starts, read off the
    page as it is before the call. *)
Lemma animateElement_path (s : State) (element : nat) :
  prefersReducedMotion s = false -> element ∉ animatedElements s ->
  let sb := set_document (Helpers.addClass (Some element) "animate-in")
              (set_animatedElements ({[element]} ∪ animatedElements s) s) in
  animateElement element s
  = if matches (document s) (Desc (Sel [Class "hero-content"]) [Tag "h1"])
         element
    then animateHeroHeading element sb
    else if matches (document s) (Sel [Class "laptop-frame"]) element
    then animateLaptopFrame element sb
    else if matches (document s) (Sel [Class "cta-button"]) element
    then animateCTAButton element sb
    else animateGeneric element sb.
Proof.
  intros Hflag Hnew sb. unfold animateElement.
  rewrite Hflag, bool_decide_eq_false_2 by exact Hnew. cbv zeta. fold sb.
  cbn [orb]. unfold sb. cbn [document set_document set_animatedElements].
  rewrite matches_Desc_addClass, !matches_Sel_addClass; [reflexivity|..];
    rewrite ?list_elem_of_singleton; discriminate.
Qed.

(** The shift an element is given when it is hidden. *)
Lemma hide_transform (element : nat) (transform : string) (task : Task)
    (delay : Q) (s : State) :
  transform ≠ ""%string -> (element < length (document s))%nat ->
  styleOf (setTimeout task delay
             (setStyle element "transform" (Text transform)
                (setStyle element "opacity" (Text "0") s)))
          element "transform"
  = Some (Text transform).
Proof.
  intros Htf Hlen. unfold setTimeout, styleOf. cbn [document set_timers].
  fold (styleOf (setStyle element "transform" (Text transform)
                   (setStyle element "opacity" (Text "0") s))
          element "transform").
  apply styleOf_setStyle_eq; [by intros [= ->]|]. by rewrite length_setStyle.
Qed.

(** X18. An entrance animation from start to end, for each of the four
    kinds of element.  The first [animateElement] on an element of the
    page (motion allowed) gives it the class [animate-in], hides it
    ([opacity: 0]), shifts it and sets one timer.  Which shift and which
    timer is decided by the first of these tests the element passes: an
    [h1] inside [.hero-content] is shifted by [translateY(30px)] with a
    timer of 50ms; otherwise a [.laptop-frame] by
    [translateX(50px) scale(0.9)] with a timer of 100ms; otherwise a
    [.cta-button] by [translateY(20px)] with a timer of 200ms; any other
    element by [translateY(30px)] with a timer of 50ms.  When the timer
    comes due it is gone and the element is shown ([opacity: 1]): the
    laptop frame with a 720ms transition, and one more timer, of 360ms,
    is set for its screen content; every other element with a 600ms
    transition, and no further timer. *)
Theorem reveal_completes (s : State) (element : nat) :
  prefersReducedMotion s = false -> element ∉ animatedElements s ->
  (element < length (document s))%nat ->
  let hero :=
    matches (document s) (Desc (Sel [Class "hero-content"]) [Tag "h1"])
      element in
  let laptop :=
    negb hero && matches (document s) (Sel [Class "laptop-frame"]) element in
  let cta :=
    negb hero && negb laptop
    && matches (document s) (Sel [Class "cta-button"]) element in
  let s1 := animateElement element s in
  let id := S (Helpers.lastTimer (timers s)) in
  let s2 := fireTimer id s1 in
  (exists e1, document s1 !! element = Some e1 /\
              contains "animate-in" e1 = true) /\
  styleOf s1 element "opacity" = Some (Text "0") /\
  styleOf s1 element "transform"
  = Some (Text (if laptop then "translateX(50px) scale(0.9)"
                else if cta then "translateY(20px)"
                else "translateY(30px)")) /\
  Helpers.pending (timers s1) !! id
  = Some (if laptop then (100%Q, RevealLaptop element)
          else ((if cta then 200%Q else 50%Q),
                Reveal element (transitionAll 1) "translateY(0)")) /\
  Helpers.pending (timers s2) !! id = None /\
  styleOf s2 element "opacity" = Some (Text "1") /\
  styleOf s2 element "transition"
  = Some (TransitionAll (if laptop then 720 else 600) animationEasing) /\
  (if laptop
   then Helpers.pending (timers s2) !! S id
        = Some (360%Q, ScreenContent element)
   else Helpers.lastTimer (timers s2) = id).
Proof.
  intros Hflag Hnew Hlen hero laptop cta s1 id s2.
  set (sb := set_document (Helpers.addClass (Some element) "animate-in")
               (set_animatedElements ({[element]} ∪ animatedElements s) s)).
  assert (Hlenb : (element < length (document sb))%nat).
  { unfold sb, Helpers.addClass, update. cbn [document set_document
      set_animatedElements]. by rewrite length_alter. }
  set (transform := (if laptop then "translateX(50px) scale(0.9)"
                     else if cta then "translateY(20px)"
                     else "translateY(30px)")%string).
  set (entry := if laptop then (100%Q, RevealLaptop element)
                else ((if cta then 200%Q else 50%Q),
                      Reveal element (transitionAll 1) "translateY(0)")).
  assert (Heq : s1 = setTimeout (snd entry) (fst entry)
                       (setStyle element "transform" (Text transform)
                          (setStyle element "opacity" (Text "0") sb))).
  { unfold s1. rewrite (animateElement_path s element Hflag Hnew).
    fold sb hero. unfold entry, transform, cta, laptop.
    destruct hero; [reflexivity|]. cbn [negb andb].
    destruct (matches (document s) (Sel [Class "laptop-frame"]) element);
      [reflexivity|]. cbn [negb andb].
    destruct (matches (document s) (Sel [Class "cta-button"]) element);
      reflexivity. }
  assert (Htf : transform ≠ ""%string)
    by (unfold transform; destruct laptop, cta; discriminate).
  destruct (hide_then_timer element transform (snd entry) (fst entry) sb
              Htf Hlenb) as (Hop & Hlen1 & Htm & Hcls).
  pose proof (hide_transform element transform (snd entry) (fst entry) sb
                Htf Hlenb) as Htr.
  rewrite <- Heq in Hop, Hlen1, Htm, Hcls, Htr.
  change (timers sb) with (timers s) in Htm.
  cbn [Helpers.setTimeout snd] in Htm. fold id in Htm.
  assert (Hpend : Helpers.pending (timers s1) !! id = Some entry).
  { rewrite Htm. cbn [Helpers.pending]. rewrite lookup_insert_eq.
    by destruct entry. }
  split.
  { destruct (lookup_lt_is_Some_2 (document s1) element) as [e1 He1];
      [by rewrite Hlen1|].
    exists e1. split; [exact He1|].
    destruct (Hcls element e1 He1) as (eb & Heb & Hc).
    unfold contains. rewrite Hc.
    revert Heb. unfold sb, Helpers.addClass, update.
    cbn [document set_document set_animatedElements].
    rewrite list_lookup_alter_eq.
    destruct (document s !! element) as [e|]; [|done]. simpl.
    intros [= <-]. apply (contains_added "animate-in" e). }
  split; [exact Hop|]. split; [exact Htr|]. split; [exact Hpend|].
  set (s1' := set_timers (Helpers.expire id (timers s1)) s1).
  assert (Hs2 : s2 = runTask (snd entry) s1').
  { unfold s2, fireTimer. rewrite Hpend. by destruct entry. }
  assert (Hlen1' : (element < length (document s1'))%nat)
    by (change (document s1') with (document s1); by rewrite Hlen1).
  assert (Hexp : Helpers.pending (timers s1') !! id = None).
  { unfold s1'. cbn [timers set_timers Helpers.expire Helpers.pending].
    apply lookup_delete_eq. }
  assert (Hlast : Helpers.lastTimer (timers s1') = id)
    by (unfold s1'; cbn [timers set_timers Helpers.expire Helpers.lastTimer];
        by rewrite Htm).
  rewrite Hs2. unfold entry. destruct laptop; cbn [snd].
  - destruct (runTask_RevealLaptop element s1' Hlen1') as (H1 & H2 & H3).
    split.
    { rewrite H3. cbn [Helpers.setTimeout snd Helpers.pending].
      rewrite Hlast, lookup_insert_ne by lia. exact Hexp. }
    split; [exact H1|]. split; [exact H2|].
    rewrite H3. cbn [Helpers.setTimeout snd Helpers.pending].
    rewrite Hlast. apply lookup_insert_eq.
  - destruct (runTask_Reveal element (transitionAll 1) "translateY(0)" s1'
                ltac:(discriminate) Hlen1') as (H1 & H2 & H3).
    split; [by rewrite H3|]. split; [exact H1|]. split; [exact H2|].
    by rewrite H3.
Qed.

Lemma reveal_completes_witness :
  let s := AnimationsExample.started false in
  prefersReducedMotion s = false /\ (9%nat ∉ animatedElements s) /\
  matches (document s) (Sel [Class "laptop-frame"]) 9 = true /\
  let s1 := animateElement 9 s in
  let s2 := fireTimer 4 s1 in
  Helpers.pending (timers s1) !! 4%nat = Some (100%Q, RevealLaptop 9) /\
  styleOf s2 9 "opacity" = Some (Text "1") /\
  styleOf s2 9 "transition" = Some (TransitionAll 720 animationEasing) /\
  Helpers.pending (timers s2) !! 5%nat = Some (360%Q, ScreenContent 9).
Proof.
  intros s.
  assert (Hf : prefersReducedMotion s = false) by (vm_compute; reflexivity).
  assert (Hn : 9%nat ∉ animatedElements s)
    by (apply (bool_decide_unpack _); vm_compute; exact I).
  assert (Hl : (9 < length (document s))%nat) by (vm_compute; lia).
  assert (Hm : matches (document s) (Sel [Class "laptop-frame"]) 9 = true)
    by (vm_compute; reflexivity).
  assert (Hh : matches (document s)
                 (Desc (Sel [Class "hero-content"]) [Tag "h1"]) 9 = false)
    by (vm_compute; reflexivity).
  split; [exact Hf|]. split; [exact Hn|]. split; [exact Hm|].
  pose proof (reveal_completes s 9 Hf Hn Hl) as H. cbv zeta in H.
  rewrite Hh, Hm in H. cbn [negb andb] in H.
  assert (Hid : S (Helpers.lastTimer (timers s)) = 4%nat)
    by (vm_compute; reflexivity).
  rewrite Hid in H.
  destruct H as (_ & _ & _ & H4 & _ & H6 & H7 & H9).
  cbv zeta. split; [exact H4|]. split; [exact H6|]. split; [exact H7|].
  exact H9.
Defined.

End Reveal.

(** ** Animations: staggered loops *)

Section Stagger.
Import Dom Animations.

(** A loop whose rounds each hide their element and set one timer. *)
Lemma forEachFrom_stagger (P : State -> Prop)
    (f : nat -> nat -> State -> State) (task : nat -> Task)
    (delayOf : nat -> Q) :
  (forall element index s, P s ->
     P (f element index s) /\
     timers (f element index s)
     = snd (Helpers.setTimeout (task element) (delayOf index) (timers s)) /\
     length (document (f element index s)) = length (document s) /\
     ((element < length (document s))%nat ->
      styleOf (f element index s) element "opacity" = Some (Text "0")) /\
     (forall i, i ≠ element ->
        styleOf (f element index s) i "opacity" = styleOf s i "opacity")) ->
  forall l index s, P s ->
    let s' := forEachFrom f index l s in
    Helpers.lastTimer (timers s')
    = (Helpers.lastTimer (timers s) + length l)%nat /\
    length (document s') = length (document s) /\
    (forall id, (id <= Helpers.lastTimer (timers s))%nat ->
       Helpers.pending (timers s') !! id = Helpers.pending (timers s) !! id) /\
    (forall k element, l !! k = Some element ->
       Helpers.pending (timers s') !! (Helpers.lastTimer (timers s) + S k)%nat
       = Some (delayOf (index + k)%nat, task element)) /\
    (forall element, element ∈ l -> (element < length (document s))%nat ->
       styleOf s' element "opacity" = Some (Text "0")) /\
    (forall i, i ∉ l -> styleOf s' i "opacity" = styleOf s i "opacity").
Proof.
  intros Hf. induction l as [|e l IH]; intros index s HP; cbn [forEachFrom].
  - cbv zeta. split; [simpl; lia|]. split; [done|]. split; [done|].
    split; [intros k element Hk; by rewrite lookup_nil in Hk|].
    split; [intros element Hin; by apply elem_of_nil in Hin | done].
  - destruct (Hf e index s HP) as (HP1 & Htm & Hlen & Hown & Hother).
    set (s1 := f e index s) in *.
    destruct (IH (S index) s1 HP1) as (I1 & I2 & I3 & I4 & I5 & I6).
    assert (Hlast : Helpers.lastTimer (timers s1)
                    = S (Helpers.lastTimer (timers s))) by (by rewrite Htm).
    cbv zeta. split; [rewrite I1, Hlast; simpl; lia|].
    split; [by rewrite I2|]. split; [|split; [|split]].
    + intros id Hid. rewrite I3 by lia. rewrite Htm.
      cbn [snd Helpers.setTimeout Helpers.pending].
      by rewrite lookup_insert_ne by lia.
    + intros [|k] element Hk; simpl in Hk.
      * injection Hk as <-. rewrite I3 by lia. rewrite Htm.
        cbn [snd Helpers.setTimeout Helpers.pending].
        replace (Helpers.lastTimer (timers s) + 1)%nat
          with (S (Helpers.lastTimer (timers s))) by lia.
        rewrite lookup_insert_eq. by rewrite Nat.add_0_r.
      * replace (Helpers.lastTimer (timers s) + S (S k))%nat
          with (Helpers.lastTimer (timers s1) + S k)%nat by lia.
        rewrite (I4 k element Hk).
        by replace (S index + k)%nat with (index + S k)%nat by lia.
    + intros element Hin Hlt.
      destruct (decide (element ∈ l)) as [Hl|Hl].
      * apply I5; [exact Hl | by rewrite Hlen].
      * apply elem_of_cons in Hin as [->|Hin]; [|done].
        rewrite (I6 e Hl). by apply Hown.
    + intros i Hi. apply not_elem_of_cons in Hi as [Hie Hil].
      rewrite (I6 i Hil). by apply Hother.
Qed.

(** One round of the three staggered loops. *)
Lemma stagger_round (element : nat) (transform tf0 : string)
    (task : Task) (delay : Q) (s : State) :
  transform ≠ ""%string ->
  let s' := setTimeout task delay
              (setStyle element "transform" (Text transform)
                 (setStyle element "opacity" (Text "0") s)) in
  prefersReducedMotion s' = prefersReducedMotion s /\
  timers s' = snd (Helpers.setTimeout task delay (timers s)) /\
  length (document s') = length (document s) /\
  ((element < length (document s))%nat ->
   styleOf s' element "opacity" = Some (Text "0")) /\
  (forall i, i ≠ element -> styleOf s' i "opacity" = styleOf s i "opacity").
Proof.
  intros Htf. cbv zeta. split; [reflexivity|]. split; [reflexivity|].
  split; [|split].
  - unfold setTimeout. cbn [document set_timers]. by rewrite !length_setStyle.
  - intros Hlt.
    by destruct (hide_then_timer element transform task delay s Htf Hlt).
  - intros i Hi. unfold setTimeout, styleOf. cbn [document set_timers].
    fold (styleOf (setStyle element "transform" (Text transform)
                     (setStyle element "opacity" (Text "0") s)) i "opacity").
    by rewrite !styleOf_setStyle_other.
Qed.

Lemma querySelectorAllIn_bound (d : Document) (root : nat)
    (ss : list Selector) (i : nat) :
  i ∈ querySelectorAllIn d root ss -> (i < length d)%nat.
Proof.
  unfold querySelectorAllIn. intros Hin.
  apply list_elem_of_filter in Hin as [_ Hin].
  by apply querySelectorAll_bound in Hin.
Qed.

(** X19. The three staggered loops.  With motion allowed,
    [setupLoadAnimations] hides every element matching [.logo, nav ul li]
    and sets one timer per element, in document order, the [k]-th (from 0)
    due after [50 k] ms with the 480ms transition; [animateMobileMenuItems]
    does the same for the items of the open menu with [all 300ms ease];
    and [animateScreenContent] for the children of [.screen-content] inside
    the frame, [100 k] ms apart.  Timers that were pending stay as they
    were. *)
Theorem staggered_reveals (s : State) :
  let last := Helpers.lastTimer (timers s) in
  (prefersReducedMotion s = false ->
   let l := querySelectorAll (document s) loadSelectors in
   let s' := setupLoadAnimations s in
   Helpers.lastTimer (timers s') = (last + length l)%nat /\
   (forall id, (id <= last)%nat ->
      Helpers.pending (timers s') !! id = Helpers.pending (timers s) !! id) /\
   forall k element, l !! k = Some element ->
     Helpers.pending (timers s') !! (last + S k)%nat
     = Some (inject_Z (Z.of_nat k * 50),
             Reveal element (transitionAll (8 # 10)) "translateY(0)") /\
     styleOf s' element "opacity" = Some (Text "0")) /\
  (prefersReducedMotion s = false ->
   let l := querySelectorAll (document s)
              [Desc (Desc (Sel [Id "mainNav"; Class "active"]) [Tag "ul"])
                    [Tag "li"]] in
   let s' := animateMobileMenuItems s in
   Helpers.lastTimer (timers s') = (last + length l)%nat /\
   (forall id, (id <= last)%nat ->
      Helpers.pending (timers s') !! id = Helpers.pending (timers s) !! id) /\
   forall k item, l !! k = Some item ->
     Helpers.pending (timers s') !! (last + S k)%nat
     = Some (inject_Z (Z.of_nat k * 50),
             Reveal item (Text "all 300ms ease") "translateX(0)") /\
     styleOf s' item "opacity" = Some (Text "0")) /\
  (forall laptopFrame,
   let l := querySelectorAllIn (document s) laptopFrame
              [Child (Sel [Class "screen-content"]) [Universal]] in
   let s' := animateScreenContent laptopFrame s in
   Helpers.lastTimer (timers s') = (last + length l)%nat /\
   (forall id, (id <= last)%nat ->
      Helpers.pending (timers s') !! id = Helpers.pending (timers s) !! id) /\
   forall k element, l !! k = Some element ->
     Helpers.pending (timers s') !! (last + S k)%nat
     = Some ((inject_Z (Z.of_nat k) * staggerDelay)%Q,
             Reveal element (transitionAll (8 # 10)) "translateY(0)") /\
     styleOf s' element "opacity" = Some (Text "0")).
Proof.
  intros last. split; [|split].
  - intros Hflag l s'.
    destruct (forEachFrom_stagger (fun s => prefersReducedMotion s = false)
                (fun element index s =>
                   if prefersReducedMotion s
                   then setStyle element "opacity" (Text "1") s
                   else
                     let s := setStyle element "opacity" (Text "0") s in
                     let s := setStyle element "transform"
                                (Text "translateY(-10px)") s in
                     setTimeout
                       (Reveal element (transitionAll (8 # 10)) "translateY(0)")
                       (inject_Z (Z.of_nat index * 50)) s)
                (fun element =>
                   Reveal element (transitionAll (8 # 10)) "translateY(0)")
                (fun index => inject_Z (Z.of_nat index * 50)))
      with (l := l) (index := 0%nat) (s := s)
      as (H1 & _ & H3 & H4 & H5 & _); [|exact Hflag|].
    { intros element index s0 HP. rewrite HP. cbv zeta.
      destruct (stagger_round element "translateY(-10px)" ""
                  (Reveal element (transitionAll (8 # 10)) "translateY(0)")
                  (inject_Z (Z.of_nat index * 50)) s0 ltac:(discriminate))
        as (Hp & Hrest).
      split; [by rewrite Hp | exact Hrest]. }
    split; [exact H1|]. split; [exact H3|]. intros k element Hk.
    split; [exact (H4 k element Hk)|].
    apply H5; [by eapply list_elem_of_lookup_2|].
    eapply querySelectorAll_bound, list_elem_of_lookup_2, Hk.
  - intros Hflag l s'. unfold s', animateMobileMenuItems. rewrite Hflag.
    cbv zeta. fold l.
    destruct (forEachFrom_stagger (fun _ => True)
                (fun item index s =>
                   let s := setStyle item "opacity" (Text "0") s in
                   let s := setStyle item "transform"
                              (Text "translateX(-20px)") s in
                   setTimeout
                     (Reveal item (Text "all 300ms ease") "translateX(0)")
                     (inject_Z (Z.of_nat index * 50)) s)
                (fun item => Reveal item (Text "all 300ms ease") "translateX(0)")
                (fun index => inject_Z (Z.of_nat index * 50)))
      with (l := l) (index := 0%nat) (s := s)
      as (H1 & _ & H3 & H4 & H5 & _); [|exact I|].
    { intros item index s0 _. cbv zeta. split; [exact I|].
      by destruct (stagger_round item "translateX(-20px)" ""
                     (Reveal item (Text "all 300ms ease") "translateX(0)")
                     (inject_Z (Z.of_nat index * 50)) s0 ltac:(discriminate))
        as (_ & Hrest). }
    split; [exact H1|]. split; [exact H3|]. intros k item Hk.
    split; [exact (H4 k item Hk)|].
    apply H5; [by eapply list_elem_of_lookup_2|].
    eapply querySelectorAll_bound, list_elem_of_lookup_2, Hk.
  - intros laptopFrame l s'. unfold s', animateScreenContent. cbv zeta. fold l.
    destruct (forEachFrom_stagger (fun _ => True)
                (fun element index s =>
                   let s := setStyle element "opacity" (Text "0") s in
                   let s := setStyle element "transform"
                              (Text "translateY(20px)") s in
                   setTimeout
                     (Reveal element (transitionAll (8 # 10)) "translateY(0)")
                     (inject_Z (Z.of_nat index) * staggerDelay)%Q s)
                (fun element =>
                   Reveal element (transitionAll (8 # 10)) "translateY(0)")
                (fun index => (inject_Z (Z.of_nat index) * staggerDelay)%Q))
      with (l := l) (index := 0%nat) (s := s)
      as (H1 & _ & H3 & H4 & H5 & _); [|exact I|].
    { intros element index s0 _. cbv zeta. split; [exact I|].
      by destruct (stagger_round element "translateY(20px)" ""
                     (Reveal element (transitionAll (8 # 10)) "translateY(0)")
                     (inject_Z (Z.of_nat index) * staggerDelay)%Q s0
                     ltac:(discriminate))
        as (_ & Hrest). }
    split; [exact H1|]. split; [exact H3|]. intros k element Hk.
    split; [exact (H4 k element Hk)|].
    apply H5; [by eapply list_elem_of_lookup_2|].
    eapply querySelectorAllIn_bound, list_elem_of_lookup_2, Hk.
Qed.

Lemma staggered_reveals_witness :
  let s := AnimationsExample.fresh false in
  prefersReducedMotion s = false /\
  querySelectorAll (document s) loadSelectors = [1; 4; 5]%nat /\
  map (fun id => fst <$> Helpers.pending (timers (setupLoadAnimations s)) !! id)
      [1; 2; 3]%nat
  = [Some 0%Q; Some 50%Q; Some 100%Q].
Proof.
  intros s.
  assert (Hf : prefersReducedMotion s = false) by reflexivity.
  assert (Hl : querySelectorAll (document s) loadSelectors = [1; 4; 5]%nat)
    by (vm_compute; reflexivity).
  split; [exact Hf|]. split; [exact Hl|].
  destruct (staggered_reveals s) as (Hload & _).
  destruct (Hload Hf) as (_ & _ & Hk). rewrite Hl in Hk.
  destruct (Hk 0%nat 1%nat eq_refl) as [H0 _].
  destruct (Hk 1%nat 4%nat eq_refl) as [H1 _].
  destruct (Hk 2%nat 5%nat eq_refl) as [H2 _].
  change (Helpers.lastTimer (timers s)) with 0%nat in H0, H1, H2.
  cbn [map Nat.add] in *. rewrite H0, H1, H2. reflexivity.
Defined.

End Stagger.

(** ** Animations: teardown *)

Section Teardown.
Import Dom Animations.

Lemma destroy_forEachFrom (f : nat -> nat -> State -> State) (l : list nat) :
  (forall element index s,
     f element index (destroy s) = destroy (f element index s)) ->
  forall index s,
    forEachFrom f index l (destroy s) = destroy (forEachFrom f index l s).
Proof.
  intros Hf. induction l as [|element l IH]; intros index s; [reflexivity|].
  cbn [forEachFrom]. by rewrite Hf, IH.
Qed.

Lemma destroy_runTask (t : Task) (s : State) :
  runTask t (destroy s) = destroy (runTask t s).
Proof.
  destruct t as [element transition transform|element|laptopFrame];
    [reflexivity | reflexivity |].
  cbn [runTask]. unfold animateScreenContent, forEach. cbv zeta.
  change (document (destroy s)) with (document s).
  by apply destroy_forEachFrom.
Qed.

(** X20. [destroy] empties the animated set and the observer list and
    clears the initialised flag, but it cancels no timer: a timer that was
    pending runs after [destroy] exactly as it would have run before
    (the two orders give the same state).  And since the set is empty, an
    element that had been animated is animated again by the next
    [animateElement]: it is recorded again and one more timer is set. *)
Theorem destroy_cancels_nothing (s : State) (id element : nat) :
  fireTimer id (destroy s) = destroy (fireTimer id s) /\
  observers (destroy s) = [] /\ isInitialized (destroy s) = false /\
  (prefersReducedMotion s = false -> element ∈ animatedElements s ->
   animateElement element s = s /\
   let s' := animateElement element (destroy s) in
   animatedElements s' = {[element]} /\
   Helpers.lastTimer (timers s') = S (Helpers.lastTimer (timers s)) /\
   is_Some (Helpers.pending (timers s') !! S (Helpers.lastTimer (timers s)))).
Proof.
  split; [|split; [reflexivity|split; [reflexivity|]]].
  - unfold fireTimer. change (timers (destroy s)) with (timers s).
    destruct (Helpers.pending (timers s) !! id) as [[delay task]|];
      [|reflexivity].
    change (set_timers (Helpers.expire id (timers s)) (destroy s))
      with (destroy (set_timers (Helpers.expire id (timers s)) s)).
    apply destroy_runTask.
  - intros Hflag Hin. split; [by apply animateElement_animated|].
    destruct (animateElement_first (destroy s) element Hflag)
      as (H1 & H2 & H3); [apply not_elem_of_empty|].
    cbv zeta. split; [|split; [exact H2 | exact H3]].
    rewrite H1. change (animatedElements (destroy s)) with (∅ : gset nat).
    apply union_empty_r_L.
Qed.

Lemma destroy_cancels_nothing_witness :
  let s := animateElement 7 (AnimationsExample.started false) in
  prefersReducedMotion s = false /\ (7%nat ∈ animatedElements s) /\
  animateElement 7 s = s /\
  Helpers.lastTimer (timers (animateElement 7 (destroy s))) = 5%nat /\
  styleOf (fireTimer 4 (destroy s)) 7 "opacity" = Some (Text "1").
Proof.
  intros s.
  assert (Hf : prefersReducedMotion s = false) by (vm_compute; reflexivity).
  assert (Hin : 7%nat ∈ animatedElements s)
    by (apply (bool_decide_unpack _); vm_compute; exact I).
  split; [exact Hf|]. split; [exact Hin|].
  destruct (destroy_cancels_nothing s 4 7) as (Hfire & _ & _ & Hreplay).
  destruct (Hreplay Hf Hin) as (Hsame & _ & Hlast & _).
  split; [exact Hsame|]. split; [rewrite Hlast; vm_compute; reflexivity|].
  rewrite Hfire. vm_compute. reflexivity.
Defined.

End Teardown.

(** ** LaptopEnhancer: sizing *)

Section LaptopTiers.
Import Dom LaptopEnhancer.

(** The width a tier stands for, as a number. *)
Lemma maxWidthFor_number (w : Z) :
  exists n,
    maxWidthFor w = JsString.toString n +:+ "px" /\
    JsString.parseInt10 (maxWidthFor w) = Some n /\
    plusFifty (maxWidthFor w) = JsString.toString (n + 50) +:+ "px" /\
    450 <= n <= 800 /\
    (1400 <= w <-> n = 800) /\ (w < 576 <-> n = 450).
Proof.
  unfold maxWidthFor.
  destruct (Z.leb_spec 1400 w); [exists 800; repeat split; (reflexivity || lia)|].
  destruct (Z.leb_spec 1200 w); [exists 750; repeat split; (reflexivity || lia)|].
  destruct (Z.leb_spec 992 w); [exists 650; repeat split; (reflexivity || lia)|].
  destruct (Z.leb_spec 768 w); [exists 580; repeat split; (reflexivity || lia)|].
  destruct (Z.leb_spec 576 w); [exists 520; repeat split; (reflexivity || lia)|].
  exists 450; repeat split; (reflexivity || lia).
Qed.

Lemma maxWidthFor_monotone (w w' n n' : Z) :
  w <= w' ->
  JsString.parseInt10 (maxWidthFor w) = Some n ->
  JsString.parseInt10 (maxWidthFor w') = Some n' ->
  n <= n'.
Proof.
  unfold maxWidthFor. intros Hw.
  destruct (Z.leb_spec 1400 w), (Z.leb_spec 1200 w), (Z.leb_spec 992 w),
    (Z.leb_spec 768 w), (Z.leb_spec 576 w); try lia;
  destruct (Z.leb_spec 1400 w'), (Z.leb_spec 1200 w'), (Z.leb_spec 992 w'),
    (Z.leb_spec 768 w'), (Z.leb_spec 576 w'); try lia;
  intros [= <-] [= <-]; lia.
Qed.

Lemma maxWidthOf_setMaxWidth_eq (s : State) (e : nat) (v : string) :
  v ≠ ""%string -> (e < length (document s))%nat ->
  maxWidthOf (setMaxWidth (Some e) v s) (Some e) = Some (Text v).
Proof.
  intros Hv Hlen. unfold maxWidthOf, setMaxWidth, update.
  cbn [document set_document mbind option_bind].
  rewrite list_lookup_alter_eq.
  destruct (lookup_lt_is_Some_2 _ _ Hlen) as [x ->]. simpl.
  unfold assignStyle. destruct v; [done|]. apply lookup_insert_eq.
Qed.

Lemma maxWidthOf_setMaxWidth_ne (s : State) (e : option nat) (i : nat)
    (v : string) :
  e ≠ Some i ->
  maxWidthOf (setMaxWidth e v s) (Some i) = maxWidthOf s (Some i) /\
  document (setMaxWidth e v s) !! i = document s !! i.
Proof.
  intros Hne. destruct e as [e|]; [|done].
  unfold maxWidthOf, setMaxWidth, update.
  cbn [document set_document mbind option_bind].
  rewrite list_lookup_alter_ne by congruence. done.
Qed.

Lemma length_setMaxWidth (s : State) (e : option nat) (v : string) :
  length (document (setMaxWidth e v s)) = length (document s).
Proof.
  destruct e as [e|]; [|done]. unfold setMaxWidth, update.
  cbn [document set_document]. apply length_alter.
Qed.

Lemma setMaxWidth_refs (s : State) (e : option nat) (v : string) :
  laptopImage (setMaxWidth e v s) = laptopImage s /\
  laptopFrame (setMaxWidth e v s) = laptopFrame s /\
  laptopShowcase (setMaxWidth e v s) = laptopShowcase s.
Proof. by destruct e. Qed.

Lemma plusFifty_nonempty (w : Z) : plusFifty (maxWidthFor w) ≠ ""%string.
Proof.
  destruct (maxWidthFor_number w) as (n & _ & _ & -> & _).
  destruct (JsString.toString (n + 50)); discriminate.
Qed.

Lemma maxWidthFor_nonempty (w : Z) : maxWidthFor w ≠ ""%string.
Proof.
  destruct (maxWidthFor_number w) as (n & -> & _).
  destruct (JsString.toString n); discriminate.
Qed.

(** X21. [adjustSizeForViewport] at every window width: the image gets
    [max-width: <n>px] and the frame and the showcase [<n + 50>px], where
    [n] is the number the tier's width parses to; [n] lies between 450 and
    800 (800 exactly from 1400 pixels on, 450 exactly below 576), so the
    [parseInt] never yields [NaNpx]; a wider window never gets a smaller
    [n].  When one element plays two parts the later write wins (an image
    that is also the frame ends with [n + 50]); no other element
    changes. *)
Theorem adjustSizeForViewport_tiers (s : State) :
  let s' := adjustSizeForViewport s in
  exists n,
    JsString.parseInt10 (maxWidthFor (innerWidth s)) = Some n /\
    450 <= n <= 800 /\
    (1400 <= innerWidth s <-> n = 800) /\ (innerWidth s < 576 <-> n = 450) /\
    (forall w' n', innerWidth s <= w' ->
       JsString.parseInt10 (maxWidthFor w') = Some n' -> n <= n') /\
    (forall i, laptopImage s = Some i -> (i < length (document s))%nat ->
       maxWidthOf s' (Some i)
       = Some (Text (JsString.toString
                       (if bool_decide (laptopFrame s = Some i
                                        \/ laptopShowcase s = Some i)
                        then n + 50 else n) +:+ "px"))) /\
    (forall f, laptopFrame s = Some f \/ laptopShowcase s = Some f ->
       (f < length (document s))%nat ->
       maxWidthOf s' (Some f)
       = Some (Text (JsString.toString (n + 50) +:+ "px"))) /\
    (forall j, laptopImage s ≠ Some j -> laptopFrame s ≠ Some j ->
       laptopShowcase s ≠ Some j -> document s' !! j = document s !! j).
Proof.
  intros s'.
  destruct (maxWidthFor_number (innerWidth s))
    as (n & Hmw & Hparse & Hplus & Hrange & Htop & Hbottom).
  exists n. split; [exact Hparse|]. split; [exact Hrange|].
  split; [exact Htop|]. split; [exact Hbottom|].
  split; [intros w' n' Hw Hn'; by eapply maxWidthFor_monotone|].
  pose proof (maxWidthFor_nonempty (innerWidth s)) as Hne1.
  pose proof (plusFifty_nonempty (innerWidth s)) as Hne2.
  unfold s', adjustSizeForViewport. cbv zeta.
  set (mw := maxWidthFor (innerWidth s)) in *.
  set (s1 := setMaxWidth (laptopImage s) mw s).
  destruct (setMaxWidth_refs s (laptopImage s) mw) as (_ & Hf1 & Hs1).
  fold s1 in Hf1, Hs1. rewrite Hf1.
  set (s2 := setMaxWidth (laptopFrame s) (plusFifty mw) s1).
  destruct (setMaxWidth_refs s1 (laptopFrame s) (plusFifty mw)) as (_ & _ & Hs2).
  fold s2 in Hs2. rewrite Hs2, Hs1.
  assert (Hl1 : length (document s1) = length (document s))
    by apply length_setMaxWidth.
  assert (Hl2 : length (document s2) = length (document s))
    by (unfold s2; by rewrite length_setMaxWidth).
  assert (Hframe : forall f,
            laptopFrame s = Some f \/ laptopShowcase s = Some f ->
            (f < length (document s))%nat ->
            maxWidthOf (setMaxWidth (laptopShowcase s) (plusFifty mw) s2)
              (Some f) = Some (Text (plusFifty mw))).
  { intros f Hf Hlen.
    destruct (decide (laptopShowcase s = Some f)) as [->|Hsh].
    - apply maxWidthOf_setMaxWidth_eq; [exact Hne2 | by rewrite Hl2].
    - destruct Hf as [Hf|Hf]; [|done].
      destruct (maxWidthOf_setMaxWidth_ne s2 _ f (plusFifty mw) Hsh) as [-> _].
      unfold s2. rewrite Hf.
      apply maxWidthOf_setMaxWidth_eq; [exact Hne2 | by rewrite Hl1]. }
  split; [|split].
  - intros i Hi Hlen. case_bool_decide as Hdup.
    + rewrite <- Hplus. by apply Hframe.
    + assert (Hfi : laptopFrame s ≠ Some i) by tauto.
      assert (Hsi : laptopShowcase s ≠ Some i) by tauto.
      destruct (maxWidthOf_setMaxWidth_ne s2 _ i (plusFifty mw) Hsi) as [-> _].
      unfold s2.
      destruct (maxWidthOf_setMaxWidth_ne s1 _ i (plusFifty mw) Hfi) as [-> _].
      unfold s1. rewrite Hi, <- Hmw.
      by apply maxWidthOf_setMaxWidth_eq.
  - intros f Hf Hlen. rewrite <- Hplus. by apply Hframe.
  - intros j Hi Hf Hsh.
    destruct (maxWidthOf_setMaxWidth_ne s2 _ j (plusFifty mw) Hsh) as [_ ->].
    unfold s2.
    destruct (maxWidthOf_setMaxWidth_ne s1 _ j (plusFifty mw) Hf) as [_ ->].
    unfold s1.
    by destruct (maxWidthOf_setMaxWidth_ne s _ j mw Hi) as [_ ->].
Qed.

Lemma adjustSizeForViewport_tiers_witness :
  let s := findElements (LaptopExample.fresh 1000) in
  laptopImage s = Some 4%nat /\ laptopFrame s = Some 3%nat /\
  maxWidthOf (adjustSizeForViewport s) (Some 4%nat) = Some (Text "650px") /\
  maxWidthOf (adjustSizeForViewport s) (Some 3%nat) = Some (Text "700px").
Proof.
  intros s.
  assert (Hi : laptopImage s = Some 4%nat) by (vm_compute; reflexivity).
  assert (Hf : laptopFrame s = Some 3%nat) by (vm_compute; reflexivity).
  split; [exact Hi|]. split; [exact Hf|].
  destruct (adjustSizeForViewport_tiers s)
    as (n & Hn & _ & _ & _ & _ & Himg & Hfr & _).
  assert (Hn650 : n = 650) by (vm_compute in Hn; congruence).
  subst n. split.
  - rewrite (Himg 4%nat Hi ltac:(vm_compute; lia)). vm_compute. reflexivity.
  - rewrite (Hfr 3%nat (or_introl Hf) ltac:(vm_compute; lia)).
    vm_compute. reflexivity.
Defined.

End LaptopTiers.

Section LaptopDebounce.
Import Dom LaptopEnhancer.

(** The sizes applied depend on the page, the width and the three
    elements only. *)
Lemma adjustSizeForViewport_document (s s' : State) :
  document s' = document s -> innerWidth s' = innerWidth s ->
  laptopImage s' = laptopImage s -> laptopFrame s' = laptopFrame s ->
  laptopShowcase s' = laptopShowcase s ->
  document (adjustSizeForViewport s') = document (adjustSizeForViewport s).
Proof.
  destruct s as [doc w cont img fr sh ini rl cl tm con],
    s' as [doc' w' cont' img' fr' sh' ini' rl' cl' tm' con'].
  cbn [document innerWidth laptopImage laptopFrame laptopShowcase].
  intros -> -> -> -> ->. unfold adjustSizeForViewport.
  cbn [innerWidth laptopImage]. destruct img, fr, sh; reflexivity.
Qed.

Lemma adjustSizeForViewport_timers (s : State) :
  timers (adjustSizeForViewport s) = timers s.
Proof.
  destruct s as [doc w cont img fr sh ini rl cl tm con].
  unfold adjustSizeForViewport. cbn [innerWidth laptopImage].
  destruct img, fr, sh; reflexivity.
Qed.

(** X22. The class's own [debounce] does work when its result is called:
    creating the closure changes neither the page nor the timers; a call
    sets one 250ms timer; when it comes due the sizes of
    [adjustSizeForViewport] are applied and the timer is gone; and a second
    call before that replaces the timer by a new one. *)
Theorem debounced_adjust_if_called (s : State) :
  let c := fst (debounce 250 s) in
  let s1 := snd (debounce 250 s) in
  let id := S (Helpers.lastTimer (timers s)) in
  let s2 := executedFunction c s1 in
  let s3 := fireTimer id s2 in
  (document s1 = document s /\ timers s1 = timers s) /\
  (document s2 = document s /\
   Helpers.pending (timers s2)
   = <[id := (250, Later c)]> (Helpers.pending (timers s))) /\
  (document s3 = document (adjustSizeForViewport s) /\
   Helpers.pending (timers s3) = delete id (Helpers.pending (timers s))) /\
  Helpers.pending (timers (executedFunction c s2))
  = <[S id := (250, Later c)]> (delete id (Helpers.pending (timers s))).
Proof.
  intros c s1 id s2 s3.
  assert (Hc1 : closures s1 !! c = Some {| wait := 250; timeout := None |}).
  { unfold s1, c, debounce. cbn [fst snd closures set_closures].
    by rewrite list_lookup_middle. }
  assert (Hs2 : s2 = set_timers
                  (snd (Helpers.setTimeout (Later c) 250 (timers s)))
                  (set_closures
                     (<[c := {| wait := 250; timeout := Some id |}]>
                        (closures s1)) s1)).
  { unfold s2, executedFunction. rewrite Hc1. reflexivity. }
  assert (Hc2 : closures s2 !! c
                = Some {| wait := 250; timeout := Some id |}).
  { rewrite Hs2. cbn [closures set_timers set_closures].
    apply list_lookup_insert_eq. by eapply lookup_lt_Some. }
  assert (Hp2 : Helpers.pending (timers s2)
                = <[id := (250, Later c)]> (Helpers.pending (timers s)))
    by (by rewrite Hs2).
  split; [by split|]. split; [split; [by rewrite Hs2 | exact Hp2]|]. split.
  - unfold s3, fireTimer. rewrite Hp2, lookup_insert_eq. unfold later.
    cbn [closures set_timers]. rewrite Hc2. split.
    + apply adjustSizeForViewport_document; by rewrite Hs2.
    + rewrite adjustSizeForViewport_timers.
      cbn [timers set_timers Helpers.clearTimeout Helpers.expire
             Helpers.pending timeout].
      rewrite Hp2, delete_insert_eq. apply delete_delete_eq.
  - unfold executedFunction. rewrite Hc2.
    cbn [Helpers.setTimeout Helpers.clearTimeout timeout wait timers
           set_timers set_closures Helpers.pending Helpers.lastTimer].
    rewrite Hp2, delete_insert_eq.
    replace (Helpers.lastTimer (timers s2)) with id by (by rewrite Hs2).
    reflexivity.
Qed.

End LaptopDebounce.

(** ** BackgroundParticles *)

Section Particles.
Import BackgroundParticles.
Local Open Scope Q_scope.

Lemma moveParticle_onCanvas (canvas : Canvas) (p : Particle) :
  (0 <= width canvas)%Z -> (0 <= height canvas)%Z ->
  onCanvas canvas (moveParticle canvas p).
Proof.
  intros Hw Hh.
  assert (HW : 0 <= inject_Z (width canvas))
    by (change 0 with (inject_Z 0); by rewrite <- Zle_Qle).
  assert (HH : 0 <= inject_Z (height canvas))
    by (change 0 with (inject_Z 0); by rewrite <- Zle_Qle).
  unfold onCanvas, moveParticle. cbn [x y].
  destruct (Qlt_le_dec (x p + speedX p) 0) as [Hx|Hx];
    destruct (Qlt_le_dec (y p + speedY p) 0) as [Hy|Hy].
  - destruct (Qlt_le_dec _ _) as [H1|H1], (Qlt_le_dec _ _) as [H2|H2];
      repeat split; lra.
  - destruct (Qlt_le_dec _ (inject_Z (width canvas))) as [H1|H1],
      (Qlt_le_dec (inject_Z (height canvas)) _) as [H2|H2];
      repeat split; lra.
  - destruct (Qlt_le_dec (inject_Z (width canvas)) _) as [H1|H1],
      (Qlt_le_dec (inject_Z (height canvas)) _) as [H2|H2];
      repeat split; lra.
  - destruct (Qlt_le_dec (inject_Z (width canvas)) _) as [H1|H1],
      (Qlt_le_dec (inject_Z (height canvas)) _) as [H2|H2];
      repeat split; lra.
Qed.

Lemma animate_onCanvas (canvas : Canvas) (particles : list Particle) :
  (0 <= width canvas)%Z -> (0 <= height canvas)%Z ->
  Forall (onCanvas canvas) (animate canvas particles).
Proof.
  intros Hw Hh. unfold animate. apply Forall_fmap, Forall_forall.
  intros p _. by apply moveParticle_onCanvas.
Qed.

Lemma frames_shape (n : nat) (canvas : Canvas) (particles : list Particle) :
  map (fun p => (size p, speedX p, speedY p, opacity p))
      (frames n canvas particles)
  = map (fun p => (size p, speedX p, speedY p, opacity p)) particles.
Proof.
  assert (Hstep : forall ps,
            map (fun p => (size p, speedX p, speedY p, opacity p))
                (animate canvas ps)
            = map (fun p => (size p, speedX p, speedY p, opacity p)) ps).
  { intros ps. unfold animate. induction ps as [|p ps IH]; [reflexivity|].
    cbn [map]. by rewrite IH. }
  unfold frames. induction n as [|n IH]; [reflexivity|].
  rewrite Nat.iter_succ. by rewrite Hstep.
Qed.

Lemma newParticle_bounds (random : nat -> Q) (first : nat) (canvas : Canvas) :
  (forall k, 0 <= random k /\ random k < 1) ->
  (0 <= width canvas)%Z -> (0 <= height canvas)%Z ->
  let p := newParticle random first canvas in
  onCanvas canvas p /\
  1 <= size p /\ size p <= 3 /\
  - (1 # 4) <= speedX p /\ speedX p <= 1 # 4 /\
  - (1 # 4) <= speedY p /\ speedY p <= 1 # 4 /\
  2 # 10 <= opacity p /\ opacity p <= 7 # 10.
Proof.
  intros Hr Hw Hh.
  assert (HW : 0 <= inject_Z (width canvas))
    by (change 0 with (inject_Z 0); by rewrite <- Zle_Qle).
  assert (HH : 0 <= inject_Z (height canvas))
    by (change 0 with (inject_Z 0); by rewrite <- Zle_Qle).
  pose proof (Hr first) as [H0 H0']. pose proof (Hr (first + 1)%nat) as [H1 H1'].
  pose proof (Hr (first + 2)%nat) as [H2 H2'].
  pose proof (Hr (first + 3)%nat) as [H3 H3'].
  pose proof (Hr (first + 4)%nat) as [H4 H4'].
  pose proof (Hr (first + 5)%nat) as [H5 H5'].
  cbv zeta. unfold onCanvas, newParticle.
  cbn [x y size speedX speedY opacity].
  repeat split; try lra; try nra.
Qed.

Lemma frames_onCanvas (n : nat) (canvas : Canvas) (particles : list Particle) :
  (0 <= width canvas)%Z -> (0 <= height canvas)%Z ->
  Forall (onCanvas canvas) (frames (S n) canvas particles).
Proof.
  intros Hw Hh. unfold frames. rewrite Nat.iter_succ.
  by apply animate_onCanvas.
Qed.

(** X23. The particles never leave the canvas.  Whatever the particles
    were (for instance placed for a larger canvas before a resize), after
    one or more frames of [animate] every one of them lies within
    [0..width] by [0..height]; a frame changes no particle's size, speed
    or opacity and neither adds nor drops one.  [createParticles] makes
    fifty particles that lie on the canvas from the start, with size in
    [1, 3], speeds in [-1/4, 1/4] and opacity in [0.2, 0.7], for every run
    of [Math.random()] values in [0, 1). *)
Theorem particles_stay_on_canvas (canvas : Canvas)
    (particles : list Particle) (n : nat) :
  (0 <= width canvas)%Z -> (0 <= height canvas)%Z ->
  Forall (onCanvas canvas) (frames (S n) canvas particles) /\
  length (frames n canvas particles) = length particles /\
  map (fun p => (size p, speedX p, speedY p, opacity p))
      (frames n canvas particles)
  = map (fun p => (size p, speedX p, speedY p, opacity p)) particles /\
  (forall random : nat -> Q,
     (forall k, 0 <= random k /\ random k < 1) ->
     let created := createParticles random canvas [] in
     length created = 50%nat /\
     Forall (fun p => 1 <= size p /\ size p <= 3 /\
                      - (1 # 4) <= speedX p /\ speedX p <= 1 # 4 /\
                      - (1 # 4) <= speedY p /\ speedY p <= 1 # 4 /\
                      2 # 10 <= opacity p /\ opacity p <= 7 # 10) created /\
     Forall (onCanvas canvas) (frames n canvas created)).
Proof.
  intros Hw Hh. split; [by apply frames_onCanvas|].
  assert (Hshape := frames_shape n canvas particles).
  split; [|split; [exact Hshape|]].
  { apply (f_equal length) in Hshape. by rewrite !length_map in Hshape. }
  intros random Hr created.
  assert (Hall : Forall (fun p =>
            onCanvas canvas p /\
            1 <= size p /\ size p <= 3 /\
            - (1 # 4) <= speedX p /\ speedX p <= 1 # 4 /\
            - (1 # 4) <= speedY p /\ speedY p <= 1 # 4 /\
            2 # 10 <= opacity p /\ opacity p <= 7 # 10) created).
  { unfold created, createParticles. cbn [app].
    apply Forall_fmap, Forall_forall. intros i _.
    by apply newParticle_bounds. }
  split; [reflexivity|]. split.
  - eapply Forall_impl; [exact Hall|]. intros p Hp. apply Hp.
  - destruct n as [|n]; [|by apply frames_onCanvas].
    eapply Forall_impl; [exact Hall|]. intros p Hp. apply Hp.
Qed.

Lemma particles_stay_on_canvas_witness :
  let canvas := resizeCanvas 800 600 in
  let p := {| x := 1000; y := -3; size := 2; speedX := 1 # 4;
              speedY := - (1 # 4); opacity := 1 # 2 |} in
  (0 <= width canvas)%Z /\ (0 <= height canvas)%Z /\
  ~ onCanvas canvas p /\
  Forall (onCanvas canvas) (frames 1 canvas [p]).
Proof.
  intros canvas p.
  assert (Hw : (0 <= width canvas)%Z) by (simpl; lia).
  assert (Hh : (0 <= height canvas)%Z) by (simpl; lia).
  split; [exact Hw|]. split; [exact Hh|]. split.
  - intros (_ & Hx & _). revert Hx. vm_compute. intros H. by apply H.
  - by destruct (particles_stay_on_canvas canvas [p] 0 Hw Hh) as [H _].
Defined.

End Particles.

(** ** ViewportUtils: throttled scroll listeners *)

Section ScrollThrottle.
Import ViewportUtils.

Lemma call_throttled (h : nat) (t : Helpers.Throttled nat) (l : Loop) :
  closures l !! h = Some (ThrottledScroll t) ->
  let l' := call h l in
  window l' = window l /\ listeners l' = listeners l /\
  viewportCalls l' = viewportCalls l /\
  if Helpers.inThrottle t then
    scrollCalls l' = scrollCalls l /\ timers l' = timers l /\
    closures l' !! h = Some (ThrottledScroll t)
  else
    scrollCalls l'
    = scrollCalls l ++ [(Helpers.tfunc t, scrollInfo (window l))] /\
    timers l'
    = snd (Helpers.setTimeout (Release h) (Helpers.limit t) (timers l)) /\
    closures l' !! h
    = Some (ThrottledScroll
              {| Helpers.tfunc := Helpers.tfunc t;
                 Helpers.limit := Helpers.limit t;
                 Helpers.inThrottle := true |}).
Proof.
  intros Hh. unfold call. rewrite Hh. unfold Helpers.throttledCall.
  destruct (Helpers.inThrottle t); cbn -[scrollInfo];
    repeat split; try apply lookup_insert_eq.
Qed.

Lemma fireEvent_single (type : string) (h : nat) (l : Loop) :
  listenersOf type l = [h] -> fireEvent type l = call h l.
Proof. intros H. unfold fireEvent. by rewrite H. Qed.

Lemma default_last_cons {A} (a c b : A) (ws : list A) :
  default a (last (b :: ws)) = default c (last (b :: ws)).
Proof.
  revert b. induction ws as [|w ws IH]; intros b; [reflexivity|].
  rewrite !last_cons_cons. apply IH.
Qed.

(** While the closure is in its throttle, scroll events change nothing
    but the window. *)
Lemma scrollBurst_throttled (h : nat) (t : Helpers.Throttled nat)
    (ws : list Window) (l : Loop) :
  listenersOf "scroll" l = [h] ->
  closures l !! h = Some (ThrottledScroll t) ->
  Helpers.inThrottle t = true ->
  let l' := scrollBurst ws l in
  listenersOf "scroll" l' = [h] /\
  closures l' !! h = Some (ThrottledScroll t) /\
  scrollCalls l' = scrollCalls l /\ timers l' = timers l /\
  window l' = default (window l) (last ws).
Proof.
  revert l. induction ws as [|w ws IH]; intros l Hl Hh Ht; [done|].
  cbn [scrollBurst foldl].
  rewrite (fireEvent_single "scroll" h) by exact Hl.
  destruct (call_throttled h t (set_window w l) Hh)
    as (Hw & Hli & _ & Hrest).
  rewrite Ht in Hrest. destruct Hrest as (Hsc & Htm & Hcl).
  set (l1 := call h (set_window w l)) in *.
  destruct (IH l1) as (I1 & I2 & I3 & I4 & I5);
    [unfold listenersOf; by rewrite Hli | exact Hcl | exact Ht |].
  fold (scrollBurst ws l1).
  split; [exact I1|]. split; [exact I2|]. split; [by rewrite I3, Hsc|].
  split; [by rewrite I4, Htm|].
  rewrite I5, Hw. cbn [window set_window].
  destruct ws as [|w' ws]; [reflexivity|].
  rewrite last_cons_cons. apply default_last_cons.
Qed.

Lemma onScroll_registered (callback : nat) (throttleMs : Z) (l : Loop) :
  listenersOf "scroll" l = [] ->
  let h := fst (onScroll callback throttleMs l) in
  let l1 := snd (onScroll callback throttleMs l) in
  listenersOf "scroll" l1 = [h] /\
  closures l1 !! h
  = Some (ThrottledScroll (Helpers.throttle callback throttleMs)) /\
  scrollCalls l1 = scrollCalls l /\ timers l1 = timers l /\
  window l1 = window l.
Proof.
  intros Hnone. unfold onScroll, newClosure. cbn [fst snd].
  set (h := S (lastClosure l)).
  set (l0 := {| window := window l;
                closures := <[h := ThrottledScroll
                                     (Helpers.throttle callback throttleMs)]>
                              (closures l);
                lastClosure := h; listeners := listeners l;
                timers := timers l; viewportCalls := viewportCalls l;
                scrollCalls := scrollCalls l |}).
  assert (Hfresh : h ∉ listenersOf "scroll" l0).
  { change (listenersOf "scroll" l0) with (listenersOf "scroll" l).
    rewrite Hnone. apply not_elem_of_nil. }
  split.
  { rewrite (listenersOf_add "scroll" "scroll" h l0 Hfresh).
    rewrite decide_True by done.
    change (listenersOf "scroll" l0) with (listenersOf "scroll" l).
    by rewrite Hnone. }
  unfold addEventListener. rewrite bool_decide_eq_false_2 by exact Hfresh.
  cbn [closures set_listeners scrollCalls timers window l0].
  split; [apply lookup_insert_eq | done].
Qed.

(** X24. A listener registered with [onScroll] sees the first position
    of a burst and none of the later ones.  Registration neither calls the
    callback nor sets a timer.  Of a run of scroll events the first calls
    the callback, with the scroll information of the window at that moment,
    and sets one timer of [throttleMs]; the other events of the run are
    dropped, wherever the window has scrolled to meanwhile.  Once the timer
    has come due the next scroll event calls the callback again; after the
    cleanup function it does not. *)
Theorem onScroll_drops_trailing_positions (callback : nat) (throttleMs : Z)
    (l : Loop) (w0 w1 : Window) (ws : list Window) :
  listenersOf "scroll" l = [] ->
  let h := fst (onScroll callback throttleMs l) in
  let l1 := snd (onScroll callback throttleMs l) in
  let id := S (Helpers.lastTimer (timers l)) in
  let l2 := scrollBurst (w0 :: ws) l1 in
  (scrollCalls l1 = scrollCalls l /\ timers l1 = timers l) /\
  (scrollCalls l2 = scrollCalls l ++ [(callback, scrollInfo w0)] /\
   Helpers.pending (timers l2)
   = <[id := (throttleMs, Release h)]> (Helpers.pending (timers l)) /\
   window l2 = default w0 (last ws)) /\
  scrollCalls (scrollBurst [w1] (fireTimer id l2))
  = scrollCalls l ++ [(callback, scrollInfo w0); (callback, scrollInfo w1)] /\
  scrollCalls (scrollBurst [w1] (offScroll h (fireTimer id l2)))
  = scrollCalls l2.
Proof.
  intros Hnone h l1 id l2.
  destruct (onScroll_registered callback throttleMs l Hnone)
    as (Hl1 & Hc1 & Hs1 & Ht1 & _).
  fold h l1 in Hl1, Hc1, Hs1, Ht1.
  split; [by split|].
  (* the first event of the run *)
  set (la := fireEvent "scroll" (set_window w0 l1)).
  assert (Hla : la = call h (set_window w0 l1))
    by (by apply fireEvent_single).
  destruct (call_throttled h _ (set_window w0 l1) Hc1)
    as (Hwa & Hlia & _ & Hsca & Htma & Hca).
  rewrite <- Hla in Hwa, Hlia, Hsca, Htma, Hca.
  cbn [Helpers.throttle Helpers.tfunc Helpers.limit window set_window
         scrollCalls timers] in Hwa, Hsca, Htma, Hca.
  set (t1 := {| Helpers.tfunc := callback; Helpers.limit := throttleMs;
                Helpers.inThrottle := true |}) in *.
  (* the rest of the run *)
  assert (Hl2 : l2 = scrollBurst ws la) by reflexivity.
  destruct (scrollBurst_throttled h t1 ws la)
    as (H2l & H2c & H2s & H2t & H2w);
    [unfold listenersOf; by rewrite Hlia | exact Hca | reflexivity |].
  rewrite <- Hl2 in H2l, H2c, H2s, H2t, H2w.
  assert (Hp2 : Helpers.pending (timers l2)
                = <[id := (throttleMs, Release h)]> (Helpers.pending (timers l))).
  { rewrite H2t, Htma, Ht1. reflexivity. }
  assert (Hs2 : scrollCalls l2 = scrollCalls l ++ [(callback, scrollInfo w0)])
    by (by rewrite H2s, Hsca, Hs1).
  split; [split; [exact Hs2|split; [exact Hp2|by rewrite H2w, Hwa]]|].
  (* the timer *)
  set (l3 := fireTimer id l2).
  assert (Hl3 : l3 = set_closure h (ThrottledScroll (Helpers.release t1))
                       (set_timers (Helpers.expire id (timers l2)) l2)).
  { unfold l3, fireTimer. rewrite Hp2, lookup_insert_eq. cbn [runTask].
    cbn [closures set_timers]. by rewrite H2c. }
  assert (H3l : listenersOf "scroll" l3 = [h]) by (by rewrite Hl3).
  assert (H3c : closures l3 !! h = Some (ThrottledScroll (Helpers.release t1))).
  { rewrite Hl3. cbn [closures set_closure]. apply lookup_insert_eq. }
  assert (H3s : scrollCalls l3 = scrollCalls l2) by (by rewrite Hl3).
  split.
  - cbn [scrollBurst foldl].
    rewrite (fireEvent_single "scroll" h) by exact H3l.
    destruct (call_throttled h _ (set_window w1 l3) H3c)
      as (_ & _ & _ & Hsc & _).
    cbn [Helpers.release Helpers.inThrottle Helpers.tfunc t1 window
           set_window scrollCalls] in Hsc.
    rewrite Hsc, H3s, Hs2, <- app_assoc. reflexivity.
  - cbn [scrollBurst foldl]. unfold fireEvent.
    assert (Hoff : listenersOf "scroll" (set_window w1 (offScroll h l3)) = []).
    { change (listenersOf "scroll" (set_window w1 (offScroll h l3)))
        with (listenersOf "scroll" (offScroll h l3)).
      unfold offScroll. rewrite listenersOf_remove, decide_True by done.
      rewrite H3l. rewrite filter_cons_False by (intros H; by apply H).
      reflexivity. }
    rewrite Hoff. cbn [foldl]. exact H3s.
Qed.

Lemma onScroll_drops_trailing_positions_witness :
  let l := emptyLoop (windowOfWidth 1024) in
  let at_ (y : Z) := set_pageYOffset y (windowOfWidth 1024) in
  listenersOf "scroll" l = [] /\
  map (fun c => y (si_position (snd c)))
      (scrollCalls (scrollBurst [at_ 10; at_ 20; at_ 300]
                      (snd (onScroll 7 16 l))))
  = [10].
Proof.
  intros l at_.
  assert (H : listenersOf "scroll" l = []) by reflexivity.
  split; [exact H|].
  destruct (onScroll_drops_trailing_positions 7 16 l (at_ 10) (at_ 10)
              [at_ 20; at_ 300] H) as (_ & (Hs & _) & _).
  rewrite Hs. reflexivity.
Defined.

End ScrollThrottle.

(** ** ViewportUtils: debounced viewport listeners *)

Section ViewportDebounce.
Import ViewportUtils.

(** One call of a debounced viewport closure whose timer is pending. *)
Lemma call_debounced_pending (h callback : nat) (ms : Z) (prev : nat)
    (l : Loop) :
  closures l !! h
  = Some (DebouncedViewport
            {| Helpers.func := callback; Helpers.wait := ms;
               Helpers.immediate := false; Helpers.timeout := Some prev |}) ->
  let id := S (Helpers.lastTimer (timers l)) in
  let l' := call h l in
  viewportCalls l' = viewportCalls l /\ window l' = window l /\
  listeners l' = listeners l /\
  Helpers.pending (timers l')
  = <[id := (ms, Later h)]> (delete prev (Helpers.pending (timers l))) /\
  Helpers.lastTimer (timers l') = id /\
  closures l' !! h
  = Some (DebouncedViewport
            {| Helpers.func := callback; Helpers.wait := ms;
               Helpers.immediate := false; Helpers.timeout := Some id |}).
Proof.
  intros Hh. unfold call. rewrite Hh. unfold Helpers.executedFunction.
  cbn. rewrite lookup_insert_eq. repeat split.
Qed.

(** After registration: one listener, one timer. *)
Lemma onViewportChange_registered (callback : nat) (debounceMs : Z)
    (l : Loop) :
  listenersOf "resize" l = [] ->
  let h := fst (onViewportChange callback debounceMs l) in
  let l1 := snd (onViewportChange callback debounceMs l) in
  let id := S (Helpers.lastTimer (timers l)) in
  listenersOf "resize" l1 = [h] /\
  closures l1 !! h
  = Some (DebouncedViewport
            {| Helpers.func := callback; Helpers.wait := debounceMs;
               Helpers.immediate := false; Helpers.timeout := Some id |}) /\
  Helpers.pending (timers l1)
  = <[id := (debounceMs, Later h)]> (Helpers.pending (timers l)) /\
  Helpers.lastTimer (timers l1) = id /\
  viewportCalls l1 = viewportCalls l /\ window l1 = window l.
Proof.
  intros Hnone. unfold onViewportChange, newClosure. cbn [fst snd].
  set (h := S (lastClosure l)).
  set (d := Helpers.debounce callback debounceMs false).
  set (l0 := {| window := window l;
                closures := <[h := DebouncedViewport d]> (closures l);
                lastClosure := h; listeners := listeners l;
                timers := timers l; viewportCalls := viewportCalls l;
                scrollCalls := scrollCalls l |}).
  set (l2 := addEventListener "resize" h l0).
  set (l3 := addEventListener "orientationchange" h l2).
  assert (Hfresh : h ∉ listenersOf "resize" l0).
  { change (listenersOf "resize" l0) with (listenersOf "resize" l).
    rewrite Hnone. apply not_elem_of_nil. }
  assert (Hl2 : listenersOf "resize" l2 = [h]).
  { unfold l2. rewrite (listenersOf_add "resize" "resize" h l0 Hfresh).
    rewrite decide_True by done.
    change (listenersOf "resize" l0) with (listenersOf "resize" l).
    by rewrite Hnone. }
  assert (Hl3 : listenersOf "resize" l3 = [h]).
  { unfold l3, addEventListener. case_bool_decide; [exact Hl2|].
    unfold listenersOf at 1. cbn [listeners set_listeners].
    rewrite lookup_insert_ne by done. exact Hl2. }
  destruct (addEventListener_frame "resize" h l0) as (Hw2 & Hc2 & Ht2 & Hv2).
  destruct (addEventListener_frame "orientationchange" h l2)
    as (Hw3 & Hc3 & Ht3 & Hv3).
  fold l2 in Hw2, Hc2, Ht2, Hv2. fold l3 in Hw3, Hc3, Ht3, Hv3.
  assert (Hh : closures l3 !! h = Some (DebouncedViewport d)).
  { rewrite Hc3, Hc2. apply lookup_insert_eq. }
  assert (Hcall : let l' := call h l3 in
            viewportCalls l' = viewportCalls l3 /\ window l' = window l3 /\
            listeners l' = listeners l3 /\
            Helpers.pending (timers l')
            = <[S (Helpers.lastTimer (timers l3)) := (debounceMs, Later h)]>
                (Helpers.pending (timers l3)) /\
            Helpers.lastTimer (timers l') = S (Helpers.lastTimer (timers l3)) /\
            closures l' !! h
            = Some (DebouncedViewport
                      {| Helpers.func := callback; Helpers.wait := debounceMs;
                         Helpers.immediate := false;
                         Helpers.timeout := Some (S (Helpers.lastTimer (timers l3))) |})).
  { unfold call. rewrite Hh. unfold Helpers.executedFunction, d. cbn.
    rewrite lookup_insert_eq. repeat split. }
  destruct Hcall as (Hv & Hw & Hli & Hq & Hlast & Hc).
  rewrite Ht3, Ht2 in Hq, Hlast, Hc. cbn [timers l0] in Hq, Hlast, Hc.
  split; [unfold listenersOf; rewrite Hli; exact Hl3|].
  split; [exact Hc|]. split; [exact Hq|]. split; [exact Hlast|].
  split; [by rewrite Hv, Hv3, Hv2 | by rewrite Hw, Hw3, Hw2].
Qed.

(** Every further event moves the one pending timer. *)
Lemma resizeBurst_coalesces (h callback : nat) (ms : Z)
    (q0 : gmap nat (Z * Task)) (last0 : nat) (ws : list Window) (l : Loop) :
  (forall id, (last0 < id)%nat -> q0 !! id = None) ->
  (last0 < Helpers.lastTimer (timers l))%nat ->
  listenersOf "resize" l = [h] ->
  closures l !! h
  = Some (DebouncedViewport
            {| Helpers.func := callback; Helpers.wait := ms;
               Helpers.immediate := false;
               Helpers.timeout := Some (Helpers.lastTimer (timers l)) |}) ->
  Helpers.pending (timers l)
  = <[Helpers.lastTimer (timers l) := (ms, Later h)]> q0 ->
  let l' := resizeBurst ws l in
  let id := (Helpers.lastTimer (timers l) + length ws)%nat in
  Helpers.lastTimer (timers l') = id /\
  closures l' !! h
  = Some (DebouncedViewport
            {| Helpers.func := callback; Helpers.wait := ms;
               Helpers.immediate := false; Helpers.timeout := Some id |}) /\
  Helpers.pending (timers l') = <[id := (ms, Later h)]> q0 /\
  viewportCalls l' = viewportCalls l /\
  window l' = default (window l) (last ws).
Proof.
  intros Hfresh. revert l.
  induction ws as [|w ws IH]; intros l Hlast Hl Hh Hp.
  - cbn [resizeBurst foldl length last default]. rewrite Nat.add_0_r. done.
  - cbn [resizeBurst foldl].
    rewrite (fireEvent_single "resize" h) by exact Hl.
    destruct (call_debounced_pending h callback ms _ (set_window w l) Hh)
      as (Hv & Hw & Hli & Hq & Hlt & Hc).
    set (l1 := call h (set_window w l)) in *.
    cbn [timers set_window] in Hq, Hlt, Hc.
    rewrite Hp, delete_insert_eq, (delete_id q0) in Hq
      by (by apply Hfresh).
    destruct (IH l1) as (I1 & I2 & I3 & I4 & I5).
    + rewrite Hlt. lia.
    + unfold listenersOf. by rewrite Hli.
    + by rewrite Hlt.
    + by rewrite Hlt.
    + fold (resizeBurst ws l1). rewrite Hlt in I1, I2, I3.
      cbn [length].
      replace (Helpers.lastTimer (timers l) + S (length ws))%nat
        with (S (Helpers.lastTimer (timers l)) + length ws)%nat by lia.
      split; [exact I1|]. split; [exact I2|]. split; [exact I3|].
      split; [by rewrite I4, Hv|].
      rewrite I5, Hw. cbn [window set_window].
      destruct ws as [|w' ws]; [reflexivity|].
      rewrite last_cons_cons. apply default_last_cons.
Qed.

(** X25. A listener registered with [onViewportChange] (no other
    [resize] listener being registered) is told once per burst, and about
    the window as it is when the timer runs.  After registration and any
    run of resize events the callback has not run and exactly one timer of
    the closure is pending, the one of the last event, all earlier ones
    having been cleared; when it comes due the callback runs once, with the
    viewport and breakpoint of the window as it is then, whatever sizes
    the window went through. *)
Theorem onViewportChange_reports_final_viewport (callback : nat)
    (debounceMs : Z) (l : Loop) (ws : list Window) :
  listenersOf "resize" l = [] -> Helpers.timersFresh (timers l) ->
  let h := fst (onViewportChange callback debounceMs l) in
  let l2 := resizeBurst ws (snd (onViewportChange callback debounceMs l)) in
  let id := (Helpers.lastTimer (timers l) + S (length ws))%nat in
  viewportCalls l2 = viewportCalls l /\
  Helpers.pending (timers l2)
  = <[id := (debounceMs, Later h)]> (Helpers.pending (timers l)) /\
  window l2 = default (window l) (last ws) /\
  viewportCalls (fireTimer id l2)
  = viewportCalls l ++ [(callback, viewportInfo (window l2))] /\
  (forall k, (k < length ws)%nat ->
     fireTimer (Helpers.lastTimer (timers l) + S k) l2 = l2).
Proof.
  intros Hnone Hfresh h l2 id.
  destruct (onViewportChange_registered callback debounceMs l Hnone)
    as (Hl1 & Hc1 & Hp1 & Hlast1 & Hv1 & Hw1).
  fold h in Hl1, Hc1, Hp1.
  set (l1 := snd (onViewportChange callback debounceMs l)) in *.
  rewrite <- Hlast1 in Hc1, Hp1.
  destruct (resizeBurst_coalesces h callback debounceMs
              (Helpers.pending (timers l)) (Helpers.lastTimer (timers l))
              ws l1 Hfresh ltac:(rewrite Hlast1; lia) Hl1 Hc1 Hp1)
    as (I1 & I2 & I3 & I4 & I5).
  fold l2 in I1, I2, I3, I4, I5. rewrite Hlast1 in I1, I2, I3.
  replace (S (Helpers.lastTimer (timers l)) + length ws)%nat with id
    in I1, I2, I3 by (unfold id; lia).
  split; [by rewrite I4|]. split; [exact I3|].
  split; [by rewrite I5, Hw1|]. split.
  - erewrite (fireTimer_later id h debounceMs);
      [| rewrite I3; apply lookup_insert_eq | exact I2 | reflexivity].
    cbn [Helpers.func]. by rewrite I4, Hv1.
  - intros k Hk. unfold fireTimer.
    rewrite I3, lookup_insert_ne by (unfold id; lia).
    by rewrite Hfresh by lia.
Qed.

Lemma onViewportChange_reports_final_viewport_witness :
  let l := emptyLoop (windowOfWidth 1280) in
  let l2 := resizeBurst [windowOfWidth 900; windowOfWidth 700;
                         windowOfWidth 500]
              (snd (onViewportChange 7 250 l)) in
  listenersOf "resize" l = [] /\ Helpers.timersFresh (timers l) /\
  map (fun c => vi_breakpoint (snd c)) (viewportCalls (fireTimer 4 l2)) = [sm].
Proof.
  intros l l2.
  assert (H1 : listenersOf "resize" l = []) by reflexivity.
  assert (H2 : Helpers.timersFresh (timers l))
    by (intros id _; apply lookup_empty).
  split; [exact H1|]. split; [exact H2|].
  destruct (onViewportChange_reports_final_viewport 7 250 l
              [windowOfWidth 900; windowOfWidth 700; windowOfWidth 500] H1 H2)
    as (_ & _ & _ & Hcalls & _).
  change (fireTimer 4 l2)
    with (fireTimer (Helpers.lastTimer (timers l) + 4) l2).
  etransitivity; [exact (f_equal (map (fun c => vi_breakpoint (snd c))) Hcalls)|].
  vm_compute. reflexivity.
Defined.

End ViewportDebounce.

(** ** Animations: switching to reduced motion half way *)

Section LateReduce.
Import Dom Animations.

Lemma mediaChange_on (s : State) :
  eventsBound s = true ->
  let s' := mediaChange true s in
  prefersReducedMotion s' = true /\ timers s' = timers s /\
  document s'
  = Helpers.addClass (body (document s)) "reduce-motion" (document s).
Proof.
  intros Hb. unfold mediaChange. cbv zeta.
  cbn [eventsBound set_mediaReduce]. rewrite Hb.
  unfold checkMotionPreferences. cbv zeta.
  cbn [mediaReduce set_prefersReducedMotion set_mediaReduce
         prefersReducedMotion]. repeat split.
Qed.

Lemma lookup_addClass_style (i : option nat) (c : string) (d : Document)
    (j : nat) :
  (style <$> Helpers.addClass i c d !! j) = (style <$> d !! j).
Proof.
  destruct i as [i|]; [|done]. unfold Helpers.addClass, update.
  destruct (decide (j = i)) as [->|Hne].
  - rewrite list_lookup_alter_eq. destruct (d !! i) as [e|]; [|done].
    simpl. by destruct (contains c e).
  - by rewrite list_lookup_alter_ne.
Qed.

Lemma length_addClass (i : option nat) (c : string) (d : Document) :
  length (Helpers.addClass i c d) = length d.
Proof.
  destruct i as [i|]; [|done]. unfold Helpers.addClass, update.
  apply length_alter.
Qed.

(** X26. Switching to reduced motion does not call off an animation
    that is under way.  After the first [animateElement] on an element
    (motion allowed, the listener of [bindEvents] in place) the element is
    hidden and a timer is pending; when the system setting changes to
    [reduce] the flag is set and [animateElement] does nothing any more,
    but the element stays hidden and the timer stays; when the timer comes
    due the element is shown, with the same 600ms or 720ms transition as
    without the change. *)
Theorem pending_reveal_survives_reduce (s : State) (element : nat) :
  prefersReducedMotion s = false -> element ∉ animatedElements s ->
  (element < length (document s))%nat -> eventsBound s = true ->
  let s1 := animateElement element s in
  let id := S (Helpers.lastTimer (timers s)) in
  let s2 := mediaChange true s1 in
  let s3 := fireTimer id s2 in
  prefersReducedMotion s2 = true /\
  (forall other, animateElement other s2 = s2) /\
  styleOf s2 element "opacity" = Some (Text "0") /\
  is_Some (Helpers.pending (timers s2) !! id) /\
  styleOf s3 element "opacity" = Some (Text "1") /\
  (styleOf s3 element "transition" = Some (TransitionAll 600 animationEasing)
   \/ styleOf s3 element "transition"
      = Some (TransitionAll 720 animationEasing)) /\
  styleOf s3 element "transition"
  = styleOf (fireTimer id s1) element "transition".
Proof.
  intros Hflag Hnew Hlen Hbound s1 id s2 s3.
  destruct (animateElement_eq s element Hflag Hnew)
    as (transform & task & delay & Heq & Htf & Hkind).
  set (sb := set_document (Helpers.addClass (Some element) "animate-in")
               (set_animatedElements ({[element]} ∪ animatedElements s) s))
    in Heq.
  assert (Hlenb : (element < length (document sb))%nat).
  { unfold sb. cbn [document set_document set_animatedElements].
    by rewrite length_addClass. }
  destruct (hide_then_timer element transform task delay sb Htf Hlenb)
    as (Hop & Hlen1 & Htm & _).
  rewrite <- Heq in Hop, Hlen1, Htm. fold s1 in Hop, Hlen1, Htm.
  change (timers sb) with (timers s) in Htm.
  cbn [Helpers.setTimeout snd] in Htm. fold id in Htm.
  assert (Hb1 : eventsBound s1 = true) by (unfold s1; by rewrite Heq).
  destruct (mediaChange_on s1 Hb1) as (Hf2 & Ht2 & Hd2). fold s2 in Hf2, Ht2, Hd2.
  assert (Hs2 : forall j p, styleOf s2 j p = styleOf s1 j p).
  { intros j p. unfold styleOf. rewrite Hd2.
    pose proof (lookup_addClass_style (body (document s1)) "reduce-motion"
                  (document s1) j) as H.
    destruct (Helpers.addClass _ _ _ !! j), (document s1 !! j);
      simpl in *; congruence. }
  assert (Hpend1 : Helpers.pending (timers s1) !! id = Some (delay, task))
    by (rewrite Htm; apply lookup_insert_eq).
  assert (Hpend2 : Helpers.pending (timers s2) !! id = Some (delay, task))
    by (by rewrite Ht2).
  split; [exact Hf2|]. split; [intros other; by apply animateElement_reduced|].
  split; [by rewrite Hs2|]. split; [by rewrite Hpend2|].
  set (s1' := set_timers (Helpers.expire id (timers s1)) s1).
  set (s2' := set_timers (Helpers.expire id (timers s2)) s2).
  assert (H3 : s3 = runTask task s2') by (unfold s3, fireTimer; by rewrite Hpend2).
  assert (H1 : fireTimer id s1 = runTask task s1')
    by (unfold fireTimer; by rewrite Hpend1).
  assert (Hl1' : (element < length (document s1'))%nat)
    by (change (document s1') with (document s1); by rewrite Hlen1).
  assert (Hl2' : (element < length (document s2'))%nat).
  { change (document s2') with (document s2).
    by rewrite Hd2, length_addClass, Hlen1. }
  rewrite H3, H1.
  destruct Hkind as [[-> ->]|[-> _]].
  - destruct (runTask_RevealLaptop element s2' Hl2') as (Ho & Ht & _).
    destruct (runTask_RevealLaptop element s1' Hl1') as (_ & Ht1 & _).
    split; [exact Ho|]. split; [by right | by rewrite Ht, Ht1].
  - destruct (runTask_Reveal element (transitionAll 1) "translateY(0)" s2'
                ltac:(discriminate) Hl2') as (Ho & Ht & _).
    destruct (runTask_Reveal element (transitionAll 1) "translateY(0)" s1'
                ltac:(discriminate) Hl1') as (_ & Ht1 & _).
    split; [exact Ho|]. split; [by left | by rewrite Ht, Ht1].
Qed.

Lemma pending_reveal_survives_reduce_witness :
  let s := AnimationsExample.started false in
  prefersReducedMotion s = false /\ eventsBound s = true /\
  let s3 := fireTimer 4 (mediaChange true (animateElement 7 s)) in
  prefersReducedMotion s3 = true /\
  styleOf s3 7 "transition" = Some (TransitionAll 600 animationEasing).
Proof.
  intros s.
  assert (Hf : prefersReducedMotion s = false) by (vm_compute; reflexivity).
  assert (Hb : eventsBound s = true) by (vm_compute; reflexivity).
  assert (Hn : 7%nat ∉ animatedElements s)
    by (apply (bool_decide_unpack _); vm_compute; exact I).
  assert (Hl : (7 < length (document s))%nat) by (vm_compute; lia).
  split; [exact Hf|]. split; [exact Hb|].
  destruct (pending_reveal_survives_reduce s 7 Hf Hn Hl Hb)
    as (_ & _ & _ & _ & _ & _ & Hsame).
  assert (Hid : S (Helpers.lastTimer (timers s)) = 4%nat)
    by (vm_compute; reflexivity).
  rewrite Hid in Hsame.
  split; [vm_compute; reflexivity|].
  rewrite Hsame. vm_compute. reflexivity.
Defined.

End LateReduce.

(** ** Navigation: the get-started link *)

Section GetStarted.
Import Dom Eff Navigation.

(** X27. A click on a link to [#get-started] never looks for an element
    of that id, also when the page has one.  It cancels the default action,
    requests a tween towards the first of [#contact],
    [[data-section="contact"]] and [.hero-section] that exists (none
    otherwise), and dispatches [getStartedClicked] in every case; it logs
    no warning, sets no timer, and leaves the document, the current section
    and the menu flag as they were. *)
Theorem get_started_goes_to_contact (s : State) (link : nat) (href : string) :
  document s !! link ≫= getAttribute "href" = Some href ->
  JsString.substring1 href = "get-started"%string ->
  let contact :=
    match getElementById (document s) "contact" with
    | Some e => Some e
    | None =>
        match querySelector (document s)
                [Sel [AttrEq "data-section" "contact"]] with
        | Some e => Some e
        | None => querySelector (document s) [Sel [Class "hero-section"]]
        end
    end in
  exists s',
    handleNavClick link s = (Normal tt, s') /\
    trace s' = trace s ++ [PreventDefault; Dispatched "getStartedClicked"] /\
    frames s'
    = frames s ++ match contact ≫= (fun t => document s !! t) with
                  | Some e => [tweenTo s e]
                  | None => []
                  end /\
    document s' = document s /\ currentSection s' = currentSection s /\
    isMobileMenuOpen s' = isMobileMenuOpen s /\ timers s' = timers s.
Proof.
  intros Hhref Hgs contact.
  unfold handleNavClick. unfold bind at 1, modify at 1.
  unfold bind at 1, get at 1. unfold bind at 1.
  change (document (emit PreventDefault s)) with (document s).
  rewrite Hhref. cbn [deref]. unfold ret at 1. rewrite Hgs.
  rewrite bool_decide_eq_true_2 by reflexivity.
  unfold handleGetStarted. unfold bind at 1, get at 1. unfold bind at 1.
  change (document (emit PreventDefault s)) with (document s). fold contact.
  destruct contact as [t|]; cbn [mbind option_bind].
  - destruct (document s !! t) as [e|] eqn:He.
    + rewrite (scrollToElement_requests_tween _ t e) by exact He.
      eexists. split; [reflexivity|]. cbn. rewrite <- app_assoc.
      repeat split.
    + unfold scrollToElement, bind, get.
      change (document (emit PreventDefault s)) with (document s).
      rewrite He. unfold Helpers.smoothScrollTo. cbn.
      eexists. split; [reflexivity|]. cbn.
      rewrite <- app_assoc, app_nil_r. repeat split.
  - eexists. split; [reflexivity|]. cbn.
    rewrite <- app_assoc, app_nil_r. repeat split.
Qed.

Lemma get_started_goes_to_contact_witness :
  let s := Example.navigation in
  (document s !! 4%nat ≫= getAttribute "href" = Some "#get-started"%string) /\
  map Helpers.distance (frames (snd (handleNavClick 4 s))) = [2550] /\
  currentSection (snd (handleNavClick 4 s)) = "home"%string.
Proof.
  intros s.
  assert (H : document s !! 4%nat ≫= getAttribute "href"
              = Some "#get-started"%string) by reflexivity.
  split; [exact H|].
  destruct (get_started_goes_to_contact s 4 "#get-started" H eq_refl)
    as (s' & Heq & _ & Hfr & _ & Hcur & _).
  rewrite Heq. cbn [snd]. rewrite Hfr, Hcur. split; vm_compute; reflexivity.
Defined.

End GetStarted.
